(** * webgl-2d: the sprite batching renderer of [src/index.js]

    A shallow embedding of the [Renderer] class (first listing of
    [src/index.js], lines 1-542) and the properties of its batching
    protocol: the packed vertex stream, the growable stream buffer, the
    texture-unit cache, the static index table and the flush protocol.

    - JavaScript numbers are kept abstract behind the class [JSNumber];
      two instances are given, IEEE binary64 (the numbers of the program)
      and the real numbers (idealised arithmetic).
    - The integer-valued fields ([length], [sbSize], [sbOffset],
      [nextUnit]) are [Z]; the one 32-bit operation on them, [<<=], has
      its wrap-around written out.
    - The [Float32Array] is a [list]; an indexed store outside the array
      is dropped, [set] and the constructor raise [RangeError] ([None]).
    - The [Map] keyed by image identity is a [gmap] on image handles.
    - WebGL is observed through the sequence of calls made on the
      context, kept in the field [gl]. *)

From Stdlib Require Import ZArith Lia Bool List.
From Stdlib Require Import Floats.PrimFloat Floats.SpecFloat Floats.FloatOps.
From Stdlib Require Floats.FloatAxioms.
From Stdlib Require Import Reals Lra Ring.
From stdpp Require Import base option list gmap.

Local Open Scope Z_scope.

(** ** Constants (index.js, lines 6-28) *)

Definition VERTEX_SIZE : Z := 2.
Definition COLOR_SIZE : Z := 4.
Definition REGION_SIZE : Z := 2.
Definition TEXTURE_SIZE : Z := 1.

Definition BYTES_PER_ELEMENT : Z := 4.

Definition ELEMENT_SIZE : Z := VERTEX_SIZE + COLOR_SIZE + REGION_SIZE + TEXTURE_SIZE.
Definition ELEMENT_OFFSET : Z := ELEMENT_SIZE * BYTES_PER_ELEMENT.

Definition VERTEX_ELEMENT : Z := 0.
Definition COLOR_ELEMENT : Z := VERTEX_ELEMENT + VERTEX_SIZE.
Definition REGION_ELEMENT : Z := COLOR_ELEMENT + COLOR_SIZE.
Definition TEXTURE_ELEMENT : Z := REGION_ELEMENT + REGION_SIZE.

Definition VERTEX_OFFSET : Z := VERTEX_ELEMENT * BYTES_PER_ELEMENT.
Definition COLOR_OFFSET : Z := COLOR_ELEMENT * BYTES_PER_ELEMENT.
Definition REGION_OFFSET : Z := REGION_ELEMENT * BYTES_PER_ELEMENT.
Definition TEXTURE_OFFSET : Z := TEXTURE_ELEMENT * BYTES_PER_ELEMENT.

Definition ELEMENTS_PER_QUAD : Z := 4.
Definition INDICES_PER_QUAD : Z := 6.

Definition MAX_LENGTH : Z := 16000.

(** [gl.TEXTURE0] of the WebGL 1 interface. *)
Definition TEXTURE0 : Z := 33984.

Ltac unfold_consts :=
  unfold TEXTURE_OFFSET, REGION_OFFSET, COLOR_OFFSET, VERTEX_OFFSET,
    TEXTURE_ELEMENT, REGION_ELEMENT, COLOR_ELEMENT, VERTEX_ELEMENT,
    ELEMENT_OFFSET, ELEMENT_SIZE, BYTES_PER_ELEMENT,
    VERTEX_SIZE, COLOR_SIZE, REGION_SIZE, TEXTURE_SIZE,
    ELEMENTS_PER_QUAD, INDICES_PER_QUAD, MAX_LENGTH in *.

(** ** JavaScript numbers *)

(** The operations on numbers that the renderer uses. [of_Z] is an
    integer literal or an integer-valued property, [flt] is [<],
    [fseq] is [===], [fround] is the narrowing that a store into a
    [Float32Array] performs. *)
Class JSNumber (F : Type) := {
  of_Z : Z -> F;
  fadd : F -> F -> F;
  fsub : F -> F -> F;
  fmul : F -> F -> F;
  fdiv : F -> F -> F;
  flt : F -> F -> bool;
  fseq : F -> F -> bool;
  Math_sin : F -> F;
  Math_cos : F -> F;
  fround : F -> F
}.

(** 32-bit integer conversions of the language. *)
Definition ToInt32 (n : Z) : Z := (n + 2 ^ 31) mod 2 ^ 32 - 2 ^ 31.
Definition ToUint16 (n : Z) : Z := n mod 2 ^ 16.

(** [a << b] on integer-valued operands. *)
Definition shl (a b : Z) : Z := ToInt32 (Z.shiftl (ToInt32 a) (b mod 32)).

(** ** Typed arrays *)

Module Float32Array.
Section Ops.
Context {F : Type} `{JSNumber F}.

(** [new Float32Array(n)]: [n] zeros, [RangeError] for a negative
    length. An engine raises [RangeError] also for a length that it
    cannot allocate; every other length is taken as allocated here,
    which is what the lengths are that a renderer asks for: at most
    2 * 16384 * 36 elements. *)
Definition of_length (n : Z) : option (list F) :=
  if n <? 0 then None else Some (replicate (Z.to_nat n) (of_Z 0)).

(** [a[i] = v]: the element is narrowed to single precision; a store
    outside the array is ignored. *)
Definition store (i : Z) (v : F) (a : list F) : list F :=
  if (0 <=? i) && (i <? Z.of_nat (List.length a))
  then <[Z.to_nat i := fround v]> a
  else a.

(** [a.set(src, offset)] for a plain array [src] of numbers: every
    element is narrowed; [RangeError] when the source does not fit. *)
Definition set (src : list F) (offset : Z) (a : list F) : option (list F) :=
  if (0 <=? offset) && (offset + Z.of_nat (List.length src) <=? Z.of_nat (List.length a))
  then Some (take (Z.to_nat offset) a ++ map fround src
             ++ drop (Z.to_nat offset + List.length src) a)
  else None.

(** [a.set(src)] for a [Float32Array] [src]: the elements are copied
    as they are, at offset 0. *)
Definition set_typed (src : list F) (a : list F) : option (list F) :=
  if Z.of_nat (List.length src) <=? Z.of_nat (List.length a)
  then Some (src ++ drop (List.length src) a)
  else None.

(** [a.subarray(b, e)] for [0 <= b]: the elements from [b] up to, not
    including, [e], both clamped to the array. *)
Definition subarray (b e : Z) (a : list F) : list F :=
  drop (Z.to_nat b) (take (Z.to_nat e) a).
End Ops.
End Float32Array.

(** ** The matrix and vector helpers *)

(** A 3x3 matrix as the 9-element column-major array of gl-mat3. *)
Record Mat3 (F : Type) := mkMat3 {
  m0 : F; m1 : F; m2 : F;
  m3 : F; m4 : F; m5 : F;
  m6 : F; m7 : F; m8 : F
}.
Arguments mkMat3 {F}.
Arguments m0 {F}. Arguments m1 {F}. Arguments m2 {F}.
Arguments m3 {F}. Arguments m4 {F}. Arguments m5 {F}.
Arguments m6 {F}. Arguments m7 {F}. Arguments m8 {F}.

Module mat3.
Section Ops.
Context {F : Type} `{JSNumber F}.

(** Modelled from the spec: [gl-mat3] is an npm dependency (import at
    line 4) whose code is not in the repository. [identity],
    [translate] and [rotate] are the package's column-major
    operations: [translate out a v] is [a] times the translation by
    [v], [rotate out a rad] is [a] times the counter-clockwise
    rotation by [rad]; the arguments are read before [out] is
    written, so [out] may be [a]. *)
Definition identity : Mat3 F :=
  mkMat3 (of_Z 1) (of_Z 0) (of_Z 0)
         (of_Z 0) (of_Z 1) (of_Z 0)
         (of_Z 0) (of_Z 0) (of_Z 1).

Definition translate (a : Mat3 F) (v : F * F) : Mat3 F :=
  let a00 := m0 a in let a01 := m1 a in let a02 := m2 a in
  let a10 := m3 a in let a11 := m4 a in let a12 := m5 a in
  let a20 := m6 a in let a21 := m7 a in let a22 := m8 a in
  let x := fst v in let y := snd v in
  mkMat3 a00 a01 a02
         a10 a11 a12
         (fadd (fadd (fmul x a00) (fmul y a10)) a20)
         (fadd (fadd (fmul x a01) (fmul y a11)) a21)
         (fadd (fadd (fmul x a02) (fmul y a12)) a22).

Definition rotate (a : Mat3 F) (rad : F) : Mat3 F :=
  let a00 := m0 a in let a01 := m1 a in let a02 := m2 a in
  let a10 := m3 a in let a11 := m4 a in let a12 := m5 a in
  let a20 := m6 a in let a21 := m7 a in let a22 := m8 a in
  let s := Math_sin rad in
  let c := Math_cos rad in
  mkMat3 (fadd (fmul c a00) (fmul s a10))
         (fadd (fmul c a01) (fmul s a11))
         (fadd (fmul c a02) (fmul s a12))
         (fsub (fmul c a10) (fmul s a00))
         (fsub (fmul c a11) (fmul s a01))
         (fsub (fmul c a12) (fmul s a02))
         a20 a21 a22.
End Ops.
End mat3.

Module vec2.
Section Ops.
Context {F : Type} `{JSNumber F}.

(** Modelled from the spec: [gl-vec2] is an npm dependency (import at
    line 3) whose code is not in the repository. [transformMat3 out a
    m] is the package's product of [m] with the point [(a0, a1, 1)]. *)
Definition transformMat3 (a : F * F) (m : Mat3 F) : F * F :=
  let x := fst a in let y := snd a in
  (fadd (fadd (fmul (m0 m) x) (fmul (m3 m) y)) (m6 m),
   fadd (fadd (fmul (m1 m) x) (fmul (m4 m) y)) (m7 m)).
End Ops.
End vec2.

(** ** Images and the WebGL call trace *)

(** An [HTMLImageElement]: its identity (the key of the [Map]) and the
    two properties the renderer reads. *)
Record Image := mkImage {
  handle : nat;
  naturalWidth : Z;
  naturalHeight : Z
}.

(** What the constructor reads from the canvas and its context. *)
Record Canvas := mkCanvas {
  width : Z;
  height : Z;
  MAX_TEXTURE_IMAGE_UNITS : Z;
  HIGH_FLOAT_precision : Z
}.

Inductive Precision := mediump | highp.

Inductive Target := ARRAY_BUFFER | ELEMENT_ARRAY_BUFFER.

Inductive Usage := STREAM_DRAW | STATIC_DRAW.

(** The texture objects: the 1x1 placeholder of the constructor, and the
    texture that [uploadImage] creates for an image. *)
Inductive Texture := emptyTexture | textureOf (h : nat).

Inductive Attribute := aVertex | aColor | aRegion | aTexture.

Inductive TexParameter :=
  | MIN_FILTER_LINEAR
  | WRAP_S_CLAMP_TO_EDGE
  | WRAP_T_CLAMP_TO_EDGE.

(** The calls on the rendering context, with the arguments that vary. *)
Inductive GLCall (F : Type) :=
  | newShader (maxTextures : Z) (precision : Precision)
  | useProgram
  | createBuffer
  | bindBuffer (target : Target)
  | bufferData_size (target : Target) (bytes : Z) (usage : Usage)
  | bufferData_indices (target : Target) (data : list Z) (usage : Usage)
  | bufferSubData (target : Target) (offset : Z) (data : list F)
  | vertexAttribPointer (a : Attribute) (size stride offset : Z)
  | createTexture
  | activeTexture (unit : Z)
  | bindTexture (texture : Texture)
  | texImage2D_pixels (w h : Z) (pixels : list Z)
  | texImage2D (image : Image)
  | texParameteri (p : TexParameter)
  | uniform1iv_sampler (units : list Z)
  | uniformMatrix3fv_matrix (m : Mat3 F)
  | viewport (x y w h : F)
  | clearColor (r g b a : F)
  | clear_COLOR_BUFFER_BIT
  | enable_BLEND
  | blendFunc_ONE_ONE_MINUS_SRC_ALPHA
  | pixelStorei_UNPACK_PREMULTIPLY_ALPHA_WEBGL (v : Z)
  | drawElements_TRIANGLES (count : Z) (offset : Z).

Arguments newShader {F}. Arguments useProgram {F}.
Arguments createBuffer {F}. Arguments bindBuffer {F}.
Arguments bufferData_size {F}. Arguments bufferData_indices {F}.
Arguments bufferSubData {F}. Arguments vertexAttribPointer {F}.
Arguments createTexture {F}. Arguments activeTexture {F}.
Arguments bindTexture {F}. Arguments texImage2D_pixels {F}.
Arguments texImage2D {F}. Arguments texParameteri {F}.
Arguments uniform1iv_sampler {F}. Arguments uniformMatrix3fv_matrix {F}.
Arguments viewport {F}. Arguments clearColor {F}.
Arguments clear_COLOR_BUFFER_BIT {F}. Arguments enable_BLEND {F}.
Arguments blendFunc_ONE_ONE_MINUS_SRC_ALPHA {F}.
Arguments pixelStorei_UNPACK_PREMULTIPLY_ALPHA_WEBGL {F}.
Arguments drawElements_TRIANGLES {F}.

(** The draw color [this.color], a 4-element array. *)
Record Color (F : Type) := mkColor { red : F; green : F; blue : F; alpha : F }.
Arguments mkColor {F}. Arguments red {F}. Arguments green {F}.
Arguments blue {F}. Arguments alpha {F}.

(** The five pre-allocated 2-vectors [this.vectors]. *)
Record Vectors (F : Type) := mkVectors {
  vectors0 : F * F;
  vectors1 : F * F;
  vectors2 : F * F;
  vectors3 : F * F;
  vectors4 : F * F
}.
Arguments mkVectors {F}. Arguments vectors0 {F}. Arguments vectors1 {F}.
Arguments vectors2 {F}. Arguments vectors3 {F}. Arguments vectors4 {F}.

(** The parameters of [drawImage] after the image. *)
Record DrawArgs (F : Type) := mkDrawArgs {
  x : F; y : F; dwidth : F; dheight : F;
  regionX : F; regionY : F; regionWidth : F; regionHeight : F;
  rotateAngle : F; rotateOriginX : F; rotateOriginY : F
}.
Arguments mkDrawArgs {F}. Arguments x {F}. Arguments y {F}.
Arguments dwidth {F}. Arguments dheight {F}.
Arguments regionX {F}. Arguments regionY {F}.
Arguments regionWidth {F}. Arguments regionHeight {F}.
Arguments rotateAngle {F}. Arguments rotateOriginX {F}.
Arguments rotateOriginY {F}.

(** ** The renderer *)

Module Renderer.

(** The fields of a [Renderer] that its methods read or write. The
    field [gl] stands for the context: it holds the calls made on it so
    far. The objects that never change after construction ([canvas],
    [shader], the buffers [sb] and [ib], [emptyTexture]) are named by
    the calls that use them. *)
Record t (F : Type) := mk {
  length : Z;
  maxTextures : Z;
  precision : Precision;
  sbSize : Z;
  sbOffset : Z;
  stream : list F;
  uMatrix : Mat3 F;
  nextUnit : Z;
  cache : gmap nat Z;
  color : Color F;
  vectors : Vectors F;
  matrix : Mat3 F;
  gl : list (GLCall F)
}.
Arguments mk {F}. Arguments length {F}. Arguments maxTextures {F}.
Arguments precision {F}. Arguments sbSize {F}. Arguments sbOffset {F}.
Arguments stream {F}. Arguments uMatrix {F}. Arguments nextUnit {F}.
Arguments cache {F}. Arguments color {F}. Arguments vectors {F}.
Arguments matrix {F}. Arguments gl {F}.

Section Methods.
Context {F : Type} `{JSNumber F}.

(** Field assignments. *)
Definition set_length (v : Z) (r : t F) : t F :=
  mk v (maxTextures r) (precision r) (sbSize r) (sbOffset r) (stream r)
     (uMatrix r) (nextUnit r) (cache r) (color r) (vectors r) (matrix r) (gl r).
Definition set_sbSize (v : Z) (r : t F) : t F :=
  mk (length r) (maxTextures r) (precision r) v (sbOffset r) (stream r)
     (uMatrix r) (nextUnit r) (cache r) (color r) (vectors r) (matrix r) (gl r).
Definition set_sbOffset (v : Z) (r : t F) : t F :=
  mk (length r) (maxTextures r) (precision r) (sbSize r) v (stream r)
     (uMatrix r) (nextUnit r) (cache r) (color r) (vectors r) (matrix r) (gl r).
Definition set_stream (v : list F) (r : t F) : t F :=
  mk (length r) (maxTextures r) (precision r) (sbSize r) (sbOffset r) v
     (uMatrix r) (nextUnit r) (cache r) (color r) (vectors r) (matrix r) (gl r).
Definition set_uMatrix (v : Mat3 F) (r : t F) : t F :=
  mk (length r) (maxTextures r) (precision r) (sbSize r) (sbOffset r) (stream r)
     v (nextUnit r) (cache r) (color r) (vectors r) (matrix r) (gl r).
Definition set_nextUnit (v : Z) (r : t F) : t F :=
  mk (length r) (maxTextures r) (precision r) (sbSize r) (sbOffset r) (stream r)
     (uMatrix r) v (cache r) (color r) (vectors r) (matrix r) (gl r).
Definition set_cache (v : gmap nat Z) (r : t F) : t F :=
  mk (length r) (maxTextures r) (precision r) (sbSize r) (sbOffset r) (stream r)
     (uMatrix r) (nextUnit r) v (color r) (vectors r) (matrix r) (gl r).
Definition set_color (v : Color F) (r : t F) : t F :=
  mk (length r) (maxTextures r) (precision r) (sbSize r) (sbOffset r) (stream r)
     (uMatrix r) (nextUnit r) (cache r) v (vectors r) (matrix r) (gl r).
Definition set_vectors (v : Vectors F) (r : t F) : t F :=
  mk (length r) (maxTextures r) (precision r) (sbSize r) (sbOffset r) (stream r)
     (uMatrix r) (nextUnit r) (cache r) (color r) v (matrix r) (gl r).
Definition set_matrix (v : Mat3 F) (r : t F) : t F :=
  mk (length r) (maxTextures r) (precision r) (sbSize r) (sbOffset r) (stream r)
     (uMatrix r) (nextUnit r) (cache r) (color r) (vectors r) v (gl r).

(** A sequence of calls on the context. *)
Definition call (cs : list (GLCall F)) (r : t F) : t F :=
  mk (length r) (maxTextures r) (precision r) (sbSize r) (sbOffset r) (stream r)
     (uMatrix r) (nextUnit r) (cache r) (color r) (vectors r) (matrix r)
     (gl r ++ cs).

(** [setClearColor] (lines 272-274). *)
Definition setClearColor (r g b a : F) (rd : t F) : t F :=
  call [clearColor r g b a] rd.

(** [clear] (lines 341-343). *)
Definition clear (r : t F) : t F := call [clear_COLOR_BUFFER_BIT] r.

(** [flush] (lines 345-366). *)
Definition flush (r : t F) : t F :=
  if 0 <? length r then
    let len := length r * ELEMENT_SIZE * ELEMENTS_PER_QUAD in
    let r := call [bufferSubData ARRAY_BUFFER 0
                     (Float32Array.subarray 0 len (stream r));
                   drawElements_TRIANGLES (length r * INDICES_PER_QUAD) 0] r in
    let r := set_sbOffset 0 r in
    set_length 0 r
  else r.

(** [setProjection] (lines 280-297). *)
Definition setProjection (w h : F) (r : t F) : t F :=
  let r := flush r in
  let r := set_uMatrix
             (mkMat3 (fdiv (of_Z 2) w) (of_Z 0) (of_Z 0)
                     (of_Z 0) (fdiv (of_Z (-2)) h) (of_Z 0)
                     (of_Z (-1)) (of_Z 1) (of_Z 1)) r in
  call [viewport (of_Z 0) (of_Z 0) w h;
        uniformMatrix3fv_matrix (uMatrix r)] r.

(** [uploadImage] (lines 299-320): the state after the call and the
    unit returned. *)
Definition uploadImage (image : Image) (r : t F) : t F * Z :=
  match cache r !! handle image with
  | Some u => (r, u)
  | None =>
      let unit := nextUnit r in
      let r := set_nextUnit (nextUnit r + 1) r in
      let r := call [createTexture;
                     activeTexture (TEXTURE0 + unit);
                     bindTexture (textureOf (handle image));
                     texImage2D image;
                     texParameteri MIN_FILTER_LINEAR;
                     texParameteri WRAP_S_CLAMP_TO_EDGE;
                     texParameteri WRAP_T_CLAMP_TO_EDGE] r in
      let r := set_cache (<[handle image := unit]> (cache r)) r in
      (r, unit)
  end.

(** The values [i, i+1, ...] that the counter of a loop takes in [n]
    rounds, and the loop [for (i = 0; i < n; i++)]. *)
Fixpoint count_from (i : Z) (n : nat) : list Z :=
  match n with
  | O => []
  | S n => i :: count_from (i + 1) n
  end.

Definition range (n : Z) : list Z := count_from 0 (Z.to_nat n).

(** [reset] (lines 322-339); [maxTextures] is at least 8 on a WebGL
    context. *)
Definition reset (r : t F) : t F :=
  let r := set_sbOffset 0 r in
  let r := set_length 0 r in
  let sampler := range (maxTextures r) in
  let r := call [uniform1iv_sampler sampler] r in
  fold_left
    (fun r i => call [activeTexture (TEXTURE0 + i); bindTexture emptyTexture] r)
    (range (maxTextures r)) r.

(** [createIB] (lines 468-482). The quotient [i / INDICES_PER_QUAD]
    is truncated by the first [~], which converts its operand to a
    32-bit integer; the [Uint16Array] keeps each entry modulo 2^16. *)
Definition indices : list Z := [0; 1; 2; 2; 1; 3].

Definition createIB : list Z :=
  let data :=
    map (fun i =>
           default 0 (indices !! Z.to_nat (i mod INDICES_PER_QUAD))
           + Z.lnot (Z.lnot (ToInt32 (i ÷ INDICES_PER_QUAD))) * ELEMENTS_PER_QUAD)
        (range (MAX_LENGTH * INDICES_PER_QUAD)) in
  map ToUint16 data.

(** [resizeSB] (lines 487-492). *)
Definition resizeSB (r : t F) : option (t F) :=
  let r := set_sbSize (shl (sbSize r) 1) r in
  stream' ← Float32Array.of_length (sbSize r * ELEMENT_SIZE * ELEMENTS_PER_QUAD);
  stream' ← Float32Array.set_typed (stream r) stream';
  Some (set_stream stream' r).

(** [drawImage] (lines 382-463). [None] is a [RangeError] raised by
    the typed array; a call that raises does not continue. The
    optional parameters [rotateAngle], [rotateOriginX] and
    [rotateOriginY] are 0 when omitted ([defaults]). *)
Definition defaults (x y w h rx ry rw rh : F) : DrawArgs F :=
  mkDrawArgs x y w h rx ry rw rh (of_Z 0) (of_Z 0) (of_Z 0).

Definition drawImage (image : Image) (a : DrawArgs F) (r : t F) : option (t F) :=
  if flt (alpha (color r)) (fdiv (of_Z 1) (of_Z 256)) then Some r else
  let r := if MAX_LENGTH <=? length r then flush r else r in
  r ← (if sbSize r <=? length r then resizeSB r else Some r);

  let idx0 := sbOffset r in
  let idx1 := idx0 + ELEMENT_SIZE in
  let idx2 := idx1 + ELEMENT_SIZE in
  let idx3 := idx2 + ELEMENT_SIZE in

  let v0 := (x a, y a) in
  let v1 := (fadd (x a) (dwidth a), y a) in
  let v2 := (x a, fadd (y a) (dheight a)) in
  let v3 := (fadd (x a) (dwidth a), fadd (y a) (dheight a)) in
  let r := set_vectors (mkVectors v0 v1 v2 v3 (vectors4 (vectors r))) r in

  let r :=
    if negb (fseq (rotateAngle a) (of_Z 0)) then
      let r := set_matrix mat3.identity r in
      let translate := (fadd (x a) (rotateOriginX a), fadd (y a) (rotateOriginY a)) in
      let r := set_matrix (mat3.translate (matrix r) translate) r in
      let r := set_matrix (mat3.rotate (matrix r) (rotateAngle a)) r in
      let translate := (fmul (fst translate) (of_Z (-1)),
                        fmul (snd translate) (of_Z (-1))) in
      let r := set_matrix (mat3.translate (matrix r) translate) r in
      set_vectors
        (mkVectors (vec2.transformMat3 v0 (matrix r))
                   (vec2.transformMat3 v1 (matrix r))
                   (vec2.transformMat3 v2 (matrix r))
                   (vec2.transformMat3 v3 (matrix r))
                   translate) r
    else r in
  let v0 := vectors0 (vectors r) in
  let v1 := vectors1 (vectors r) in
  let v2 := vectors2 (vectors r) in
  let v3 := vectors3 (vectors r) in

  let color := [red (color r); green (color r); blue (color r); alpha (color r)] in

  let imageWidth := of_Z (naturalWidth image) in
  let imageHeight := of_Z (naturalHeight image) in
  let r0 := fdiv (regionX a) imageWidth in
  let r1 := fdiv (regionY a) imageHeight in
  let r2 := fdiv (fadd (regionX a) (regionWidth a)) imageWidth in
  let r3 := fdiv (fadd (regionY a) (regionHeight a)) imageHeight in

  let '(r, unit) := uploadImage image r in

  let s := stream r in
  let s := Float32Array.store (idx0 + VERTEX_ELEMENT + 0) (fst v0) s in
  let s := Float32Array.store (idx0 + VERTEX_ELEMENT + 1) (snd v0) s in
  let s := Float32Array.store (idx1 + VERTEX_ELEMENT + 0) (fst v1) s in
  let s := Float32Array.store (idx1 + VERTEX_ELEMENT + 1) (snd v1) s in
  let s := Float32Array.store (idx2 + VERTEX_ELEMENT + 0) (fst v2) s in
  let s := Float32Array.store (idx2 + VERTEX_ELEMENT + 1) (snd v2) s in
  let s := Float32Array.store (idx3 + VERTEX_ELEMENT + 0) (fst v3) s in
  let s := Float32Array.store (idx3 + VERTEX_ELEMENT + 1) (snd v3) s in

  s ← Float32Array.set color (idx0 + COLOR_ELEMENT) s;
  s ← Float32Array.set color (idx1 + COLOR_ELEMENT) s;
  s ← Float32Array.set color (idx2 + COLOR_ELEMENT) s;
  s ← Float32Array.set color (idx3 + COLOR_ELEMENT) s;

  let s := Float32Array.store (idx0 + REGION_ELEMENT + 0) r0 s in
  let s := Float32Array.store (idx0 + REGION_ELEMENT + 1) r1 s in
  let s := Float32Array.store (idx1 + REGION_ELEMENT + 0) r2 s in
  let s := Float32Array.store (idx1 + REGION_ELEMENT + 1) r1 s in
  let s := Float32Array.store (idx2 + REGION_ELEMENT + 0) r0 s in
  let s := Float32Array.store (idx2 + REGION_ELEMENT + 1) r3 s in
  let s := Float32Array.store (idx3 + REGION_ELEMENT + 0) r2 s in
  let s := Float32Array.store (idx3 + REGION_ELEMENT + 1) r3 s in

  let s := Float32Array.store (idx0 + TEXTURE_ELEMENT) (of_Z unit) s in
  let s := Float32Array.store (idx1 + TEXTURE_ELEMENT) (of_Z unit) s in
  let s := Float32Array.store (idx2 + TEXTURE_ELEMENT) (of_Z unit) s in
  let s := Float32Array.store (idx3 + TEXTURE_ELEMENT) (of_Z unit) s in
  let r := set_stream s r in

  let r := set_sbOffset (sbOffset r + ELEMENT_SIZE * ELEMENTS_PER_QUAD) r in
  Some (set_length (length r + 1) r).

(** The constructor (lines 165-270), for a context on which the
    shader program compiles and links. [reset] and [setProjection]
    run before [nextUnit], [cache], [color], [vectors] and [matrix]
    are assigned and read none of them. *)
Definition new (canvas : Canvas) : t F :=
  let maxTextures := Z.min 24 (MAX_TEXTURE_IMAGE_UNITS canvas) in
  let precision := if HIGH_FLOAT_precision canvas <? 16 then mediump else highp in
  let sbSize := 256 in
  let r :=
    mk 0 maxTextures precision sbSize 0
       (replicate (Z.to_nat (sbSize * ELEMENT_SIZE * ELEMENTS_PER_QUAD)) (of_Z 0))
       mat3.identity
       0 ∅
       (mkColor (of_Z 1) (of_Z 1) (of_Z 1) (of_Z 1))
       (mkVectors (of_Z 0, of_Z 0) (of_Z 0, of_Z 0) (of_Z 0, of_Z 0)
                  (of_Z 0, of_Z 0) (of_Z 0, of_Z 0))
       mat3.identity
       [] in
  let r := call [newShader maxTextures precision; useProgram] r in
  let r := call [createBuffer; bindBuffer ARRAY_BUFFER;
                 bufferData_size ARRAY_BUFFER
                   (MAX_LENGTH * ELEMENT_OFFSET * ELEMENTS_PER_QUAD) STREAM_DRAW] r in
  let r := call [createBuffer; bindBuffer ELEMENT_ARRAY_BUFFER;
                 bufferData_indices ELEMENT_ARRAY_BUFFER createIB STATIC_DRAW] r in
  let r := call [vertexAttribPointer aVertex VERTEX_SIZE ELEMENT_OFFSET VERTEX_OFFSET;
                 vertexAttribPointer aColor COLOR_SIZE ELEMENT_OFFSET COLOR_OFFSET;
                 vertexAttribPointer aRegion REGION_SIZE ELEMENT_OFFSET REGION_OFFSET;
                 vertexAttribPointer aTexture TEXTURE_SIZE ELEMENT_OFFSET TEXTURE_OFFSET] r in
  let r := call [createTexture; bindTexture emptyTexture;
                 texImage2D_pixels 1 1 [255; 0; 0; 255]] r in
  let r := reset r in
  let r := setProjection (of_Z (width canvas)) (of_Z (height canvas)) r in
  let r := setClearColor (of_Z 0) (of_Z 0) (of_Z 0) (of_Z 1) r in
  call [enable_BLEND; blendFunc_ONE_ONE_MINUS_SRC_ALPHA;
        pixelStorei_UNPACK_PREMULTIPLY_ALPHA_WEBGL 1] r.

(** The color computed by the vertex shader (lines 55-61) from the
    [aColor] attribute of a vertex:
    [vColor = vec4(aColor.rgb * aColor.a, aColor.a)]. *)
Definition vColor (aColor : Color F) : Color F :=
  mkColor (fmul (red aColor) (alpha aColor))
          (fmul (green aColor) (alpha aColor))
          (fmul (blue aColor) (alpha aColor))
          (alpha aColor).

(** *** The operations open to the application *)

(** The methods of the class that are not marked [@private], and the
    assignment of the draw color. *)
Inductive Op :=
  | op_setClearColor (r g b a : F)
  | op_setProjection (w h : F)
  | op_uploadImage (image : Image)
  | op_reset
  | op_clear
  | op_flush
  | op_drawImage (image : Image) (a : DrawArgs F)
  | op_setColor (c : Color F).

(** Modelled from the spec: [setColor(r,g,b,a)] is in the spec's
    public surface and missing from the source, where the draw color
    is the plain field [this.color]; it is the assignment of that
    field. *)
Definition setColor (c : Color F) (r : t F) : t F := set_color c r.

Definition exec (o : Op) (r : t F) : option (t F) :=
  match o with
  | op_setClearColor cr cg cb ca => Some (setClearColor cr cg cb ca r)
  | op_setProjection w h => Some (setProjection w h r)
  | op_uploadImage image => Some (fst (uploadImage image r))
  | op_reset => Some (reset r)
  | op_clear => Some (clear r)
  | op_flush => Some (flush r)
  | op_drawImage image a => drawImage image a r
  | op_setColor c => Some (setColor c r)
  end.

(** A run of operations, from left to right. *)
Fixpoint run (os : list Op) (r : t F) : option (t F) :=
  match os with
  | [] => Some r
  | o :: os => r ← exec o r; run os r
  end.

(** The states a program can bring a renderer into. *)
Inductive reachable : t F -> Prop :=
  | reachable_new canvas : reachable (new canvas)
  | reachable_exec o r r' : reachable r -> exec o r = Some r' -> reachable r'.
End Methods.

Arguments Op F : clear implicits.
End Renderer.

(** ** Numbers of the program: IEEE binary64 *)

Module Binary64.

(** An integer as the nearest binary64 number. *)
Definition of_Z (z : Z) : float :=
  SF2Prim (binary_normalize prec emax z 0 false).

(** [Math.fround]: the nearest binary32 number (precision 24, largest
    exponent 128), ties to even; it overflows to an infinity. *)
Definition fround (v : float) : float :=
  match Prim2SF v with
  | S754_finite s m e => SF2Prim (binary_round 24 128 s m e)
  | _ => v
  end.

(** [Math.sin] and [Math.cos] are implementation-approximated in the
    language, and no engine is part of the repository. This instance
    takes the Maclaurin polynomials of degree 21 and 20, without
    argument reduction: about nine digits on [-pi, pi], and not the
    values of any one engine. The properties of a call with an angle
    are proved for every instance of [JSNumber], whatever its sine and
    cosine. The values of the polynomials are used at one angle only,
    2^-30, where they are the binary64 numbers nearest to the sine and
    the cosine: the angle itself and 1. *)
Definition sin (v : float) : float :=
  let q := (v * v)%float in
  (v * (1 - q / 6 * (1 - q / 20 * (1 - q / 42 * (1 - q / 72 * (1 - q / 110 *
   (1 - q / 156 * (1 - q / 210 * (1 - q / 272 * (1 - q / 342 *
   (1 - q / 420)))))))))))%float.

Definition cos (v : float) : float :=
  let q := (v * v)%float in
  (1 - q / 2 * (1 - q / 12 * (1 - q / 30 * (1 - q / 56 * (1 - q / 90 *
   (1 - q / 132 * (1 - q / 182 * (1 - q / 240 * (1 - q / 306 *
   (1 - q / 380))))))))))%float.

#[global] Instance binary64 : JSNumber float := {
  of_Z := of_Z;
  fadd := PrimFloat.add;
  fsub := PrimFloat.sub;
  fmul := PrimFloat.mul;
  fdiv := PrimFloat.div;
  flt := PrimFloat.ltb;
  fseq := PrimFloat.eqb;
  Math_sin := sin;
  Math_cos := cos;
  fround := fround
}.

End Binary64.

(** ** Idealised numbers: the reals *)

Module Ideal.

#[global] Instance reals : JSNumber R := {
  of_Z := IZR;
  fadd := Rplus;
  fsub := Rminus;
  fmul := Rmult;
  fdiv := Rdiv;
  flt := fun a b => if Rlt_dec a b then true else false;
  fseq := fun a b => if Req_dec_T a b then true else false;
  Math_sin := Rtrigo_def.sin;
  Math_cos := Rtrigo_def.cos;
  fround := fun v => v
}.

End Ideal.

(** The laws of exact arithmetic, which the reals have and binary64
    has not. *)
Definition fopp {F : Type} `{JSNumber F} (v : F) : F := fsub (of_Z 0) v.

Class ExactArithmetic (F : Type) `{JSNumber F} : Prop := {
  exact_ring : ring_theory (of_Z 0) (of_Z 1) fadd fmul fsub fopp (@eq F);
  exact_minus_one : of_Z (-1) = fopp (of_Z 1)
}.

(** ** The batch in closed form *)

Section ClosedForm.
Context {F : Type} `{JSNumber F}.

(** The floats of one quad record. *)
Definition QUAD_SIZE : Z := ELEMENT_SIZE * ELEMENTS_PER_QUAD.

(** [drawImage] returns at once when the alpha of the draw color is
    below 1/256. *)
Definition transparent (r : Renderer.t F) : bool :=
  flt (alpha (Renderer.color r)) (fdiv (of_Z 1) (of_Z 256)).

(** One vertex record as the stream holds it: position, color, texture
    region, texture unit, each narrowed to single precision. *)
Definition vertex (p : F * F) (c : Color F) (uv : F * F) (unit : Z) : list F :=
  [fround (fst p); fround (snd p);
   fround (red c); fround (green c); fround (blue c); fround (alpha c);
   fround (fst uv); fround (snd uv);
   fround (of_Z unit)].

(** The normalised texture region of a call: left, top, right, bottom. *)
Definition region (image : Image) (a : DrawArgs F) : F * F * F * F :=
  (fdiv (regionX a) (of_Z (naturalWidth image)),
   fdiv (regionY a) (of_Z (naturalHeight image)),
   fdiv (fadd (regionX a) (regionWidth a)) (of_Z (naturalWidth image)),
   fdiv (fadd (regionY a) (regionHeight a)) (of_Z (naturalHeight image))).

(** The four vertex records of a quad with corners [vs]. *)
Definition quad (vs : Vectors F) (c : Color F) (image : Image) (a : DrawArgs F)
    (unit : Z) : list F :=
  let '(r0, r1, r2, r3) := region image a in
  vertex (vectors0 vs) c (r0, r1) unit ++
  vertex (vectors1 vs) c (r2, r1) unit ++
  vertex (vectors2 vs) c (r0, r3) unit ++
  vertex (vectors3 vs) c (r2, r3) unit.

(** [q] written over the elements of [s] from index [o] on. *)
Definition splice (o : Z) (q s : list F) : list F :=
  take (Z.to_nat o) s ++ q ++ drop (Z.to_nat o + List.length q) s.

(** The automatic flush of a full batch. *)
Definition batch (r : Renderer.t F) : Renderer.t F :=
  if MAX_LENGTH <=? Renderer.length r then Renderer.flush r else r.

(** A stream buffer of twice the capacity, the old elements first. *)
Definition grow (r : Renderer.t F) : Renderer.t F :=
  Renderer.set_stream
    (Renderer.stream r ++ replicate (Z.to_nat (Renderer.sbSize r * QUAD_SIZE)) (of_Z 0))
    (Renderer.set_sbSize (2 * Renderer.sbSize r) r).

Definition room (r : Renderer.t F) : Renderer.t F :=
  if Renderer.sbSize r <=? Renderer.length r then grow r else r.

(** The corners of the destination rectangle, and the matrix and the
    corners after the rotation about the pivot. *)
Definition rectangle (a : DrawArgs F) (translate : F * F) : Vectors F :=
  mkVectors (x a, y a)
            (fadd (x a) (dwidth a), y a)
            (x a, fadd (y a) (dheight a))
            (fadd (x a) (dwidth a), fadd (y a) (dheight a))
            translate.

Definition pivot (a : DrawArgs F) : F * F :=
  (fadd (x a) (rotateOriginX a), fadd (y a) (rotateOriginY a)).

Definition rotation (a : DrawArgs F) : Mat3 F :=
  mat3.translate
    (mat3.rotate (mat3.translate mat3.identity (pivot a)) (rotateAngle a))
    (fmul (fst (pivot a)) (of_Z (-1)), fmul (snd (pivot a)) (of_Z (-1))).

Definition place (a : DrawArgs F) (r : Renderer.t F) : Renderer.t F :=
  if negb (fseq (rotateAngle a) (of_Z 0)) then
    let vs := rectangle a (vectors4 (Renderer.vectors r)) in
    Renderer.set_vectors
      (mkVectors (vec2.transformMat3 (vectors0 vs) (rotation a))
                 (vec2.transformMat3 (vectors1 vs) (rotation a))
                 (vec2.transformMat3 (vectors2 vs) (rotation a))
                 (vec2.transformMat3 (vectors3 vs) (rotation a))
                 (fmul (fst (pivot a)) (of_Z (-1)), fmul (snd (pivot a)) (of_Z (-1))))
      (Renderer.set_matrix (rotation a) r)
  else
    Renderer.set_vectors (rectangle a (vectors4 (Renderer.vectors r))) r.

(** The quad of a call written after the pending ones. *)
Definition emit (image : Image) (a : DrawArgs F) (r : Renderer.t F) : Renderer.t F :=
  let o := Renderer.sbOffset r in
  let '(r', unit) := Renderer.uploadImage image r in
  let r' := Renderer.set_stream
              (splice o (quad (Renderer.vectors r) (Renderer.color r) image a unit)
                      (Renderer.stream r')) r' in
  let r' := Renderer.set_sbOffset (Renderer.sbOffset r' + QUAD_SIZE) r' in
  Renderer.set_length (Renderer.length r' + 1) r'.

Definition write_quad (image : Image) (a : DrawArgs F) (r : Renderer.t F) : Renderer.t F :=
  emit image a (place a (room (batch r))).

(** The stream buffer of a renderer in use: offset and length agree, the
    batch is within the cap and the capacity, the capacity is a power of
    two between 2^8 and 2^14, and the array has that capacity. *)
Record buffer_ok (r : Renderer.t F) : Prop := {
  ok_offset : Renderer.sbOffset r = Renderer.length r * QUAD_SIZE;
  ok_length : 0 <= Renderer.length r <= MAX_LENGTH;
  ok_capacity : Renderer.length r <= Renderer.sbSize r;
  ok_power : exists k, 8 <= k <= 14 /\ Renderer.sbSize r = 2 ^ k;
  ok_stream : Z.of_nat (List.length (Renderer.stream r)) = Renderer.sbSize r * QUAD_SIZE
}.
End ClosedForm.

(** ** Vertex attributes, as the pointers of the constructor lay them out *)

Section Attributes.
Context {F : Type}.

(** [n] elements of the stream from element [i] on. *)
Definition elements (i n : Z) (s : list F) : list F :=
  take (Z.to_nat n) (drop (Z.to_nat i) s).

(** The attributes of vertex number [v]: [vertexAttribPointer] gives
    every attribute the stride [ELEMENT_OFFSET] and its own byte offset,
    that is [ELEMENT_SIZE] floats per vertex and the element offsets
    [VERTEX_ELEMENT], [COLOR_ELEMENT], [REGION_ELEMENT] and
    [TEXTURE_ELEMENT]. *)
Definition attribute_aVertex (s : list F) (v : Z) : list F :=
  elements (v * ELEMENT_SIZE + VERTEX_ELEMENT) VERTEX_SIZE s.
Definition attribute_aColor (s : list F) (v : Z) : list F :=
  elements (v * ELEMENT_SIZE + COLOR_ELEMENT) COLOR_SIZE s.
Definition attribute_aRegion (s : list F) (v : Z) : list F :=
  elements (v * ELEMENT_SIZE + REGION_ELEMENT) REGION_SIZE s.
Definition attribute_aTexture (s : list F) (v : Z) : list F :=
  elements (v * ELEMENT_SIZE + TEXTURE_ELEMENT) TEXTURE_SIZE s.

(** The [k]-th quad record of a stream. *)
Definition quad_at (s : list F) (k : Z) : list F :=
  elements (k * (ELEMENT_SIZE * ELEMENTS_PER_QUAD)) (ELEMENT_SIZE * ELEMENTS_PER_QUAD) s.
End Attributes.

(** ** What the specification expects in the stream *)

Section Expected.
Context {F : Type} `{JSNumber F}.

(** The vertex records of a call without rotation, by the direct
    arithmetic of its inputs: the corners [(x, y)], [(x+w, y)],
    [(x, y+h)], [(x+w, y+h)], the draw color, the region divided by
    the size of the image, and the texture unit. *)
Definition expected_quad (c : Color F) (unit : Z) (image : Image) (a : DrawArgs F) : list F :=
  let u0 := fdiv (regionX a) (of_Z (naturalWidth image)) in
  let v0 := fdiv (regionY a) (of_Z (naturalHeight image)) in
  let u1 := fdiv (fadd (regionX a) (regionWidth a)) (of_Z (naturalWidth image)) in
  let v1 := fdiv (fadd (regionY a) (regionHeight a)) (of_Z (naturalHeight image)) in
  let rgba := [fround (red c); fround (green c); fround (blue c); fround (alpha c)] in
  [fround (x a); fround (y a)] ++ rgba ++ [fround u0; fround v0; fround (of_Z unit)] ++
  [fround (fadd (x a) (dwidth a)); fround (y a)] ++ rgba
    ++ [fround u1; fround v0; fround (of_Z unit)] ++
  [fround (x a); fround (fadd (y a) (dheight a))] ++ rgba
    ++ [fround u0; fround v1; fround (of_Z unit)] ++
  [fround (fadd (x a) (dwidth a)); fround (fadd (y a) (dheight a))] ++ rgba
    ++ [fround u1; fround v1; fround (of_Z unit)].

(** The units of a sequence of images, in first-seen order from the
    next free unit [next]. *)
Fixpoint resolve (cache : gmap nat Z) (next : Z) (images : list Image) : list Z :=
  match images with
  | [] => []
  | image :: images =>
      match cache !! handle image with
      | Some u => u :: resolve cache next images
      | None => next :: resolve (<[handle image := next]> cache) (next + 1) images
      end
  end.

(** The vertex data of a sequence of calls, in call order. *)
Definition expected_stream (c : Color F) (cache : gmap nat Z) (next : Z)
    (calls : list (Image * DrawArgs F)) : list F :=
  concat (zip_with (fun call unit => expected_quad c unit (fst call) (snd call))
                   calls (resolve cache next (map fst calls))).

(** The draw calls of a sequence of [drawImage] calls. *)
Definition draws (calls : list (Image * DrawArgs F)) : list (Renderer.Op F) :=
  map (fun call => Renderer.op_drawImage (fst call) (snd call)) calls.


(** The four corners of the destination rectangle, in winding order. *)
Definition corner (a : DrawArgs F) (j : Z) : F * F :=
  if j =? 0 then (x a, y a)
  else if j =? 1 then (fadd (x a) (dwidth a), y a)
  else if j =? 2 then (x a, fadd (y a) (dheight a))
  else (fadd (x a) (dwidth a), fadd (y a) (dheight a)).

(** The color with its RGB channels multiplied by its alpha. *)
Definition premultiplied (c : Color F) : Color F :=
  mkColor (fmul (red c) (alpha c)) (fmul (green c) (alpha c))
          (fmul (blue c) (alpha c)) (alpha c).

Definition stored (c : Color F) : list F :=
  [fround (red c); fround (green c); fround (blue c); fround (alpha c)].
End Expected.

(** ** Invariants of the reachable states *)

Section Invariants.
Context {F : Type} `{JSNumber F}.

(** The texture-unit cache: the next unit is the number of images
    resolved so far, and the images hold the units below it, one each. *)
Record units_ok (r : Renderer.t F) : Prop := {
  ok_next : Renderer.nextUnit r = Z.of_nat (size (Renderer.cache r));
  ok_units : forall h u, Renderer.cache r !! h = Some u -> 0 <= u < Renderer.nextUnit r;
  ok_distinct : forall h1 h2 u,
      Renderer.cache r !! h1 = Some u -> Renderer.cache r !! h2 = Some u -> h1 = h2
}.

Definition is_draw (c : GLCall F) : bool :=
  match c with drawElements_TRIANGLES _ _ => true | _ => false end.

(** A call that writes the buffer bound to [ELEMENT_ARRAY_BUFFER]. *)
Definition writes_indices (c : GLCall F) : bool :=
  match c with
  | bufferData_size ELEMENT_ARRAY_BUFFER _ _ => true
  | bufferData_indices ELEMENT_ARRAY_BUFFER _ _ => true
  | bufferSubData ELEMENT_ARRAY_BUFFER _ _ => true
  | _ => false
  end.

Definition is_upload (c : GLCall F) : bool :=
  match c with texImage2D _ => true | _ => false end.

(** A draw call within the index table: a positive number of indices,
    at most [MAX_LENGTH * INDICES_PER_QUAD], from index 0. *)
Definition draw_ok (c : GLCall F) : Prop :=
  match c with
  | drawElements_TRIANGLES count offset =>
      0 < count <= MAX_LENGTH * INDICES_PER_QUAD /\ offset = 0
  | _ => True
  end.

Record inv (r : Renderer.t F) : Prop := {
  inv_buffer : buffer_ok r;
  inv_units : units_ok r;
  inv_draws : Forall draw_ok (Renderer.gl r);
  inv_indices :
    filter (fun c => writes_indices c = true) (Renderer.gl r)
    = [bufferData_indices ELEMENT_ARRAY_BUFFER Renderer.createIB STATIC_DRAW]
}.

(** The calls that [uploadImage] makes for an image it has not seen. *)
Definition upload_calls (image : Image) (unit : Z) : list (GLCall F) :=
  [createTexture;
   activeTexture (TEXTURE0 + unit);
   bindTexture (textureOf (handle image));
   texImage2D image;
   texParameteri MIN_FILTER_LINEAR;
   texParameteri WRAP_S_CLAMP_TO_EDGE;
   texParameteri WRAP_T_CLAMP_TO_EDGE].

(** The calls that [flush] makes for a pending batch. *)
Definition flush_calls (r : Renderer.t F) : list (GLCall F) :=
  [bufferSubData ARRAY_BUFFER 0
     (Float32Array.subarray 0 (Renderer.length r * ELEMENT_SIZE * ELEMENTS_PER_QUAD)
        (Renderer.stream r));
   drawElements_TRIANGLES (Renderer.length r * INDICES_PER_QUAD) 0].

(** The calls that [reset] makes. *)
Definition reset_calls (r : Renderer.t F) : list (GLCall F) :=
  uniform1iv_sampler (Renderer.range (Renderer.maxTextures r))
  :: flat_map (fun i => [activeTexture (TEXTURE0 + i); bindTexture emptyTexture])
       (Renderer.range (Renderer.maxTextures r)).

(** The step from [r] to [r'] made draw calls. *)
Definition flushed (r r' : Renderer.t F) : Prop :=
  exists cs, Renderer.gl r' = Renderer.gl r ++ cs /\ existsb is_draw cs = true.

(** The operation writes a quad into a full stream buffer. *)
Definition overflows (o : Renderer.Op F) (r : Renderer.t F) : bool :=
  match o with
  | Renderer.op_drawImage _ _ =>
      negb (transparent r) && (Renderer.sbSize r <=? Renderer.length (batch r))
  | _ => false
  end.
End Invariants.

(** ** Calls of the operations, and two sentences of the specification *)

Section Traces.
Context {F : Type} `{JSNumber F}.

(** The calls that an operation makes on the context in state [r]. *)
Definition emitted (o : Renderer.Op F) (r : Renderer.t F) : list (GLCall F) :=
  match o with
  | Renderer.op_setClearColor cr cg cb ca => [clearColor cr cg cb ca]
  | Renderer.op_setProjection w h =>
      (if 0 <? Renderer.length r then flush_calls r else [])
      ++ [viewport (of_Z 0) (of_Z 0) w h;
          uniformMatrix3fv_matrix
            (mkMat3 (fdiv (of_Z 2) w) (of_Z 0) (of_Z 0)
                    (of_Z 0) (fdiv (of_Z (-2)) h) (of_Z 0)
                    (of_Z (-1)) (of_Z 1) (of_Z 1))]
  | Renderer.op_uploadImage image =>
      match Renderer.cache r !! handle image with
      | Some _ => []
      | None => upload_calls image (Renderer.nextUnit r)
      end
  | Renderer.op_reset => reset_calls r
  | Renderer.op_clear => [clear_COLOR_BUFFER_BIT]
  | Renderer.op_flush => if 0 <? Renderer.length r then flush_calls r else []
  | Renderer.op_drawImage image a =>
      if transparent r then []
      else
        (if MAX_LENGTH <=? Renderer.length r then flush_calls r else [])
        ++ match Renderer.cache r !! handle image with
           | Some _ => []
           | None => upload_calls image (Renderer.nextUnit r)
           end
  | Renderer.op_setColor _ => []
  end.

(** [uploadImage] on a sequence of images: the last state and the units
    returned. *)
Fixpoint uploadImages (images : list Image) (r : Renderer.t F) : Renderer.t F * list Z :=
  match images with
  | [] => (r, [])
  | image :: images =>
      let '(r, unit) := Renderer.uploadImage image r in
      let '(r, units) := uploadImages images r in
      (r, unit :: units)
  end.

(** The specification's sentence on the stored color: every vertex of
    the quad that a call writes holds the draw color with its RGB
    channels multiplied by its alpha. *)
Definition stores_premultiplied (image : Image) (a : DrawArgs F) (r : Renderer.t F) : Prop :=
  forall r',
    Renderer.drawImage image a r = Some r' -> transparent r = false ->
    forall j, 0 <= j < ELEMENTS_PER_QUAD ->
      attribute_aColor (Renderer.stream r') ((Renderer.length r' - 1) * ELEMENTS_PER_QUAD + j)
      = stored (premultiplied (Renderer.color r)).

(** The specification's sentence on the pending length: it becomes 0
    in a step only when the step makes a draw call. *)
Definition zeroed_only_by_flush : Prop :=
  forall (o : Renderer.Op F) (r r' : Renderer.t F),
    Renderer.reachable r -> Renderer.exec o r = Some r' ->
    Renderer.length r <> 0 -> Renderer.length r' = 0 ->
    flushed r r'.

End Traces.

(** The triangulation pattern [{0,1,2,2,1,3}] by position in a quad. *)
Definition pattern (j : Z) : Z :=
  if j =? 0 then 0 else if j =? 1 then 1 else if j =? 2 then 2
  else if j =? 3 then 2 else if j =? 4 then 1 else 3.

(** ** The shader program (index.js, lines 30-159) *)

Module Shader.

(** *** The texture selector of the fragment shader *)

(** One statement of the selector (lines 65-70). [branch_if t s] is
    [if (texture == t) gl_FragColor = texture2D(uSampler[s], vRegion) * vColor;],
    [branch_else_if t s] is the same after [else], and [branch_else s]
    is [else gl_FragColor = texture2D(uSampler[s], vRegion) * vColor;]. *)
Inductive Branch :=
  | branch_if (texture sampler : Z)
  | branch_else_if (texture sampler : Z)
  | branch_else (sampler : Z).

(** [textureSelector]: the statement for unit 0 is pushed, then one for
    each [i] of the loop [for (let i = 1; i < maxTextures - 1; i++)],
    then the closing [else] for unit [maxTextures - 1]. *)
Definition textureSelector (maxTextures : Z) : list Branch :=
  let textureSelector := [branch_if 0 0] in
  let textureSelector :=
    fold_left (fun sel i => sel ++ [branch_else_if i i])
      (Renderer.count_from 1 (Z.to_nat (maxTextures - 1 - 1))) textureSelector in
  textureSelector ++ [branch_else (maxTextures - 1)].

(** The sampler that the joined statements read for the value
    [texture = int(vTexture)]: they form one [if] / [else if] / [else]
    chain, of which the first branch whose test holds is taken. *)
Fixpoint select (sel : list Branch) (texture : Z) : option Z :=
  match sel with
  | [] => None
  | branch_if t s :: sel => if texture =? t then Some s else select sel texture
  | branch_else_if t s :: sel => if texture =? t then Some s else select sel texture
  | branch_else s :: _ => Some s
  end.

(** *** The vertex shader *)

Section VertexShader.
Context {F : Type} `{JSNumber F}.

(** [gl_Position] of the vertex shader (line 56),
    [vec4((uMatrix * vec3(aVertex, 1)).xy, 0, 1)]; the uniform is
    loaded column by column ([uniformMatrix3fv] without transposition). *)
Definition gl_Position (uMatrix : Mat3 F) (aVertex : F * F) : F * F * F * F :=
  let vx := fst aVertex in
  let vy := snd aVertex in
  (fadd (fadd (fmul (m0 uMatrix) vx) (fmul (m3 uMatrix) vy)) (fmul (m6 uMatrix) (of_Z 1)),
   fadd (fadd (fmul (m1 uMatrix) vx) (fmul (m4 uMatrix) vy)) (fmul (m7 uMatrix) (of_Z 1)),
   of_Z 0, of_Z 1).
End VertexShader.

(** *** The methods of the class *)

Inductive ShaderType := VERTEX_SHADER | FRAGMENT_SHADER.

(** The two sources: the vertex shader is a constant text (lines
    41-61); the fragment shader (lines 74-89) has the precision, the
    number of samplers and the texture selector spliced in. *)
Inductive Source :=
  | vertex_source
  | fragment_source (precision : Precision) (maxTextures : Z) (textureSelector : list Branch).

Inductive Uniform := uniform_uMatrix | uniform_uSampler.

(** The calls of the class on the context. The shader and program
    objects are named by their kind: a call on a shader follows the
    [createShader] of that shader. *)
Inductive Call :=
  | gl_createShader (type : ShaderType)
  | gl_shaderSource (source : Source)
  | gl_compileShader
  | gl_getShaderParameter_COMPILE_STATUS
  | gl_getShaderInfoLog
  | gl_createProgram
  | gl_attachShader (type : ShaderType)
  | gl_linkProgram
  | gl_validateProgram
  | gl_getProgramParameter_LINK_STATUS
  | gl_getProgramInfoLog
  | gl_getAttribLocation (a : Attribute)
  | gl_enableVertexAttribArray (a : Attribute)
  | gl_getUniformLocation (u : Uniform).

(** What the context answers to the two status queries. *)
Record Context := mkContext {
  COMPILE_STATUS : Source -> bool;
  LINK_STATUS : bool
}.

(** The two errors that the class throws; the message of each ends
    with the log that the context returns. *)
Inductive Error :=
  | failed_on_shader_compilation (type : ShaderType)
  | failed_on_program_linking.

(** The outcome of a method: the calls it made, and its result or the
    error it threw. A method that throws makes no further call. *)
Definition Outcome (A : Type) : Type := list Call * (Error + A).

Definition bind {A B : Type} (m : Outcome A) (k : A -> Outcome B) : Outcome B :=
  match m with
  | (cs, inl e) => (cs, inl e)
  | (cs, inr v) => let '(cs', v') := k v in (cs ++ cs', v')
  end.

(** [createShader] (lines 113-126). *)
Definition createShader (gl : Context) (type : ShaderType) (source : Source) : Outcome unit :=
  let cs := [gl_createShader type; gl_shaderSource source; gl_compileShader;
             gl_getShaderParameter_COMPILE_STATUS] in
  if negb (COMPILE_STATUS gl source)
  then (cs ++ [gl_getShaderInfoLog], inl (failed_on_shader_compilation type))
  else (cs, inr tt).

(** [createProgram] (lines 133-148). *)
Definition createProgram (gl : Context) : Outcome unit :=
  let cs := [gl_createProgram; gl_attachShader VERTEX_SHADER;
             gl_attachShader FRAGMENT_SHADER; gl_linkProgram; gl_validateProgram;
             gl_getProgramParameter_LINK_STATUS] in
  if negb (LINK_STATUS gl)
  then (cs ++ [gl_getProgramInfoLog], inl failed_on_program_linking)
  else (cs, inr tt).

(** [getAttribute] (lines 153-158). *)
Definition getAttribute (name : Attribute) : Outcome unit :=
  ([gl_getAttribLocation name; gl_enableVertexAttribArray name], inr tt).

(** The constructor (lines 36-105). The call [newShader] in the trace
    of a renderer stands for the calls of a construction that throws
    no error. *)
Definition new (gl : Context) (maxTextures : Z) (precision : Precision) : Outcome unit :=
  bind (createShader gl VERTEX_SHADER vertex_source) (fun _ =>
  let textureSelector := textureSelector maxTextures in
  bind (createShader gl FRAGMENT_SHADER
          (fragment_source precision maxTextures textureSelector)) (fun _ =>
  bind (createProgram gl) (fun _ =>
  bind (getAttribute aVertex) (fun _ =>
  bind (getAttribute aColor) (fun _ =>
  bind (getAttribute aRegion) (fun _ =>
  bind (getAttribute aTexture) (fun _ =>
  ([gl_getUniformLocation uniform_uMatrix; gl_getUniformLocation uniform_uSampler],
   inr tt)))))))).

Definition is_enable (c : Call) : bool :=
  match c with gl_enableVertexAttribArray _ => true | _ => false end.

Definition creates (c : Call) : bool :=
  match c with gl_createShader _ | gl_createProgram => true | _ => false end.
End Shader.

(** ** The second listing of [src/index.js] (lines 543-1022) *)

Module Listing2.
Section Methods.
Context {F : Type} `{JSNumber F}.

(** [drawImage] of the second listing (lines 898-961): no rotation
    parameters, no test of the draw color, the corners in local
    constants instead of [this.vectors]. The other methods that it
    calls read as in the first listing. *)
Definition drawImage (image : Image)
    (x y width height regionX regionY regionWidth regionHeight : F)
    (r : Renderer.t F) : option (Renderer.t F) :=
  let r := if MAX_LENGTH <=? Renderer.length r then Renderer.flush r else r in
  r ← (if Renderer.sbSize r <=? Renderer.length r then Renderer.resizeSB r else Some r);

  let idx0 := Renderer.sbOffset r in
  let idx1 := idx0 + ELEMENT_SIZE in
  let idx2 := idx1 + ELEMENT_SIZE in
  let idx3 := idx2 + ELEMENT_SIZE in

  let x0 := x in
  let y0 := y in
  let x1 := fadd x width in
  let y1 := y in
  let x2 := x in
  let y2 := fadd y height in
  let x3 := fadd x width in
  let y3 := fadd y height in

  let color := [red (Renderer.color r); green (Renderer.color r);
                blue (Renderer.color r); alpha (Renderer.color r)] in

  let imageWidth := of_Z (naturalWidth image) in
  let imageHeight := of_Z (naturalHeight image) in
  let r0 := fdiv regionX imageWidth in
  let r1 := fdiv regionY imageHeight in
  let r2 := fdiv (fadd regionX regionWidth) imageWidth in
  let r3 := fdiv (fadd regionY regionHeight) imageHeight in

  let '(r, unit) := Renderer.uploadImage image r in

  let s := Renderer.stream r in
  let s := Float32Array.store (idx0 + VERTEX_ELEMENT + 0) x0 s in
  let s := Float32Array.store (idx0 + VERTEX_ELEMENT + 1) y0 s in
  let s := Float32Array.store (idx1 + VERTEX_ELEMENT + 0) x1 s in
  let s := Float32Array.store (idx1 + VERTEX_ELEMENT + 1) y1 s in
  let s := Float32Array.store (idx2 + VERTEX_ELEMENT + 0) x2 s in
  let s := Float32Array.store (idx2 + VERTEX_ELEMENT + 1) y2 s in
  let s := Float32Array.store (idx3 + VERTEX_ELEMENT + 0) x3 s in
  let s := Float32Array.store (idx3 + VERTEX_ELEMENT + 1) y3 s in

  s ← Float32Array.set color (idx0 + COLOR_ELEMENT) s;
  s ← Float32Array.set color (idx1 + COLOR_ELEMENT) s;
  s ← Float32Array.set color (idx2 + COLOR_ELEMENT) s;
  s ← Float32Array.set color (idx3 + COLOR_ELEMENT) s;

  let s := Float32Array.store (idx0 + REGION_ELEMENT + 0) r0 s in
  let s := Float32Array.store (idx0 + REGION_ELEMENT + 1) r1 s in
  let s := Float32Array.store (idx1 + REGION_ELEMENT + 0) r2 s in
  let s := Float32Array.store (idx1 + REGION_ELEMENT + 1) r1 s in
  let s := Float32Array.store (idx2 + REGION_ELEMENT + 0) r0 s in
  let s := Float32Array.store (idx2 + REGION_ELEMENT + 1) r3 s in
  let s := Float32Array.store (idx3 + REGION_ELEMENT + 0) r2 s in
  let s := Float32Array.store (idx3 + REGION_ELEMENT + 1) r3 s in

  let s := Float32Array.store (idx0 + TEXTURE_ELEMENT) (of_Z unit) s in
  let s := Float32Array.store (idx1 + TEXTURE_ELEMENT) (of_Z unit) s in
  let s := Float32Array.store (idx2 + TEXTURE_ELEMENT) (of_Z unit) s in
  let s := Float32Array.store (idx3 + TEXTURE_ELEMENT) (of_Z unit) s in
  let r := Renderer.set_stream s r in

  let r := Renderer.set_sbOffset (Renderer.sbOffset r + ELEMENT_SIZE * ELEMENTS_PER_QUAD) r in
  Some (Renderer.set_length (Renderer.length r + 1) r).
End Methods.
End Listing2.

(** ** Batches in the trace *)

Section Submissions.
Context {F : Type} `{JSNumber F}.

(** The calls that move vertex data: the upload into the bound array
    buffer and the indexed draw. *)
Definition is_submission (c : GLCall F) : bool :=
  match c with
  | bufferSubData _ _ _ | drawElements_TRIANGLES _ _ => true
  | _ => false
  end.

(** A trace in which vertex data moves only by whole batches: every
    upload holds [n] quad records, [1 <= n <= MAX_LENGTH], goes to
    offset 0 of the array buffer, and is directly followed by the draw
    of the [n * INDICES_PER_QUAD] indices of those quads; no draw
    stands without its upload. *)
Inductive batched : list (GLCall F) -> Prop :=
  | batched_nil : batched []
  | batched_call cs c :
      batched cs -> is_submission c = false -> batched (cs ++ [c])
  | batched_batch cs data n :
      batched cs -> 0 < n <= MAX_LENGTH ->
      Z.of_nat (List.length data) = n * QUAD_SIZE ->
      batched (cs ++ [bufferSubData ARRAY_BUFFER 0 data;
                      drawElements_TRIANGLES (n * INDICES_PER_QUAD) 0]).

(** The allocations of buffer storage by size. *)
Definition is_allocation (c : GLCall F) : bool :=
  match c with bufferData_size _ _ _ => true | _ => false end.

(** The indices drawn by a sequence of calls. *)
Definition indices_drawn (cs : list (GLCall F)) : Z :=
  fold_right (fun c n => match c with
                         | drawElements_TRIANGLES count _ => count + n
                         | _ => n
                         end) 0 cs.

Definition is_reset (o : Renderer.Op F) : bool :=
  match o with Renderer.op_reset => true | _ => false end.

Definition is_projection (o : Renderer.Op F) : bool :=
  match o with Renderer.op_setProjection _ _ => true | _ => false end.

(** The operation meets a batch that it has to submit: [flush] and
    [setProjection] a pending one, [drawImage] a full one when it is
    going to write a quad. *)
Definition submits (o : Renderer.Op F) (r : Renderer.t F) : bool :=
  match o with
  | Renderer.op_flush | Renderer.op_setProjection _ _ => 0 <? Renderer.length r
  | Renderer.op_drawImage _ _ => negb (transparent r) && (MAX_LENGTH <=? Renderer.length r)
  | _ => false
  end.

(** The operation writes a quad. *)
Definition writes (o : Renderer.Op F) (r : Renderer.t F) : bool :=
  match o with
  | Renderer.op_drawImage _ _ => negb (transparent r)
  | _ => false
  end.

(** The quads written in a run of operations. *)
Fixpoint written (os : list (Renderer.Op F)) (r : Renderer.t F) : Z :=
  match os with
  | [] => 0
  | o :: os =>
      match Renderer.exec o r with
      | Some r' => (if writes o r then 1 else 0) + written os r'
      | None => 0
      end
  end.

(** The image that an operation resolves to a texture unit. *)
Definition resolved (o : Renderer.Op F) (r : Renderer.t F) : option Image :=
  match o with
  | Renderer.op_uploadImage image => Some image
  | Renderer.op_drawImage image _ => if transparent r then None else Some image
  | _ => None
  end.
End Submissions.

(** ** The quad of any call *)

Section Quads.
Context {F : Type} `{JSNumber F}.

(** The texture region of vertex [j] of a quad, in winding order. *)
Definition uv (image : Image) (a : DrawArgs F) (j : Z) : F * F :=
  let '(r0, r1, r2, r3) := region image a in
  if j =? 0 then (r0, r1)
  else if j =? 1 then (r2, r1)
  else if j =? 2 then (r0, r3)
  else (r2, r3).

(** The position of vertex [j] of the quad of a call: the corner, turned
    by the matrix of the call when the angle is not [=== 0]. *)
Definition position (a : DrawArgs F) (j : Z) : F * F :=
  if fseq (rotateAngle a) (of_Z 0) then corner a j
  else vec2.transformMat3 (corner a j) (rotation a).

(** The quad record of a call, rotated or not: its four vertices in
    winding order, each with its position, the draw color, its texture
    region and the unit of the image. *)
Definition written_quad (c : Color F) (unit : Z) (image : Image) (a : DrawArgs F) : list F :=
  vertex (position a 0) c (uv image a 0) unit ++
  vertex (position a 1) c (uv image a 1) unit ++
  vertex (position a 2) c (uv image a 2) unit ++
  vertex (position a 3) c (uv image a 3) unit.

(** The quad records of a sequence of calls, in call order. *)
Definition written_stream (c : Color F) (cache : gmap nat Z) (next : Z)
    (calls : list (Image * DrawArgs F)) : list F :=
  concat (zip_with (fun call unit => written_quad c unit (fst call) (snd call))
                   calls (resolve cache next (map fst calls))).
End Quads.

(** ** The state of the context that the calls leave *)

(** The texture state of a WebGL context: the unit that [activeTexture]
    selected last and the texture bound to [TEXTURE_2D] on each unit. *)
Record Units := mkUnits {
  active : Z;
  bound : gmap Z Texture
}.

Section ContextState.
Context {F : Type} `{JSNumber F}.

(** [activeTexture] selects a unit, [bindTexture] binds a texture on the
    selected unit; no other call of the renderer changes a binding.
    This is a context as far as it has the units that are selected;
    [context_call] below refuses a unit that the context has not. *)
Definition texture_call (s : Units) (c : GLCall F) : Units :=
  match c with
  | activeTexture unit => mkUnits unit (bound s)
  | bindTexture texture => mkUnits (active s) (<[active s := texture]> (bound s))
  | _ => s
  end.

(** The units after a sequence of calls on a new context, on which
    [TEXTURE0] is selected and nothing is bound. *)
Definition texture_units (cs : list (GLCall F)) : Units :=
  fold_left texture_call cs (mkUnits TEXTURE0 ∅).

(** The same on a context that has [combined] texture units
    ([MAX_COMBINED_TEXTURE_IMAGE_UNITS], which is at least
    [MAX_TEXTURE_IMAGE_UNITS]): [activeTexture] with a unit outside
    [TEXTURE0 .. TEXTURE0 + combined - 1] generates [INVALID_ENUM] and
    selects nothing, so that the [bindTexture] after it binds on the
    unit selected before. *)
Definition context_call (combined : Z) (s : Units) (c : GLCall F) : Units :=
  match c with
  | activeTexture unit =>
      if (TEXTURE0 <=? unit) && (unit <? TEXTURE0 + combined)
      then mkUnits unit (bound s)
      else s
  | _ => texture_call s c
  end.

Definition context_units (combined : Z) (cs : list (GLCall F)) : Units :=
  fold_left (context_call combined) cs (mkUnits TEXTURE0 ∅).

(** A call that selects no unit outside the first [n]. *)
Definition selects_below (n : Z) (c : GLCall F) : Prop :=
  match c with
  | activeTexture unit => TEXTURE0 <= unit < TEXTURE0 + n
  | _ => True
  end.

Definition is_texture_call (c : GLCall F) : bool :=
  match c with activeTexture _ | bindTexture _ => true | _ => false end.

(** The bindings agree with the cache: the unit of a resolved image
    holds the texture of that image, and the units of the program that
    no image has got yet hold the placeholder. *)
Definition bound_ok (r : Renderer.t F) : Prop :=
  (forall h u, Renderer.cache r !! h = Some u ->
     bound (texture_units (Renderer.gl r)) !! (TEXTURE0 + u) = Some (textureOf h))
  /\ (forall u, Renderer.nextUnit r <= u < Renderer.maxTextures r ->
        bound (texture_units (Renderer.gl r)) !! (TEXTURE0 + u) = Some emptyTexture).

(** The texture units that the sampler array [uSampler] of the program
    names: the argument of the last [uniform1iv]. *)
Definition sampler_units (cs : list (GLCall F)) : option (list Z) :=
  fold_left (fun s c => match c with uniform1iv_sampler units => Some units | _ => s end)
    cs None.

Definition is_sampler_call (c : GLCall F) : bool :=
  match c with uniform1iv_sampler _ => true | _ => false end.

(** The texture that the fragment shader reads for a quad whose
    [aTexture] attribute is [unit]: the selector picks a sampler, the
    sampler array names a texture unit, the unit holds a texture. *)
Definition texture_sampled (combined : Z) (cs : list (GLCall F)) (maxTextures unit : Z)
    : option Texture :=
  sampler ← Shader.select (Shader.textureSelector maxTextures) unit;
  units ← sampler_units cs;
  i ← units !! Z.to_nat sampler;
  bound (context_units combined cs) !! (TEXTURE0 + i).

(** Every unit below the next one belongs to an image of the cache. *)
Definition units_assigned (r : Renderer.t F) : Prop :=
  forall u, 0 <= u < Renderer.nextUnit r -> exists h, Renderer.cache r !! h = Some u.

(** The projection matrix that the program holds after a sequence of
    calls: the argument of the last [uniformMatrix3fv]. *)
Definition last_matrix (cs : list (GLCall F)) : option (Mat3 F) :=
  fold_left (fun m c => match c with uniformMatrix3fv_matrix m' => Some m' | _ => m end)
    cs None.

Definition is_matrix_call (c : GLCall F) : bool :=
  match c with uniformMatrix3fv_matrix _ => true | _ => false end.

(** The matrix that [setProjection] builds (lines 285-289). *)
Definition projection (w h : F) : Mat3 F :=
  mkMat3 (fdiv (of_Z 2) w) (of_Z 0) (of_Z 0)
         (of_Z 0) (fdiv (of_Z (-2)) h) (of_Z 0)
         (of_Z (-1)) (of_Z 1) (of_Z 1).
End ContextState.

(** A binary64 number that is neither an infinity nor a NaN. *)
Definition finite_float (v : float) : bool :=
  match Prim2SF v with
  | S754_zero _ | S754_finite _ _ _ => true
  | _ => false
  end.

(** ** The vertex layout and the limits of the context *)

Section Layout.
Context {F : Type} `{JSNumber F}.

Definition is_pointer (c : GLCall F) : bool :=
  match c with vertexAttribPointer _ _ _ _ => true | _ => false end.

(** The attribute that the context fetches for vertex [v] through a
    pointer of [size] floats with the byte stride [stride] and the byte
    offset [offset] into an array buffer that holds the floats [s]. *)
Definition fetch (size stride offset : Z) (s : list F) (v : Z) : list F :=
  elements ((v * stride + offset) / BYTES_PER_ELEMENT) size s.

(** What the trace may hold of the limits that the constructor reads:
    the number of samplers and the precision of the shader program, and
    the units of the sampler array. *)
Definition limits_ok (n : Z) (p : Precision) (c : GLCall F) : Prop :=
  match c with
  | newShader n' p' => n' = n /\ p' = p
  | uniform1iv_sampler units => units = Renderer.range n
  | _ => True
  end.
End Layout.

(** ** Concrete inputs *)

Module Example.

(** A 400x300 canvas on a context with 16 texture units and 23 bits of
    fragment precision. *)
Definition canvas : Canvas := mkCanvas 400 300 16 23.

(** Two images: 100x100 and 50x50. *)
Definition image : Image := mkImage 1 100 100.
Definition move : Image := mkImage 2 50 50.

(** The renderer after construction, on binary64 numbers. *)
Definition fresh : Renderer.t float := Renderer.new canvas.

(** [drawImage(image, 0, 0, 100, 100, 25, 25, 50, 50)]. *)
Definition region_call : DrawArgs float :=
  Renderer.defaults 0%float 0%float 100%float 100%float
    25%float 25%float 50%float 50%float.

(** The draw colors (1, 0, 0, 0.5) and (1, 1, 1, 0). *)
Definition half_red : Color float := mkColor 1%float 0%float 0%float 0.5%float.
Definition clear_white : Color float := mkColor 1%float 1%float 1%float 0%float.

(** The renderer on ideal numbers, and a call turned by one radian
    about the centre of its rectangle. *)
Definition ideal : Renderer.t R := Renderer.new canvas.

Definition turned_call : DrawArgs R :=
  mkDrawArgs 150%R 100%R 100%R 100%R 0%R 0%R 100%R 100%R 1%R 50%R 50%R.



End Example.

(** * Properties *)

(** ** Stores into a typed array *)

Section ArrayFacts.
Context {F : Type} `{JSNumber F}.

Lemma store_mid (pre X post : list F) (o k i : Z) (v : F) :
  Z.of_nat (List.length pre) = o ->
  0 <= k < Z.of_nat (List.length X) ->
  i = o + k ->
  Float32Array.store i v (pre ++ X ++ post)
  = pre ++ <[Z.to_nat k := fround v]> X ++ post.
Proof.
  intros Hpre Hk ->. unfold Float32Array.store.
  rewrite !length_app.
  replace ((0 <=? o + k) && (o + k <? Z.of_nat (List.length pre + (List.length X + List.length post))))
    with true by (symmetry; apply andb_true_iff; split; [apply Z.leb_le | apply Z.ltb_lt]; lia).
  replace (Z.to_nat (o + k)) with (List.length pre + Z.to_nat k)%nat by lia.
  rewrite insert_app_r. f_equal.
  apply insert_app_l. lia.
Qed.

Lemma set_mid (pre X post src : list F) (o k i : Z) :
  Z.of_nat (List.length pre) = o ->
  0 <= k -> k + Z.of_nat (List.length src) <= Z.of_nat (List.length X) ->
  i = o + k ->
  Float32Array.set src i (pre ++ X ++ post)
  = Some (pre ++ (take (Z.to_nat k) X ++ map fround src
                  ++ drop (Z.to_nat k + List.length src) X) ++ post).
Proof.
  intros Hpre Hk Hfit ->. unfold Float32Array.set.
  rewrite !length_app.
  replace ((0 <=? o + k) && (o + k + Z.of_nat (List.length src)
             <=? Z.of_nat (List.length pre + (List.length X + List.length post))))
    with true by (symmetry; apply andb_true_iff; split; apply Z.leb_le; lia).
  f_equal.
  replace (Z.to_nat (o + k)) with (List.length pre + Z.to_nat k)%nat by lia.
  rewrite take_app_add'; [|done].
  rewrite <- (Nat.add_assoc (List.length pre)).
  rewrite drop_app_add'; [|done].
  rewrite take_app_le by lia.
  rewrite drop_app_le by lia.
  by rewrite <- !app_assoc.
Qed.

Lemma splice_mid (pre X post q : list F) (o : Z) :
  Z.of_nat (List.length pre) = o ->
  List.length X = List.length q ->
  splice o q (pre ++ X ++ post) = pre ++ q ++ post.
Proof.
  intros Hpre HX. unfold splice.
  replace (Z.to_nat o) with (List.length pre) by lia.
  rewrite take_app_length. f_equal. f_equal.
  rewrite drop_app_add'; [|done]. rewrite <- HX. by rewrite drop_app_length.
Qed.

Lemma split_at (s : list F) (o n : Z) :
  0 <= o -> 0 <= n -> o + n <= Z.of_nat (List.length s) ->
  exists pre X post, s = pre ++ X ++ post
    /\ Z.of_nat (List.length pre) = o /\ Z.of_nat (List.length X) = n.
Proof.
  intros Ho Hn Hfit.
  exists (take (Z.to_nat o) s), (take (Z.to_nat n) (drop (Z.to_nat o) s)),
    (drop (Z.to_nat n) (drop (Z.to_nat o) s)).
  rewrite !take_drop. rewrite !length_take, length_drop. repeat split; lia.
Qed.

Lemma store_tail (pre l : list F) (o k i : Z) (v : F) :
  Z.of_nat (List.length pre) = o ->
  0 <= k < Z.of_nat (List.length l) ->
  i = o + k ->
  Float32Array.store i v (pre ++ l) = pre ++ <[Z.to_nat k := fround v]> l.
Proof.
  intros Hpre Hk Hi.
  rewrite <- (app_nil_r l) at 1. rewrite (store_mid pre l [] o k i v); auto.
  by rewrite app_nil_r.
Qed.

Lemma set_tail (pre l src : list F) (o k i : Z) :
  Z.of_nat (List.length pre) = o ->
  0 <= k -> k + Z.of_nat (List.length src) <= Z.of_nat (List.length l) ->
  i = o + k ->
  Float32Array.set src i (pre ++ l)
  = Some (pre ++ take (Z.to_nat k) l ++ map fround src
              ++ drop (Z.to_nat k + List.length src) l).
Proof.
  intros Hpre Hk Hfit Hi.
  rewrite <- (app_nil_r l) at 1. rewrite (set_mid pre l [] src o k i); auto.
  by rewrite app_nil_r.
Qed.
End ArrayFacts.

(** ** The stores of one [drawImage] call write one quad record *)

Section QuadStores.
Context {F : Type} `{JSNumber F}.

Ltac mid_index o i :=
  let e := eval pattern o in i in
  lazymatch e with
  | ?f _ => let k := eval vm_compute in (f 0) in k
  end.

Ltac store_step o :=
  match goal with
  | |- context [Float32Array.store ?i ?v (?pre ++ ?l)] =>
      let k := mid_index o i in
      rewrite (store_tail pre l o k i v) by (simpl; lia); simpl
  | |- context [Float32Array.set ?src ?i (?pre ++ ?l)] =>
      let k := mid_index o i in
      rewrite (set_tail pre l src o k i) by (simpl; lia); simpl
  end.

Lemma quad_stores {A : Type} (K : list F -> option A) (s : list F) (o : Z)
    (v0 v1 v2 v3 : F * F) (cr cg cb ca r0 r1 r2 r3 : F) (unit : Z) :
  0 <= o -> o + QUAD_SIZE <= Z.of_nat (List.length s) ->
  (let idx0 := o in
   let idx1 := idx0 + ELEMENT_SIZE in
   let idx2 := idx1 + ELEMENT_SIZE in
   let idx3 := idx2 + ELEMENT_SIZE in
   let color := [cr; cg; cb; ca] in
    let s := Float32Array.store (idx0 + VERTEX_ELEMENT + 0) (fst v0) s in
    let s := Float32Array.store (idx0 + VERTEX_ELEMENT + 1) (snd v0) s in
    let s := Float32Array.store (idx1 + VERTEX_ELEMENT + 0) (fst v1) s in
    let s := Float32Array.store (idx1 + VERTEX_ELEMENT + 1) (snd v1) s in
    let s := Float32Array.store (idx2 + VERTEX_ELEMENT + 0) (fst v2) s in
    let s := Float32Array.store (idx2 + VERTEX_ELEMENT + 1) (snd v2) s in
    let s := Float32Array.store (idx3 + VERTEX_ELEMENT + 0) (fst v3) s in
    let s := Float32Array.store (idx3 + VERTEX_ELEMENT + 1) (snd v3) s in
    s ← Float32Array.set color (idx0 + COLOR_ELEMENT) s;
    s ← Float32Array.set color (idx1 + COLOR_ELEMENT) s;
    s ← Float32Array.set color (idx2 + COLOR_ELEMENT) s;
    s ← Float32Array.set color (idx3 + COLOR_ELEMENT) s;
    let s := Float32Array.store (idx0 + REGION_ELEMENT + 0) r0 s in
    let s := Float32Array.store (idx0 + REGION_ELEMENT + 1) r1 s in
    let s := Float32Array.store (idx1 + REGION_ELEMENT + 0) r2 s in
    let s := Float32Array.store (idx1 + REGION_ELEMENT + 1) r1 s in
    let s := Float32Array.store (idx2 + REGION_ELEMENT + 0) r0 s in
    let s := Float32Array.store (idx2 + REGION_ELEMENT + 1) r3 s in
    let s := Float32Array.store (idx3 + REGION_ELEMENT + 0) r2 s in
    let s := Float32Array.store (idx3 + REGION_ELEMENT + 1) r3 s in
    let s := Float32Array.store (idx0 + TEXTURE_ELEMENT) (of_Z unit) s in
    let s := Float32Array.store (idx1 + TEXTURE_ELEMENT) (of_Z unit) s in
    let s := Float32Array.store (idx2 + TEXTURE_ELEMENT) (of_Z unit) s in
    let s := Float32Array.store (idx3 + TEXTURE_ELEMENT) (of_Z unit) s in
    K s)
  = K (splice o (vertex v0 (mkColor cr cg cb ca) (r0, r1) unit ++
                    vertex v1 (mkColor cr cg cb ca) (r2, r1) unit ++
                    vertex v2 (mkColor cr cg cb ca) (r0, r3) unit ++
                    vertex v3 (mkColor cr cg cb ca) (r2, r3) unit) s).
Proof.
  intros Ho Hfit.
  destruct (split_at s o QUAD_SIZE) as (pre & X & post & -> & Hpre & HX);
    [lia | unfold QUAD_SIZE; unfold_consts; lia | lia |].
  do 37 (destruct X as [|? X]; [unfold QUAD_SIZE in HX; unfold_consts; simpl in HX; try lia|]);
   [| exfalso; unfold QUAD_SIZE in HX; unfold_consts; simpl in HX; lia].
  rewrite splice_mid by (first [exact Hpre | reflexivity]).
  cbv zeta. unfold_consts.
  do 24 (store_step o).
  reflexivity.
Qed.
End QuadStores.

(** ** [drawImage] in closed form *)

Section Buffer.
Context {F : Type} `{JSNumber F}.
Implicit Types r : Renderer.t F.

Lemma QUAD_SIZE_36 : QUAD_SIZE = 36.
Proof. reflexivity. Qed.

Lemma flush_pending r :
  0 < Renderer.length r ->
  Renderer.flush r =
    Renderer.set_length 0 (Renderer.set_sbOffset 0
      (Renderer.call
         [bufferSubData ARRAY_BUFFER 0
            (Float32Array.subarray 0 (Renderer.length r * ELEMENT_SIZE * ELEMENTS_PER_QUAD)
               (Renderer.stream r));
          drawElements_TRIANGLES (Renderer.length r * INDICES_PER_QUAD) 0] r)).
Proof.
  intros Hlen. unfold Renderer.flush.
  destruct (0 <? Renderer.length r) eqn:E; [reflexivity | apply Z.ltb_ge in E; lia].
Qed.

Lemma flush_empty r : Renderer.length r <= 0 -> Renderer.flush r = r.
Proof.
  intros Hlen. unfold Renderer.flush.
  destruct (0 <? Renderer.length r) eqn:E; [apply Z.ltb_lt in E; lia | reflexivity].
Qed.

Lemma flush_ok r : buffer_ok r -> buffer_ok (Renderer.flush r).
Proof.
  intros [Ho Hl Hc Hp Hs].
  destruct (Z.lt_ge_cases 0 (Renderer.length r)) as [Hpos | Hzero].
  - rewrite flush_pending by done.
    destruct Hp as (k & Hk & Hp).
    assert (0 < 2 ^ k) by (apply Z.pow_pos_nonneg; lia).
    split; simpl; try done; try lia. by exists k.
  - rewrite flush_empty by done. by split.
Qed.

Lemma batch_ok r :
  buffer_ok r -> buffer_ok (batch r) /\ Renderer.length (batch r) < MAX_LENGTH.
Proof.
  intros Hok. unfold batch.
  destruct (MAX_LENGTH <=? Renderer.length r) eqn:E.
  - apply Z.leb_le in E. split; [by apply flush_ok |].
    rewrite flush_pending by (unfold MAX_LENGTH in E; lia). simpl. by unfold MAX_LENGTH.
  - apply Z.leb_gt in E. by split.
Qed.

Lemma shl_double (n k : Z) : 0 <= k <= 29 -> n = 2 ^ k -> shl n 1 = 2 * n.
Proof.
  intros Hk ->. unfold shl, ToInt32.
  assert (0 < 2 ^ k) by (apply Z.pow_pos_nonneg; lia).
  assert (2 ^ k <= 2 ^ 29) by (apply Z.pow_le_mono_r; lia).
  change (2 ^ 29) with 536870912 in *.
  change (2 ^ 31) with 2147483648. change (2 ^ 32) with 4294967296.
  change (1 mod 32) with 1.
  rewrite (Z.mod_small (2 ^ k + 2147483648)) by lia.
  rewrite Z.shiftl_mul_pow2 by lia. change (2 ^ 1) with 2.
  rewrite Z.mod_small by lia. lia.
Qed.

Lemma resizeSB_grow r :
  buffer_ok r -> Renderer.resizeSB r = Some (grow r).
Proof.
  intros [Ho Hl Hc (k & Hk & Hp) Hs]. unfold Renderer.resizeSB, grow.
  rewrite (shl_double _ k) by (first [lia | done]).
  cbn [Renderer.sbSize Renderer.set_sbSize Renderer.stream].
  assert (0 < Renderer.sbSize r) by (rewrite Hp; apply Z.pow_pos_nonneg; lia).
  unfold Float32Array.of_length.
  fold QUAD_SIZE. rewrite <- Z.mul_assoc. fold QUAD_SIZE. rewrite QUAD_SIZE_36 in *.
  destruct (2 * Renderer.sbSize r * 36 <? 0) eqn:E; [apply Z.ltb_lt in E; lia |].
  cbn [mbind option_bind]. unfold Float32Array.set_typed.
  rewrite length_replicate.
  destruct (_ <=? _) eqn:E2; [| apply Z.leb_gt in E2; lia].
  cbn [mbind option_bind]. do 2 f_equal. f_equal.
  rewrite drop_replicate. f_equal. lia.
Qed.

Lemma grow_ok r :
  buffer_ok r -> Renderer.length r < MAX_LENGTH -> Renderer.sbSize r <= Renderer.length r ->
  buffer_ok (grow r).
Proof.
  intros [Ho Hl Hc (k & Hk & Hp) Hs] Hmax Hfull.
  assert (k <= 13).
  { destruct (Z.le_gt_cases k 13) as [|Hgt]; [done|].
    assert (2 ^ 14 <= 2 ^ k) by (apply Z.pow_le_mono_r; lia).
    change (2 ^ 14) with 16384 in *. unfold MAX_LENGTH in *. lia. }
  split; simpl; try done; try lia.
  - exists (k + 1). split; [lia|]. rewrite Hp, Z.pow_add_r by lia. lia.
  - rewrite length_app, length_replicate. rewrite QUAD_SIZE_36 in *.
    assert (0 < Renderer.sbSize r) by (rewrite Hp; apply Z.pow_pos_nonneg; lia). lia.
Qed.

Lemma room_ok r :
  buffer_ok r -> Renderer.length r < MAX_LENGTH ->
  buffer_ok (room r) /\ Renderer.length (room r) < Renderer.sbSize (room r)
  /\ Renderer.length (room r) = Renderer.length r.
Proof.
  intros Hok Hmax. unfold room.
  destruct (Renderer.sbSize r <=? Renderer.length r) eqn:E.
  - apply Z.leb_le in E. split; [by apply grow_ok|]. simpl.
    destruct Hok as [Ho Hl Hc (k & Hk & Hp) Hs].
    assert (0 < Renderer.sbSize r) by (rewrite Hp; apply Z.pow_pos_nonneg; lia). lia.
  - apply Z.leb_gt in E. split; [done | lia].
Qed.

Lemma room_resize r :
  buffer_ok r ->
  (if Renderer.sbSize r <=? Renderer.length r then Renderer.resizeSB r else Some r)
  = Some (room r).
Proof.
  intros Hok. unfold room. destruct (_ <=? _); [by apply resizeSB_grow | done].
Qed.

Lemma uploadImage_buffer image r :
  let r' := fst (Renderer.uploadImage image r) in
  Renderer.length r' = Renderer.length r /\ Renderer.sbSize r' = Renderer.sbSize r
  /\ Renderer.sbOffset r' = Renderer.sbOffset r /\ Renderer.stream r' = Renderer.stream r
  /\ Renderer.color r' = Renderer.color r /\ Renderer.vectors r' = Renderer.vectors r
  /\ Renderer.matrix r' = Renderer.matrix r /\ Renderer.maxTextures r' = Renderer.maxTextures r.
Proof.
  unfold Renderer.uploadImage. destruct (Renderer.cache r !! handle image); simpl; tauto.
Qed.

Lemma place_buffer a r :
  Renderer.length (place a r) = Renderer.length r /\ Renderer.sbSize (place a r) = Renderer.sbSize r
  /\ Renderer.sbOffset (place a r) = Renderer.sbOffset r /\ Renderer.stream (place a r) = Renderer.stream r
  /\ Renderer.color (place a r) = Renderer.color r /\ Renderer.gl (place a r) = Renderer.gl r
  /\ Renderer.cache (place a r) = Renderer.cache r /\ Renderer.nextUnit (place a r) = Renderer.nextUnit r
  /\ Renderer.maxTextures (place a r) = Renderer.maxTextures r.
Proof. unfold place. destruct (negb _); simpl; tauto. Qed.

Theorem drawImage_eq image a r :
  buffer_ok r -> transparent r = false ->
  Renderer.drawImage image a r = Some (write_quad image a r).
Proof.
  intros Hok Hvis. unfold Renderer.drawImage.
  unfold transparent in Hvis. rewrite Hvis.
  change (if MAX_LENGTH <=? Renderer.length r then Renderer.flush r else r) with (batch r).
  destruct (batch_ok r Hok) as [Hok1 Hmax].
  rewrite (room_resize _ Hok1). cbn [mbind option_bind].
  destruct (room_ok _ Hok1 Hmax) as (Hok2 & Hfree & _).
  unfold write_quad. set (r2 := room (batch r)) in *.
  match goal with
  | |- context [Renderer.uploadImage image ?r3] => change r3 with (place a r2)
  end.
  unfold emit.
  pose proof (uploadImage_buffer image (place a r2)) as Hup.
  destruct (Renderer.uploadImage image (place a r2)) as [r4 unit].
  cbn [fst] in Hup. destruct Hup as (Hl4 & Hsz4 & Ho4 & Hs4 & _).
  destruct (place_buffer a r2) as (Hl3 & Hsz3 & Ho3 & Hs3 & Hc3 & _).
  destruct Hok2 as [Ho2 Hl2 Hc2 Hp2 Hst2].
  pose proof (quad_stores
                (fun s =>
                   let r := Renderer.set_stream s r4 in
                   let r := Renderer.set_sbOffset
                              (Renderer.sbOffset r + ELEMENT_SIZE * ELEMENTS_PER_QUAD) r in
                   Some (Renderer.set_length (Renderer.length r + 1) r))
                (Renderer.stream r4) (Renderer.sbOffset r2)
                (vectors0 (Renderer.vectors (place a r2)))
                (vectors1 (Renderer.vectors (place a r2)))
                (vectors2 (Renderer.vectors (place a r2)))
                (vectors3 (Renderer.vectors (place a r2)))
                (red (Renderer.color (place a r2))) (green (Renderer.color (place a r2)))
                (blue (Renderer.color (place a r2))) (alpha (Renderer.color (place a r2)))
                (fdiv (regionX a) (of_Z (naturalWidth image)))
                (fdiv (regionY a) (of_Z (naturalHeight image)))
                (fdiv (fadd (regionX a) (regionWidth a)) (of_Z (naturalWidth image)))
                (fdiv (fadd (regionY a) (regionHeight a)) (of_Z (naturalHeight image)))
                unit) as Hq.
  etransitivity; [apply Hq; rewrite ?Hs4, ?Hs3; rewrite QUAD_SIZE_36 in *; lia |].
  rewrite Ho3. reflexivity.
Qed.
End Buffer.

(** ** The index table *)

Lemma length_count_from (i : Z) (n : nat) : List.length (Renderer.count_from i n) = n.
Proof. revert i. induction n as [|n IH]; intros i; simpl; [done | by rewrite IH]. Qed.

Lemma lookup_count_from (i : Z) (n k : nat) :
  (k < n)%nat -> Renderer.count_from i n !! k = Some (i + Z.of_nat k).
Proof.
  revert i k. induction n as [|n IH]; intros i k Hk; [lia|].
  destruct k as [|k]; simpl.
  - f_equal. lia.
  - rewrite IH by lia. f_equal. lia.
Qed.

Lemma length_range (n : Z) : List.length (Renderer.range n) = Z.to_nat n.
Proof. apply length_count_from. Qed.

Lemma lookup_range (n i : Z) :
  0 <= i < n -> Renderer.range n !! Z.to_nat i = Some i.
Proof.
  intros Hi. unfold Renderer.range. rewrite lookup_count_from by lia. f_equal. lia.
Qed.

Lemma lnot_lnot (n : Z) : Z.lnot (Z.lnot n) = n.
Proof. apply Z.lnot_involutive. Qed.

Lemma ToInt32_small (n : Z) : - 2 ^ 31 <= n < 2 ^ 31 -> ToInt32 n = n.
Proof.
  intros Hn. unfold ToInt32. change (2 ^ 31) with 2147483648 in *.
  change (2 ^ 32) with 4294967296. rewrite Z.mod_small; lia.
Qed.

Lemma indices_pattern (j : Z) :
  0 <= j < 6 -> default 0 (Renderer.indices !! Z.to_nat j) = pattern j.
Proof.
  intros Hj.
  assert (j = 0 \/ j = 1 \/ j = 2 \/ j = 3 \/ j = 4 \/ j = 5) as Hc by lia.
  destruct Hc as [-> | [-> | [-> | [-> | [-> | ->]]]]]; reflexivity.
Qed.

Lemma pattern_range (j : Z) : 0 <= pattern j <= 3.
Proof. unfold pattern. repeat (destruct (_ =? _)); lia. Qed.

Lemma length_createIB :
  Z.of_nat (List.length Renderer.createIB) = MAX_LENGTH * INDICES_PER_QUAD.
Proof.
  unfold Renderer.createIB. cbv zeta. rewrite !length_map, length_range.
  unfold MAX_LENGTH, INDICES_PER_QUAD. lia.
Qed.

Lemma lookup_createIB (i : Z) :
  0 <= i < MAX_LENGTH * INDICES_PER_QUAD ->
  Renderer.createIB !! Z.to_nat i
  = Some (pattern (i mod INDICES_PER_QUAD) + i / INDICES_PER_QUAD * ELEMENTS_PER_QUAD).
Proof.
  intros Hi. unfold Renderer.createIB. cbv zeta.
  rewrite !list_lookup_fmap, lookup_range by done. simpl. f_equal.
  unfold MAX_LENGTH, INDICES_PER_QUAD, ELEMENTS_PER_QUAD in *.
  assert (0 <= i mod 6 < 6) by (apply Z.mod_pos_bound; lia).
  assert (0 <= i / 6 < 16000).
  { split; [apply Z.div_pos; lia | apply Z.div_lt_upper_bound; lia]. }
  rewrite indices_pattern by done.
  rewrite Z.quot_div_nonneg by lia.
  rewrite ToInt32_small by (change (2 ^ 31) with 2147483648; lia).
  rewrite lnot_lnot.
  pose proof (pattern_range (i mod 6)).
  unfold ToUint16. change (2 ^ 16) with 65536. rewrite Z.mod_small; lia.
Qed.

(** ** The operations in normal form *)

Section Operations.
Context {F : Type} `{JSNumber F}.
Implicit Types r : Renderer.t F.

(** *** Calls on the context *)

Lemma call_nil r : Renderer.call [] r = r.
Proof. destruct r. unfold Renderer.call. simpl. by rewrite app_nil_r. Qed.

Lemma call_call cs cs' r :
  Renderer.call cs (Renderer.call cs' r) = Renderer.call (cs' ++ cs) r.
Proof. unfold Renderer.call. simpl. by rewrite app_assoc. Qed.

Lemma fold_calls (f : Z -> list (GLCall F)) (l : list Z) r :
  fold_left (fun r i => Renderer.call (f i) r) l r = Renderer.call (flat_map f l) r.
Proof.
  revert r. induction l as [|i l IH]; intros r; simpl.
  - by rewrite call_nil.
  - by rewrite IH, call_call.
Qed.

Lemma reset_eq r :
  Renderer.reset r
  = Renderer.call (reset_calls r) (Renderer.set_length 0 (Renderer.set_sbOffset 0 r)).
Proof.
  unfold Renderer.reset, reset_calls. cbv zeta. rewrite fold_calls, call_call. reflexivity.
Qed.

Lemma flush_eq r :
  Renderer.flush r
  = if 0 <? Renderer.length r
    then Renderer.set_length 0 (Renderer.set_sbOffset 0 (Renderer.call (flush_calls r) r))
    else r.
Proof. reflexivity. Qed.

Lemma subarray_prefix (n : Z) (s : list F) :
  Float32Array.subarray 0 n s = take (Z.to_nat n) s.
Proof. reflexivity. Qed.

(** *** The trace of every operation extends the trace before it *)

Lemma flush_gl r :
  Renderer.gl (Renderer.flush r)
  = Renderer.gl r ++ (if 0 <? Renderer.length r then flush_calls r else []).
Proof. rewrite flush_eq. destruct (0 <? _); simpl; [done | by rewrite app_nil_r]. Qed.

Lemma flush_frame r :
  Renderer.sbSize (Renderer.flush r) = Renderer.sbSize r
  /\ Renderer.stream (Renderer.flush r) = Renderer.stream r
  /\ Renderer.cache (Renderer.flush r) = Renderer.cache r
  /\ Renderer.nextUnit (Renderer.flush r) = Renderer.nextUnit r
  /\ Renderer.color (Renderer.flush r) = Renderer.color r
  /\ Renderer.maxTextures (Renderer.flush r) = Renderer.maxTextures r.
Proof. rewrite flush_eq. destruct (0 <? _); simpl; tauto. Qed.

Lemma batch_frame r :
  Renderer.sbSize (batch r) = Renderer.sbSize r
  /\ Renderer.stream (batch r) = Renderer.stream r
  /\ Renderer.cache (batch r) = Renderer.cache r
  /\ Renderer.nextUnit (batch r) = Renderer.nextUnit r
  /\ Renderer.color (batch r) = Renderer.color r
  /\ Renderer.maxTextures (batch r) = Renderer.maxTextures r.
Proof. unfold batch. destruct (_ <=? _); [apply flush_frame | tauto]. Qed.

Lemma batch_gl r :
  buffer_ok r ->
  Renderer.gl (batch r)
  = Renderer.gl r ++ (if MAX_LENGTH <=? Renderer.length r then flush_calls r else []).
Proof.
  intros Hok. unfold batch. destruct (MAX_LENGTH <=? Renderer.length r) eqn:E.
  - apply Z.leb_le in E. rewrite flush_gl.
    destruct (0 <? _) eqn:E'; [done | apply Z.ltb_ge in E'; unfold MAX_LENGTH in E; lia].
  - by rewrite app_nil_r.
Qed.

Lemma room_frame r :
  Renderer.length (room r) = Renderer.length r
  /\ Renderer.sbOffset (room r) = Renderer.sbOffset r
  /\ Renderer.cache (room r) = Renderer.cache r
  /\ Renderer.nextUnit (room r) = Renderer.nextUnit r
  /\ Renderer.color (room r) = Renderer.color r
  /\ Renderer.gl (room r) = Renderer.gl r
  /\ Renderer.maxTextures (room r) = Renderer.maxTextures r.
Proof. unfold room. destruct (_ <=? _); simpl; tauto. Qed.

Lemma uploadImage_eq image r :
  Renderer.uploadImage image r
  = match Renderer.cache r !! handle image with
    | Some u => (r, u)
    | None =>
        (Renderer.set_cache (<[handle image := Renderer.nextUnit r]> (Renderer.cache r))
           (Renderer.call (upload_calls image (Renderer.nextUnit r))
              (Renderer.set_nextUnit (Renderer.nextUnit r + 1) r)),
         Renderer.nextUnit r)
    end.
Proof. reflexivity. Qed.

Lemma uploadImage_gl image r :
  Renderer.gl (fst (Renderer.uploadImage image r))
  = Renderer.gl r ++ match Renderer.cache r !! handle image with
                     | Some _ => []
                     | None => upload_calls image (Renderer.nextUnit r)
                     end.
Proof.
  rewrite uploadImage_eq. destruct (_ !! _); simpl; [by rewrite app_nil_r | done].
Qed.

(** *** The fields of the state after a quad is written *)

Lemma length_vertex p c uv u : List.length (vertex p c uv u) = 9%nat.
Proof. reflexivity. Qed.

Lemma length_quad vs c image a u : List.length (quad vs c image a u) = 36%nat.
Proof. reflexivity. Qed.

Lemma length_splice o (q s : list F) :
  0 <= o -> o + Z.of_nat (List.length q) <= Z.of_nat (List.length s) ->
  List.length (splice o q s) = List.length s.
Proof.
  intros Ho Hfit. unfold splice.
  rewrite !length_app, length_take, length_drop. lia.
Qed.

Lemma take_splice o (q s : list F) :
  0 <= o -> o + Z.of_nat (List.length q) <= Z.of_nat (List.length s) ->
  take (Z.to_nat o + List.length q) (splice o q s) = take (Z.to_nat o) s ++ q.
Proof.
  intros Ho Hfit. unfold splice. rewrite app_assoc.
  rewrite take_app_length'; [done|].
  rewrite length_app, length_take. lia.
Qed.

Lemma take_before_splice o (q s : list F) (n : nat) :
  0 <= o -> (n <= Z.to_nat o)%nat -> (Z.to_nat o <= List.length s)%nat ->
  take n (splice o q s) = take n s.
Proof.
  intros Ho Hn Hfit. unfold splice.
  rewrite take_app_le by (rewrite length_take; lia).
  rewrite take_take. f_equal. lia.
Qed.

Lemma emit_fields image a r :
  let r' := emit image a r in
  let u := snd (Renderer.uploadImage image r) in
  Renderer.length r' = Renderer.length r + 1
  /\ Renderer.sbOffset r' = Renderer.sbOffset r + QUAD_SIZE
  /\ Renderer.sbSize r' = Renderer.sbSize r
  /\ Renderer.stream r'
     = splice (Renderer.sbOffset r)
         (quad (Renderer.vectors r) (Renderer.color r) image a u) (Renderer.stream r)
  /\ Renderer.color r' = Renderer.color r
  /\ Renderer.maxTextures r' = Renderer.maxTextures r
  /\ Renderer.cache r' = Renderer.cache (fst (Renderer.uploadImage image r))
  /\ Renderer.nextUnit r' = Renderer.nextUnit (fst (Renderer.uploadImage image r))
  /\ Renderer.gl r' = Renderer.gl (fst (Renderer.uploadImage image r)).
Proof.
  unfold emit. rewrite uploadImage_eq.
  destruct (Renderer.cache r !! handle image); simpl; tauto.
Qed.

Lemma write_quad_fields image a r :
  let r2 := room (batch r) in
  let r' := write_quad image a r in
  let u := snd (Renderer.uploadImage image r) in
  Renderer.length r' = Renderer.length (batch r) + 1
  /\ Renderer.sbOffset r' = Renderer.sbOffset (batch r) + QUAD_SIZE
  /\ Renderer.sbSize r' = Renderer.sbSize r2
  /\ Renderer.stream r'
     = splice (Renderer.sbOffset (batch r))
         (quad (Renderer.vectors (place a r2)) (Renderer.color r) image a u)
         (Renderer.stream r2)
  /\ Renderer.color r' = Renderer.color r
  /\ Renderer.maxTextures r' = Renderer.maxTextures r
  /\ Renderer.cache r' = Renderer.cache (fst (Renderer.uploadImage image r))
  /\ Renderer.nextUnit r' = Renderer.nextUnit (fst (Renderer.uploadImage image r))
  /\ Renderer.gl r'
     = Renderer.gl (batch r) ++ match Renderer.cache r !! handle image with
                                | Some _ => []
                                | None => upload_calls image (Renderer.nextUnit r)
                                end.
Proof.
  intros r2 r' u. subst r'. unfold write_quad. fold r2.
  destruct (emit_fields image a (place a r2))
    as (Hl & Ho & Hsz & Hs & Hc & Hm & Hca & Hn & Hg).
  destruct (place_buffer a r2) as (Pl & Psz & Po & Ps & Pc & Pg & Pca & Pn & Pm).
  destruct (room_frame (batch r)) as (Rl & Ro & Rca & Rn & Rc & Rg & Rm).
  destruct (batch_frame r) as (Bsz & Bs & Bca & Bn & Bc & Bm).
  assert (Hup : forall x y : Renderer.t F,
             Renderer.cache x = Renderer.cache y -> Renderer.nextUnit x = Renderer.nextUnit y ->
             snd (Renderer.uploadImage image x) = snd (Renderer.uploadImage image y)
             /\ Renderer.cache (fst (Renderer.uploadImage image x))
                = Renderer.cache (fst (Renderer.uploadImage image y))
             /\ Renderer.nextUnit (fst (Renderer.uploadImage image x))
                = Renderer.nextUnit (fst (Renderer.uploadImage image y))).
  { intros x y Hxc Hxn. rewrite !uploadImage_eq, Hxc, Hxn.
    destruct (_ !! _); simpl; rewrite ?Hxc, ?Hxn; tauto. }
  destruct (Hup (place a r2) r) as (Hu & Huc & Hun);
    [subst r2; congruence | subst r2; congruence |].
  subst u. rewrite Hl, Ho, Hsz, Hs, Hc, Hm, Hca, Hn, Hg, Hu, Huc, Hun.
  rewrite uploadImage_gl.
  subst r2. rewrite Pl, Po, Psz, Ps, Pc, Pm, Pca, Pn, Pg, Rl, Ro, Rc, Rm, Rca, Rn, Rg, Bc, Bm, Bca, Bn.
  tauto.
Qed.
End Operations.

(** ** Every operation keeps the invariants *)

Section Preservation.
Context {F : Type} `{JSNumber F}.
Implicit Types r : Renderer.t F.

Lemma buffer_ok_frame r r' :
  Renderer.length r' = Renderer.length r -> Renderer.sbSize r' = Renderer.sbSize r ->
  Renderer.sbOffset r' = Renderer.sbOffset r -> Renderer.stream r' = Renderer.stream r ->
  buffer_ok r -> buffer_ok r'.
Proof.
  intros Hl Hsz Ho Hs [? ? ? ? ?]. split; rewrite ?Hl, ?Hsz, ?Ho, ?Hs; done.
Qed.

Lemma units_ok_frame r r' :
  Renderer.nextUnit r' = Renderer.nextUnit r -> Renderer.cache r' = Renderer.cache r ->
  units_ok r -> units_ok r'.
Proof.
  intros Hn Hc [? ? ?]. split; rewrite ?Hn, ?Hc; done.
Qed.

Lemma write_quad_ok image a r : buffer_ok r -> buffer_ok (write_quad image a r).
Proof.
  intros Hok.
  destruct (batch_ok r Hok) as [Hok1 Hmax].
  destruct (room_ok _ Hok1 Hmax) as ([Ho Hl Hc Hp Hs] & Hfree & Hlen).
  destruct (write_quad_fields image a r) as (Wl & Wo & Wsz & Ws & _).
  destruct (room_frame (batch r)) as (Rl & Ro & _).
  rewrite QUAD_SIZE_36 in *.
  split; rewrite ?Wl, ?Wo, ?Wsz, ?Ws, ?QUAD_SIZE_36; try lia; try done.
  rewrite length_splice; rewrite ?length_quad; lia.
Qed.

Lemma setProjection_frame w h r :
  let r' := Renderer.setProjection w h r in
  Renderer.length r' = Renderer.length (Renderer.flush r)
  /\ Renderer.sbSize r' = Renderer.sbSize r
  /\ Renderer.sbOffset r' = Renderer.sbOffset (Renderer.flush r)
  /\ Renderer.stream r' = Renderer.stream r
  /\ Renderer.cache r' = Renderer.cache r
  /\ Renderer.nextUnit r' = Renderer.nextUnit r
  /\ Renderer.gl r' = Renderer.gl r ++ emitted (Renderer.op_setProjection w h) r.
Proof.
  unfold Renderer.setProjection. cbv zeta. simpl.
  destruct (flush_frame r) as (-> & -> & -> & -> & _).
  rewrite flush_gl, <- app_assoc. tauto.
Qed.

Lemma exec_total (o : Renderer.Op F) r : buffer_ok r -> is_Some (Renderer.exec o r).
Proof.
  intros Hok. destruct o; simpl; eauto.
  unfold Renderer.drawImage. fold (transparent r).
  destruct (transparent r) eqn:E; [eauto|].
  pose proof (drawImage_eq image a r Hok E) as Heq.
  unfold Renderer.drawImage in Heq. fold (transparent r) in Heq. rewrite E in Heq.
  rewrite Heq. eauto.
Qed.

Lemma drawImage_cases image a r :
  buffer_ok r ->
  Renderer.drawImage image a r
  = Some (if transparent r then r else write_quad image a r).
Proof.
  intros Hok. destruct (transparent r) eqn:E.
  - unfold Renderer.drawImage. fold (transparent r). by rewrite E.
  - by apply drawImage_eq.
Qed.

Lemma exec_emitted (o : Renderer.Op F) r r' :
  buffer_ok r -> Renderer.exec o r = Some r' ->
  Renderer.gl r' = Renderer.gl r ++ emitted o r.
Proof.
  intros Hok Hex. destruct o; simpl in Hex.
  - by inversion Hex.
  - inversion Hex. apply setProjection_frame.
  - inversion Hex. rewrite uploadImage_gl. reflexivity.
  - inversion Hex. rewrite reset_eq. reflexivity.
  - by inversion Hex.
  - inversion Hex. apply flush_gl.
  - rewrite drawImage_cases in Hex by done. inversion Hex. simpl.
    destruct (transparent r); [by rewrite app_nil_r|].
    destruct (write_quad_fields image a r) as (_ & _ & _ & _ & _ & _ & _ & _ & ->).
    rewrite batch_gl by done. by rewrite app_assoc.
  - inversion Hex. simpl. by rewrite app_nil_r.
Qed.

Lemma exec_buffer_ok (o : Renderer.Op F) r r' :
  buffer_ok r -> Renderer.exec o r = Some r' -> buffer_ok r'.
Proof.
  intros Hok Hex. destruct o; simpl in Hex.
  - inversion Hex. by apply (buffer_ok_frame r).
  - inversion Hex.
    destruct (setProjection_frame w h r) as (Hl & Hsz & Ho & Hs & _).
    destruct (flush_frame r) as (Fsz & Fs & _).
    apply (buffer_ok_frame (Renderer.flush r)); try congruence. by apply flush_ok.
  - inversion Hex. destruct (uploadImage_buffer image r) as (? & ? & ? & ? & _).
    by apply (buffer_ok_frame r).
  - inversion Hex. rewrite reset_eq. destruct Hok as [Ho Hl Hc (k & Hk & Hp) Hs].
    assert (0 < 2 ^ k) by (apply Z.pow_pos_nonneg; lia).
    split; simpl; try done; try lia. by exists k.
  - inversion Hex. by apply (buffer_ok_frame r).
  - inversion Hex. by apply flush_ok.
  - rewrite drawImage_cases in Hex by done. inversion Hex.
    destruct (transparent r); [done | by apply write_quad_ok].
  - inversion Hex. by apply (buffer_ok_frame r).
Qed.

Lemma uploadImage_units_ok image r :
  units_ok r -> units_ok (fst (Renderer.uploadImage image r)).
Proof.
  intros [Hn Hu Hd]. rewrite uploadImage_eq.
  destruct (Renderer.cache r !! handle image) eqn:E; simpl; [by split|].
  split; simpl.
  - rewrite map_size_insert_None by done. lia.
  - intros h u. rewrite lookup_insert. case_decide.
    + intros [= <-]. pose proof (Nat2Z.is_nonneg (size (Renderer.cache r))). lia.
    + intros Hh. apply Hu in Hh. lia.
  - intros h1 h2 u. rewrite !lookup_insert. repeat case_decide; try congruence.
    + intros [= <-] Hh. apply Hu in Hh. lia.
    + intros Hh [= <-]. apply Hu in Hh. lia.
    + apply Hd.
Qed.

Lemma exec_units_ok (o : Renderer.Op F) r r' :
  buffer_ok r -> units_ok r -> Renderer.exec o r = Some r' -> units_ok r'.
Proof.
  intros Hok Hun Hex. destruct o; simpl in Hex.
  - inversion Hex. by apply (units_ok_frame r).
  - inversion Hex. destruct (setProjection_frame w h r) as (_ & _ & _ & _ & ? & ? & _).
    by apply (units_ok_frame r).
  - inversion Hex. by apply uploadImage_units_ok.
  - inversion Hex. rewrite reset_eq. by apply (units_ok_frame r).
  - inversion Hex. by apply (units_ok_frame r).
  - inversion Hex. destruct (flush_frame r) as (_ & _ & ? & ? & _).
    by apply (units_ok_frame r).
  - rewrite drawImage_cases in Hex by done. inversion Hex.
    destruct (transparent r); [done|].
    destruct (write_quad_fields image a r) as (_ & _ & _ & _ & _ & _ & Hc & Hn & _).
    apply (units_ok_frame (fst (Renderer.uploadImage image r))); try done.
    by apply uploadImage_units_ok.
  - inversion Hex. by apply (units_ok_frame r).
Qed.

Lemma flush_calls_ok r :
  buffer_ok r -> 0 < Renderer.length r -> Forall draw_ok (flush_calls r).
Proof.
  intros [Ho Hl Hc Hp Hs] Hpos. unfold flush_calls.
  repeat constructor; simpl; unfold_consts; lia.
Qed.

Lemma reset_calls_ok r :
  Forall draw_ok (reset_calls r)
  /\ filter (fun c => writes_indices c = true) (reset_calls r) = [].
Proof.
  unfold reset_calls. generalize (Renderer.range (Renderer.maxTextures r)). intros l.
  split.
  - constructor; [done|]. induction l; simpl; repeat constructor; done.
  - rewrite filter_cons_False by (simpl; congruence).
    induction l; simpl; [done|]. rewrite !filter_cons_False by (simpl; congruence). done.
Qed.

Lemma upload_calls_ok image u :
  Forall draw_ok (upload_calls (F:=F) image u)
  /\ filter (fun c => writes_indices c = true) (upload_calls (F:=F) image u) = [].
Proof. split; [repeat constructor | reflexivity]. Qed.

Lemma emitted_ok (o : Renderer.Op F) r :
  buffer_ok r ->
  Forall draw_ok (emitted o r)
  /\ filter (fun c => writes_indices c = true) (emitted o r) = [].
Proof.
  intros Hok.
  assert (Hfl : forall b : bool,
             (b = true -> 0 < Renderer.length r) ->
             Forall draw_ok (if b then flush_calls r else [])
             /\ filter (fun c => writes_indices c = true)
                  (if b then flush_calls r else []) = []).
  { intros [|] Hb; [|by split]. split; [apply flush_calls_ok; auto | reflexivity]. }
  assert (Hup : forall image,
             Forall draw_ok (match Renderer.cache r !! handle image with
                             | Some _ => []
                             | None => upload_calls (F:=F) image (Renderer.nextUnit r)
                             end)
             /\ filter (fun c => writes_indices c = true)
                  (match Renderer.cache r !! handle image with
                   | Some _ => []
                   | None => upload_calls (F:=F) image (Renderer.nextUnit r)
                   end) = []).
  { intros image. destruct (_ !! _); [by split | apply upload_calls_ok]. }
  destruct o; simpl.
  - split; [repeat constructor | reflexivity].
  - destruct (Hfl (0 <? Renderer.length r)) as [Hd Hi]; [apply Z.ltb_lt|].
    split; [apply Forall_app; split; [done | repeat constructor]|].
    rewrite filter_app, Hi. reflexivity.
  - apply Hup.
  - apply reset_calls_ok.
  - split; [repeat constructor | reflexivity].
  - apply Hfl. apply Z.ltb_lt.
  - destruct (transparent r); [by split|].
    destruct (Hfl (MAX_LENGTH <=? Renderer.length r)) as [Hd Hi].
    { intros E. apply Z.leb_le in E. unfold MAX_LENGTH in E. lia. }
    destruct (Hup image) as [Hd' Hi'].
    split; [apply Forall_app; by split|]. by rewrite filter_app, Hi, Hi'.
  - by split.
Qed.

Lemma new_gl canvas :
  Renderer.gl (Renderer.new canvas)
  = [newShader (Z.min 24 (MAX_TEXTURE_IMAGE_UNITS canvas))
       (if HIGH_FLOAT_precision canvas <? 16 then mediump else highp);
     useProgram;
     createBuffer; bindBuffer ARRAY_BUFFER;
     bufferData_size ARRAY_BUFFER (MAX_LENGTH * ELEMENT_OFFSET * ELEMENTS_PER_QUAD) STREAM_DRAW;
     createBuffer; bindBuffer ELEMENT_ARRAY_BUFFER;
     bufferData_indices ELEMENT_ARRAY_BUFFER Renderer.createIB STATIC_DRAW;
     vertexAttribPointer aVertex VERTEX_SIZE ELEMENT_OFFSET VERTEX_OFFSET;
     vertexAttribPointer aColor COLOR_SIZE ELEMENT_OFFSET COLOR_OFFSET;
     vertexAttribPointer aRegion REGION_SIZE ELEMENT_OFFSET REGION_OFFSET;
     vertexAttribPointer aTexture TEXTURE_SIZE ELEMENT_OFFSET TEXTURE_OFFSET;
     createTexture; bindTexture emptyTexture;
     texImage2D_pixels 1 1 [255; 0; 0; 255]]
    ++ (uniform1iv_sampler (Renderer.range (Z.min 24 (MAX_TEXTURE_IMAGE_UNITS canvas)))
        :: flat_map (fun i => [activeTexture (TEXTURE0 + i); bindTexture emptyTexture])
             (Renderer.range (Z.min 24 (MAX_TEXTURE_IMAGE_UNITS canvas))))
    ++ [viewport (of_Z 0) (of_Z 0) (of_Z (width canvas)) (of_Z (height canvas));
        uniformMatrix3fv_matrix
          (mkMat3 (fdiv (of_Z 2) (of_Z (width canvas))) (of_Z 0) (of_Z 0)
                  (of_Z 0) (fdiv (of_Z (-2)) (of_Z (height canvas))) (of_Z 0)
                  (of_Z (-1)) (of_Z 1) (of_Z 1));
        clearColor (of_Z 0) (of_Z 0) (of_Z 0) (of_Z 1);
        enable_BLEND; blendFunc_ONE_ONE_MINUS_SRC_ALPHA;
        pixelStorei_UNPACK_PREMULTIPLY_ALPHA_WEBGL 1].
Proof.
  unfold Renderer.new, Renderer.setClearColor, Renderer.setProjection. cbv zeta.
  rewrite reset_eq.
  rewrite flush_empty by (cbn [Renderer.length Renderer.call Renderer.set_length]; lia).
  unfold reset_calls.
  cbn [Renderer.gl Renderer.call Renderer.set_length Renderer.set_sbOffset
       Renderer.set_uMatrix Renderer.maxTextures Renderer.uMatrix Renderer.length
       Renderer.precision Renderer.sbSize Renderer.sbOffset Renderer.stream
       Renderer.nextUnit Renderer.cache Renderer.color Renderer.vectors Renderer.matrix].
  rewrite <- !app_assoc. reflexivity.
Qed.
End Preservation.

(** ** The invariants hold in every reachable state *)

Section Reachability.
Context {F : Type} `{JSNumber F}.
Implicit Types r : Renderer.t F.

Lemma new_fields canvas :
  let r := Renderer.new canvas in
  Renderer.length r = 0 /\ Renderer.sbSize r = 256 /\ Renderer.sbOffset r = 0
  /\ Renderer.stream r
     = replicate (Z.to_nat (256 * ELEMENT_SIZE * ELEMENTS_PER_QUAD)) (of_Z 0)
  /\ Renderer.nextUnit r = 0 /\ Renderer.cache r = ∅
  /\ Renderer.color r = mkColor (of_Z 1) (of_Z 1) (of_Z 1) (of_Z 1)
  /\ Renderer.maxTextures r = Z.min 24 (MAX_TEXTURE_IMAGE_UNITS canvas).
Proof.
  unfold Renderer.new, Renderer.setClearColor, Renderer.setProjection. cbv zeta.
  rewrite reset_eq.
  rewrite flush_empty by (cbn [Renderer.length Renderer.call Renderer.set_length]; lia).
  cbn [Renderer.gl Renderer.call Renderer.set_length Renderer.set_sbOffset
       Renderer.set_uMatrix Renderer.maxTextures Renderer.uMatrix Renderer.length
       Renderer.precision Renderer.sbSize Renderer.sbOffset Renderer.stream
       Renderer.nextUnit Renderer.cache Renderer.color Renderer.vectors Renderer.matrix].
  tauto.
Qed.

Lemma new_buffer_ok canvas : buffer_ok (Renderer.new canvas).
Proof.
  destruct (new_fields canvas) as (Hl & Hsz & Ho & Hs & _).
  split; rewrite ?Hl, ?Hsz, ?Ho, ?Hs.
  - reflexivity.
  - unfold MAX_LENGTH. lia.
  - lia.
  - exists 8. split; [lia | reflexivity].
  - rewrite length_replicate. reflexivity.
Qed.

Lemma new_units_ok canvas : units_ok (Renderer.new canvas).
Proof.
  destruct (new_fields canvas) as (_ & _ & _ & _ & Hn & Hc & _).
  split; rewrite ?Hn, ?Hc; [done | |]; intros *; by rewrite lookup_empty.
Qed.

Lemma new_trace_ok canvas :
  Forall draw_ok (Renderer.gl (Renderer.new canvas))
  /\ filter (fun c => writes_indices c = true) (Renderer.gl (Renderer.new canvas))
     = [bufferData_indices ELEMENT_ARRAY_BUFFER Renderer.createIB STATIC_DRAW].
Proof.
  rewrite new_gl.
  generalize (@Renderer.createIB). intros ib.
  pose proof (reset_calls_ok (Renderer.new canvas)) as [Hd Hi].
  unfold reset_calls in Hd, Hi.
  destruct (new_fields canvas) as (_ & _ & _ & _ & _ & _ & _ & Hm).
  rewrite Hm in Hd, Hi.
  split.
  - apply Forall_app. split; [repeat constructor|].
    apply Forall_app. split; [done | repeat constructor].
  - rewrite !filter_app, Hi. reflexivity.
Qed.

Lemma new_inv canvas : inv (Renderer.new canvas).
Proof.
  split; [apply new_buffer_ok | apply new_units_ok | apply new_trace_ok ..].
Qed.

Lemma exec_inv (o : Renderer.Op F) r r' :
  inv r -> Renderer.exec o r = Some r' -> inv r'.
Proof.
  intros [Hb Hu Hd Hi] Hex.
  destruct (emitted_ok o r Hb) as [Hed Hei].
  split.
  - by apply (exec_buffer_ok o r).
  - by apply (exec_units_ok o r).
  - rewrite (exec_emitted o r r') by done. apply Forall_app. by split.
  - rewrite (exec_emitted o r r') by done. by rewrite filter_app, Hi, Hei.
Qed.

Lemma reachable_inv r : Renderer.reachable r -> inv r.
Proof.
  induction 1 as [canvas | o r r' _ IH Hex]; [apply new_inv | by apply (exec_inv o r)].
Qed.

Lemma run_inv (os : list (Renderer.Op F)) r r' :
  inv r -> Renderer.run os r = Some r' -> inv r'.
Proof.
  revert r. induction os as [|o os IH]; intros r Hinv Hrun; simpl in Hrun.
  - injection Hrun as <-. exact Hinv.
  - destruct (Renderer.exec o r) as [r1|] eqn:E; [|done]. simpl in Hrun.
    apply (IH r1); [by apply (exec_inv o r) | done].
Qed.

Lemma run_reachable (os : list (Renderer.Op F)) r r' :
  Renderer.reachable r -> Renderer.run os r = Some r' -> Renderer.reachable r'.
Proof.
  revert r. induction os as [|o os IH]; intros r Hinv Hrun; simpl in Hrun.
  - injection Hrun as <-. exact Hinv.
  - destruct (Renderer.exec o r) as [r1|] eqn:E; [|done]. simpl in Hrun.
    apply (IH r1); [by apply (Renderer.reachable_exec o r) | done].
Qed.
End Reachability.

(** ** The stream after a call *)

Section Stream.
Context {F : Type} `{JSNumber F}.
Implicit Types r : Renderer.t F.

Lemma elements_splice (o i n : Z) (q s : list F) :
  0 <= o -> o + Z.of_nat (List.length q) <= Z.of_nat (List.length s) ->
  0 <= i -> 0 <= n -> i + n <= Z.of_nat (List.length q) ->
  elements (o + i) n (splice o q s) = elements i n q.
Proof.
  intros Ho Hfit Hi Hn Hin. unfold elements, splice.
  replace (Z.to_nat (o + i)) with (List.length (take (Z.to_nat o) s) + Z.to_nat i)%nat
    by (rewrite length_take; lia).
  rewrite drop_app_add'; [|done].
  rewrite drop_app_le by lia.
  rewrite take_app_le; [done|]. rewrite length_drop. lia.
Qed.

Lemma elements_all (q : list F) :
  elements 0 (Z.of_nat (List.length q)) q = q.
Proof. unfold elements. simpl. rewrite Nat2Z.id. apply firstn_all. Qed.

(** The stream after a visible call: the quad of the call stands at the
    offset of the batch, and the elements before it are the old ones. *)
Lemma write_quad_stream image a r :
  buffer_ok r ->
  let r' := write_quad image a r in
  let o := Renderer.sbOffset (batch r) in
  let q := quad (Renderer.vectors (place a (room (batch r)))) (Renderer.color r) image a
             (snd (Renderer.uploadImage image r)) in
  0 <= o /\ o = Renderer.length (batch r) * QUAD_SIZE
  /\ o + QUAD_SIZE <= Z.of_nat (List.length (Renderer.stream r'))
  /\ Renderer.stream r' = splice o q (Renderer.stream (room (batch r)))
  /\ o + QUAD_SIZE <= Z.of_nat (List.length (Renderer.stream (room (batch r))))
  /\ take (Z.to_nat o) (Renderer.stream r') = take (Z.to_nat o) (Renderer.stream r).
Proof.
  intros Hok r' o q.
  destruct (batch_ok r Hok) as [Hok1 Hmax].
  destruct (room_ok _ Hok1 Hmax) as ([Ho Hl Hc Hp Hs] & Hfree & Hlen).
  destruct (write_quad_fields image a r) as (Wl & Wo & Wsz & Ws & _).
  destruct (room_frame (batch r)) as (Rl & Ro & _).
  destruct (batch_frame r) as (Bsz & Bs & _).
  fold r' in Ws. fold o q in Ws. subst o.
  rewrite Ro in Ho. rewrite Rl in Ho.
  rewrite QUAD_SIZE_36 in *.
  assert (Hfit : Renderer.sbOffset (batch r) + 36
                 <= Z.of_nat (List.length (Renderer.stream (room (batch r))))) by lia.
  repeat split; try lia; try done.
  - rewrite Ws, length_splice; [done | lia | subst q; rewrite length_quad; lia].
  - rewrite Ws. rewrite take_before_splice by lia.
    unfold room. destruct (_ <=? _) eqn:E; simpl.
    + destruct Hok1 as [Ho1 Hl1 Hc1 Hp1 Hs1]. rewrite QUAD_SIZE_36 in *.
      apply Z.leb_le in E.
      rewrite take_app_le by lia. by rewrite Bs.
    + by rewrite Bs.
Qed.
End Stream.

(** ** The new renderer *)

Section Fresh.
Context {F : Type} `{JSNumber F}.

Lemma new_transparent canvas :
  transparent (Renderer.new canvas) = flt (of_Z 1) (fdiv (of_Z 1) (of_Z 256)).
Proof.
  unfold transparent.
  by destruct (new_fields canvas) as (_ & _ & _ & _ & _ & _ & -> & _).
Qed.

Lemma setColor_transparent c (r : Renderer.t F) :
  transparent (Renderer.setColor c r) = flt (alpha c) (fdiv (of_Z 1) (of_Z 256)).
Proof. reflexivity. Qed.

Lemma reset_calls_draw (r : Renderer.t F) : existsb is_draw (reset_calls r) = false.
Proof.
  unfold reset_calls. generalize (Renderer.range (Renderer.maxTextures r)). intros l.
  simpl. induction l as [|i l IH]; [done | exact IH].
Qed.

Lemma reset_calls_others (r : Renderer.t F) :
  Forall (fun c => is_submission c = false) (reset_calls r).
Proof.
  unfold reset_calls. generalize (Renderer.range (Renderer.maxTextures r)). intros l.
  constructor; [done|]. induction l; simpl; repeat constructor; done.
Qed.

Lemma drawImage_first image a canvas :
  transparent (Renderer.new canvas) = false ->
  exists r', Renderer.drawImage image a (Renderer.new canvas) = Some r'
    /\ Renderer.length r' = 1.
Proof.
  intros Hvis. exists (write_quad image a (Renderer.new canvas)).
  split; [apply drawImage_eq; [apply new_buffer_ok | done]|].
  destruct (write_quad_fields image a (Renderer.new canvas)) as (-> & _).
  destruct (new_fields canvas) as (Hl & _).
  unfold batch. rewrite Hl. change (MAX_LENGTH <=? 0) with false. cbv iota.
  by rewrite Hl.
Qed.
End Fresh.

(** *** On binary64 *)

Lemma fresh_visible : transparent Example.fresh = false.
Proof. unfold Example.fresh. rewrite new_transparent. vm_compute. reflexivity. Qed.

Lemma fresh_reachable : Renderer.reachable Example.fresh.
Proof. apply Renderer.reachable_new. Qed.

(** *** On the reals *)

#[global] Instance ideal_exact : ExactArithmetic R.
Proof.
  split.
  - split; intros; unfold fopp; simpl; ring.
  - unfold fopp. simpl. ring.
Qed.


Lemma turned_call_rotates : fseq (rotateAngle Example.turned_call) (of_Z 0) = false.
Proof.
  simpl. destruct (Req_dec_T 1 0) as [Heq|]; [lra | reflexivity].
Qed.

(** ** The batch: transparent calls, the cap, the capacity *)

Section BatchClaims.
Context {F : Type} `{JSNumber F}.
Implicit Types r : Renderer.t F.

Lemma elements_take (i n : Z) (m : nat) (s : list F) :
  (Z.to_nat i + Z.to_nat n <= m)%nat ->
  elements i n (take m s) = elements i n s.
Proof.
  intros Hm. unfold elements. rewrite !take_drop_commute, take_take.
  do 2 f_equal. lia.
Qed.

Lemma quad_place a (r1 r2 : Renderer.t F) c image u :
  quad (Renderer.vectors (place a r1)) c image a u
  = quad (Renderer.vectors (place a r2)) c image a u.
Proof. unfold place. destruct (negb _); reflexivity. Qed.

(** The quad of a visible call, as the stream holds it afterwards. *)
Lemma drawImage_quad image a r :
  buffer_ok r -> transparent r = false ->
  let r' := write_quad image a r in
  quad_at (Renderer.stream r') (Renderer.length (batch r))
  = quad (Renderer.vectors (place a r)) (Renderer.color r) image a
         (snd (Renderer.uploadImage image r)).
Proof.
  intros Hok Hvis r'.
  destruct (write_quad_stream image a r Hok) as (Ho & Hoe & Hfit & Hs & Hfit2 & _).
  fold r' in Hfit, Hs. rewrite Hs. unfold quad_at. fold QUAD_SIZE.
  rewrite <- Hoe.
  rewrite <- (Z.add_0_r (Renderer.sbOffset (batch r))) at 1.
  rewrite elements_splice; rewrite ?length_quad, ?QUAD_SIZE_36 in *; try lia.
  rewrite (quad_place a _ r).
  apply (elements_all (quad _ _ _ _ _)).
Qed.

(** C3. A [drawImage] call made while the alpha of the draw color is
    below the threshold 1/256 is a complete no-op: it returns, and the
    renderer after it is the renderer before it. In particular the
    stream is not written, no call is made on the context (no texture
    upload, no buffer upload, no draw), and the pending length, the
    write offset, the cache and the next unit are unchanged. *)
Theorem transparent_draw_is_noop image a r :
  transparent r = true ->
  exists r', Renderer.drawImage image a r = Some r'
    /\ r' = r
    /\ Renderer.stream r' = Renderer.stream r
    /\ Renderer.gl r' = Renderer.gl r
    /\ Renderer.length r' = Renderer.length r
    /\ Renderer.sbOffset r' = Renderer.sbOffset r
    /\ Renderer.cache r' = Renderer.cache r
    /\ Renderer.nextUnit r' = Renderer.nextUnit r.
Proof.
  intros Ht. exists r. unfold Renderer.drawImage. fold (transparent r). rewrite Ht.
  repeat split.
Qed.

(** C4. When [drawImage] writes a quad while [MAX_LENGTH] quads are
    pending, it first flushes: the context receives the upload of the
    [MAX_LENGTH] pending quads and one draw call of [MAX_LENGTH * 6]
    indices, the counters restart, and the quad of the call is quad 0
    of the stream, so that one quad is pending afterwards. Hence in
    every reachable state the pending length is at most [MAX_LENGTH],
    and every draw call made so far starts at index 0 and draws at
    most [MAX_LENGTH * 6] indices, the length of the index table. *)
Theorem full_batch_is_flushed_first :
  (forall image a r,
      Renderer.reachable r -> Renderer.length r = MAX_LENGTH -> transparent r = false ->
      exists r', Renderer.drawImage image a r = Some r'
        /\ Renderer.gl r'
           = Renderer.gl r
             ++ [bufferSubData ARRAY_BUFFER 0
                   (take (Z.to_nat (MAX_LENGTH * QUAD_SIZE)) (Renderer.stream r));
                 drawElements_TRIANGLES (MAX_LENGTH * INDICES_PER_QUAD) 0]
             ++ match Renderer.cache r !! handle image with
                | Some _ => []
                | None => upload_calls image (Renderer.nextUnit r)
                end
        /\ Renderer.length r' = 1
        /\ Renderer.sbOffset r' = QUAD_SIZE
        /\ quad_at (Renderer.stream r') 0
           = quad (Renderer.vectors (place a r)) (Renderer.color r) image a
                  (snd (Renderer.uploadImage image r)))
  /\ (forall r, Renderer.reachable r -> 0 <= Renderer.length r <= MAX_LENGTH)
  /\ (forall r count offset,
        Renderer.reachable r ->
        In (drawElements_TRIANGLES count offset) (Renderer.gl r) ->
        offset = 0
        /\ 0 < count <= MAX_LENGTH * INDICES_PER_QUAD
        /\ count <= Z.of_nat (List.length Renderer.createIB)).
Proof.
  split; [|split].
  - intros image a r Hr Hfull Hvis.
    destruct (reachable_inv r Hr) as [Hok _ _ _].
    exists (write_quad image a r). split; [by apply drawImage_eq|].
    assert (Hb : batch r = Renderer.flush r).
    { unfold batch. rewrite Hfull. reflexivity. }
    assert (Hpos : 0 < Renderer.length r) by (rewrite Hfull; reflexivity).
    destruct (write_quad_fields image a r) as (Wl & Wo & _ & _ & _ & _ & _ & _ & Wg).
    pose proof (drawImage_quad image a r Hok Hvis) as Hq. cbv zeta in Hq.
    rewrite Hb in *. rewrite flush_pending in * by done.
    cbn [Renderer.length Renderer.sbOffset Renderer.gl Renderer.set_length
         Renderer.set_sbOffset Renderer.call] in *.
    rewrite Wg, Wl, Wo, Hq, Hfull. rewrite <- !app_assoc.
    repeat split.
  - intros r Hr. by destruct (reachable_inv r Hr) as [[] _ _ _].
  - intros r count offset Hr Hin.
    destruct (reachable_inv r Hr) as [_ _ Hd _].
    rewrite Forall_forall in Hd. apply list_elem_of_In, Hd in Hin. simpl in Hin.
    rewrite length_createIB. lia.
Qed.

(** The capacity after an operation. *)
Lemma exec_sbSize (o : Renderer.Op F) r r' :
  buffer_ok r -> Renderer.exec o r = Some r' ->
  Renderer.sbSize r' = if overflows o r then 2 * Renderer.sbSize r else Renderer.sbSize r.
Proof.
  intros Hok Hex. destruct o; simpl in Hex; simpl.
  - by inversion Hex.
  - inversion Hex. by destruct (setProjection_frame w h r) as (_ & -> & _).
  - inversion Hex. by destruct (uploadImage_buffer image r) as (_ & -> & _).
  - inversion Hex. by rewrite reset_eq.
  - by inversion Hex.
  - inversion Hex. by destruct (flush_frame r) as (-> & _).
  - rewrite drawImage_cases in Hex by done. inversion Hex.
    destruct (transparent r); [done|]. simpl.
    destruct (write_quad_fields image a r) as (_ & _ & -> & _).
    destruct (batch_frame r) as (Bsz & _).
    unfold room. rewrite Bsz. destruct (_ <=? _); simpl; by rewrite ?Bsz.
  - by inversion Hex.
Qed.

(** C6. The capacity [sbSize] is 256 after construction and a power of
    two in every reachable state. Every operation on a reachable
    renderer returns, and it doubles the capacity exactly when it is a
    [drawImage] that writes a quad into a full stream buffer, and
    leaves it unchanged otherwise. [resizeSB] on a reachable renderer
    returns: the capacity and the array are twice as large, and the old
    array is the front of the new one. A [drawImage] that meets a full
    stream buffer returns with the capacity doubled and one more quad
    pending, and every quad that was pending before it reads back
    unchanged after it. *)
Theorem capacity_doubles_and_keeps_the_quads :
  (forall canvas, Renderer.sbSize (Renderer.new (F:=F) canvas) = 256)
  /\ (forall r, Renderer.reachable r -> exists k, 0 <= k /\ Renderer.sbSize r = 2 ^ k)
  /\ (forall o r,
        Renderer.reachable r ->
        exists r', Renderer.exec o r = Some r'
          /\ Renderer.sbSize r'
             = if overflows o r then 2 * Renderer.sbSize r else Renderer.sbSize r)
  /\ (forall r,
        Renderer.reachable r ->
        exists r', Renderer.resizeSB r = Some r'
          /\ Renderer.sbSize r' = 2 * Renderer.sbSize r
          /\ Z.of_nat (List.length (Renderer.stream r'))
             = 2 * Z.of_nat (List.length (Renderer.stream r))
          /\ take (List.length (Renderer.stream r)) (Renderer.stream r') = Renderer.stream r)
  /\ (forall image a r,
        Renderer.reachable r ->
        overflows (Renderer.op_drawImage image a) r = true ->
        exists r', Renderer.drawImage image a r = Some r'
          /\ Renderer.sbSize r' = 2 * Renderer.sbSize r
          /\ Renderer.length r' = Renderer.length r + 1
          /\ forall k, 0 <= k < Renderer.length r ->
               quad_at (Renderer.stream r') k = quad_at (Renderer.stream r) k).
Proof.
  split; [|split; [|split; [|split]]].
  - intros canvas. by destruct (new_fields (F:=F) canvas) as (_ & -> & _).
  - intros r Hr. destruct (reachable_inv r Hr) as [[_ _ _ (k & Hk & Hp) _] _ _ _].
    exists k. split; [lia | done].
  - intros o r Hr. destruct (reachable_inv r Hr) as [Hok _ _ _].
    destruct (exec_total o r Hok) as (r' & Hex).
    exists r'. split; [done | by apply exec_sbSize].
  - intros r Hr. destruct (reachable_inv r Hr) as [Hok _ _ _].
    exists (grow r). split; [by apply resizeSB_grow|]. simpl.
    destruct Hok as [_ _ _ _ Hs].
    split; [done|]. split; [|by rewrite take_app_length].
    rewrite length_app, length_replicate. lia.
  - intros image a r Hr Hov.
    destruct (reachable_inv r Hr) as [Hok _ _ _].
    simpl in Hov. apply andb_true_iff in Hov as [Hvis Hfull].
    apply negb_true_iff in Hvis. apply Z.leb_le in Hfull.
    exists (write_quad image a r). split; [by apply drawImage_eq|].
    destruct (write_quad_stream image a r Hok) as (Ho & Hoe & _ & _ & _ & Ht).
    destruct (write_quad_fields image a r) as (Wl & _ & Wsz & _).
    destruct (batch_ok r Hok) as [[_ Hl1 _ _ _] Hmax].
    assert (Hb : batch r = r).
    { unfold batch in *. destruct (MAX_LENGTH <=? Renderer.length r) eqn:E; [|done].
      rewrite flush_pending in Hfull by (apply Z.leb_le in E; unfold MAX_LENGTH in E; lia).
      simpl in Hfull. destruct Hok as [_ _ _ (j & Hj & Hp) _].
      assert (0 < 2 ^ j) by (apply Z.pow_pos_nonneg; lia).
      destruct (flush_frame r) as (Fsz & _). lia. }
    rewrite Hb in *.
    split; [|split; [done|]].
    + rewrite Wsz. unfold room.
      destruct (Renderer.sbSize r <=? Renderer.length r) eqn:E; [done | apply Z.leb_gt in E; lia].
    + intros k Hk. unfold quad_at. fold QUAD_SIZE. rewrite QUAD_SIZE_36 in *.
      rewrite <- (elements_take _ _ (Z.to_nat (Renderer.sbOffset r)) (Renderer.stream r)) by lia.
      rewrite <- (elements_take _ _ (Z.to_nat (Renderer.sbOffset r))
                    (Renderer.stream (write_quad image a r))) by lia.
      by rewrite Ht.
Qed.

(** The capacity after calls that fit into the stream buffer. *)
Lemma run_draws_capacity (calls : list (Image * DrawArgs F)) r r1 :
  buffer_ok r ->
  Renderer.length r + Z.of_nat (List.length calls) <= Renderer.sbSize r ->
  Renderer.run (draws calls) r = Some r1 ->
  Renderer.sbSize r1 = Renderer.sbSize r.
Proof.
  revert r. induction calls as [|[image a] calls IH]; intros r Hok Hfit Hrun.
  - by injection Hrun as <-.
  - cbn [draws map Renderer.run fst snd Renderer.exec] in Hrun.
    rewrite drawImage_cases in Hrun by done. cbn [mbind option_bind] in Hrun.
    cbn [List.length] in Hfit.
    destruct (transparent r).
    + apply (IH r); [done | lia | exact Hrun].
    + destruct (write_quad_fields image a r) as (Wl & _ & Wsz & _).
      assert (Hb : Renderer.length (batch r) <= Renderer.length r
                   /\ Renderer.sbSize (batch r) = Renderer.sbSize r).
      { destruct (batch_frame r) as (-> & _). split; [|done].
        unfold batch. destruct (MAX_LENGTH <=? Renderer.length r) eqn:E; [|lia].
        apply Z.leb_le in E.
        rewrite flush_pending by (unfold MAX_LENGTH in E; lia). simpl.
        destruct Hok as [_ Hl _ _ _]. lia. }
      destruct Hb as [Hbl Hbs].
      assert (Hroom : room (batch r) = batch r).
      { unfold room. destruct (_ <=? _) eqn:E; [apply Z.leb_le in E; lia | done]. }
      rewrite Hroom, Hbs in Wsz.
      rewrite <- Wsz. apply IH; [by apply write_quad_ok | lia | exact Hrun].
Qed.
End BatchClaims.

(** ** The texture-unit cache, the write offset, the flush *)

Section CacheClaims.
Context {F : Type} `{JSNumber F}.
Implicit Types r : Renderer.t F.

Lemma uploadImage_keeps image r h u :
  Renderer.cache r !! h = Some u ->
  Renderer.cache (fst (Renderer.uploadImage image r)) !! h = Some u.
Proof.
  intros Hh. rewrite uploadImage_eq.
  destruct (Renderer.cache r !! handle image) eqn:E; simpl; [done|].
  rewrite lookup_insert_ne; [done | congruence].
Qed.

Lemma exec_keeps (o : Renderer.Op F) r r' h u :
  buffer_ok r -> Renderer.exec o r = Some r' ->
  Renderer.cache r !! h = Some u -> Renderer.cache r' !! h = Some u.
Proof.
  intros Hok Hex Hh. destruct o; simpl in Hex.
  - by inversion Hex.
  - inversion Hex. by destruct (setProjection_frame w h0 r) as (_ & _ & _ & _ & -> & _).
  - inversion Hex. by apply uploadImage_keeps.
  - inversion Hex. by rewrite reset_eq.
  - by inversion Hex.
  - inversion Hex. by destruct (flush_frame r) as (_ & _ & -> & _).
  - rewrite drawImage_cases in Hex by done. inversion Hex.
    destruct (transparent r); [done|].
    destruct (write_quad_fields image a r) as (_ & _ & _ & _ & _ & _ & -> & _).
    by apply uploadImage_keeps.
  - by inversion Hex.
Qed.

Lemma uploadImages_fresh (images : list Image) r :
  NoDup (map handle images) ->
  (forall image, In image images -> Renderer.cache r !! handle image = None) ->
  snd (uploadImages images r)
  = Renderer.count_from (Renderer.nextUnit r) (List.length images).
Proof.
  revert r. induction images as [|image images IH]; intros r Hnd Hfresh; [done|].
  simpl. rewrite uploadImage_eq, (Hfresh image) by (by left).
  inversion Hnd as [|? ? Hnotin Hnd']; subst.
  specialize (IH (Renderer.set_cache (<[handle image:=Renderer.nextUnit r]> (Renderer.cache r))
           (Renderer.call (upload_calls image (Renderer.nextUnit r))
              (Renderer.set_nextUnit (Renderer.nextUnit r + 1) r))) Hnd').
  destruct (uploadImages images _) as [r2 units]. simpl in *. f_equal.
  apply IH. intros image' Hin.
  rewrite lookup_insert_ne; [apply Hfresh; by right|].
  intros Heq. apply Hnotin. rewrite list_elem_of_In, in_map_iff. exists image'. by split.
Qed.

(** C5. [uploadImage] on an image that the cache holds returns its
    unit and changes nothing (no call on the context); on an image
    that the cache does not hold it returns [nextUnit], makes exactly
    one texture upload, records the unit and advances [nextUnit] by
    one, with no comparison against [maxTextures]. In every reachable
    state [nextUnit] is the number of images resolved so far and the
    units are distinct and below it; no operation changes the unit of
    an image; and images with distinct handles, resolved in sequence
    on a new renderer, get the units 0, 1, 2, ... however many they
    are. *)
Theorem uploadImage_assigns_stable_units :
  (forall image r u,
      Renderer.cache r !! handle image = Some u ->
      Renderer.uploadImage image r = (r, u))
  /\ (forall image r,
        Renderer.cache r !! handle image = None ->
        exists r', Renderer.uploadImage image r = (r', Renderer.nextUnit r)
          /\ Renderer.gl r' = Renderer.gl r ++ upload_calls image (Renderer.nextUnit r)
          /\ filter (fun c => is_upload c = true) (upload_calls (F:=F) image (Renderer.nextUnit r))
             = [texImage2D image]
          /\ Renderer.cache r' = <[handle image := Renderer.nextUnit r]> (Renderer.cache r)
          /\ Renderer.nextUnit r' = Renderer.nextUnit r + 1)
  /\ (forall r,
        Renderer.reachable r ->
        Renderer.nextUnit r = Z.of_nat (size (Renderer.cache r))
        /\ (forall h u, Renderer.cache r !! h = Some u -> 0 <= u < Renderer.nextUnit r)
        /\ (forall h1 h2 u, Renderer.cache r !! h1 = Some u ->
                            Renderer.cache r !! h2 = Some u -> h1 = h2))
  /\ (forall o r r' h u,
        Renderer.reachable r -> Renderer.exec o r = Some r' ->
        Renderer.cache r !! h = Some u -> Renderer.cache r' !! h = Some u)
  /\ (forall canvas images,
        NoDup (map handle images) ->
        snd (uploadImages images (Renderer.new canvas))
        = Renderer.range (Z.of_nat (List.length images))).
Proof.
  split; [|split; [|split; [|split]]].
  - intros image r u Hh. by rewrite uploadImage_eq, Hh.
  - intros image r Hh. rewrite uploadImage_eq, Hh. eexists. split; [reflexivity|].
    simpl. repeat split.
  - intros r Hr. by destruct (reachable_inv r Hr) as [_ [] _ _].
  - intros o r r' h u Hr. destruct (reachable_inv r Hr) as [Hok _ _ _].
    by apply exec_keeps.
  - intros canvas images Hnd.
    destruct (new_fields (F:=F) canvas) as (_ & _ & _ & _ & Hn & Hc & _).
    rewrite uploadImages_fresh; [|done|].
    + rewrite Hn. unfold Renderer.range. by rewrite Nat2Z.id.
    + intros image _. by rewrite Hc, lookup_empty.
Qed.

(** C10. The quad record has [ELEMENT_SIZE * ELEMENTS_PER_QUAD] = 36
    floats, and [sbOffset = length * 36] holds after construction and
    in every reachable state; [flush] and [reset] keep the equality,
    and so does [drawImage], which returns in every reachable state.
    A call that writes a quad writes it as the quad number
    [length] of the batch, directly after the pending quads, which it
    leaves as they are. *)
Theorem offset_is_length_times_quad_size :
  ELEMENT_SIZE * ELEMENTS_PER_QUAD = 36
  /\ (forall canvas,
        Renderer.sbOffset (Renderer.new (F:=F) canvas)
        = Renderer.length (Renderer.new (F:=F) canvas) * (ELEMENT_SIZE * ELEMENTS_PER_QUAD))
  /\ (forall r,
        Renderer.reachable r ->
        Renderer.sbOffset r = Renderer.length r * (ELEMENT_SIZE * ELEMENTS_PER_QUAD))
  /\ (forall r,
        Renderer.sbOffset r = Renderer.length r * (ELEMENT_SIZE * ELEMENTS_PER_QUAD) ->
        Renderer.sbOffset (Renderer.flush r)
        = Renderer.length (Renderer.flush r) * (ELEMENT_SIZE * ELEMENTS_PER_QUAD))
  /\ (forall r,
        Renderer.sbOffset (Renderer.reset r)
        = Renderer.length (Renderer.reset r) * (ELEMENT_SIZE * ELEMENTS_PER_QUAD))
  /\ (forall image a r,
        Renderer.reachable r ->
        exists r', Renderer.drawImage image a r = Some r'
          /\ Renderer.sbOffset r'
             = Renderer.length r' * (ELEMENT_SIZE * ELEMENTS_PER_QUAD))
  /\ (forall image a r,
        Renderer.reachable r -> transparent r = false ->
        exists r', Renderer.drawImage image a r = Some r'
          /\ Renderer.length r' = Renderer.length (batch r) + 1
          /\ quad_at (Renderer.stream r') (Renderer.length (batch r))
             = quad (Renderer.vectors (place a r)) (Renderer.color r) image a
                    (snd (Renderer.uploadImage image r))
          /\ forall k, 0 <= k < Renderer.length (batch r) ->
                       quad_at (Renderer.stream r') k = quad_at (Renderer.stream r) k).
Proof.
  split; [reflexivity|]. split; [|split; [|split; [|split; [|split]]]].
  - intros canvas. by destruct (new_fields (F:=F) canvas) as (-> & _ & -> & _).
  - intros r Hr. by destruct (reachable_inv r Hr) as [[] _ _ _].
  - intros r Heq. rewrite flush_eq. by destruct (0 <? _).
  - intros r. by rewrite reset_eq.
  - intros image a r Hr. destruct (reachable_inv r Hr) as [Hok _ _ _].
    eexists. split; [by apply drawImage_cases|].
    destruct (transparent r); [by destruct Hok|].
    by destruct (write_quad_ok image a r Hok).
  - intros image a r Hr Hvis. destruct (reachable_inv r Hr) as [Hok _ _ _].
    exists (write_quad image a r). split; [by apply drawImage_eq|].
    destruct (write_quad_fields image a r) as (Wl & _).
    split; [done|]. split; [by apply drawImage_quad|].
    intros k Hk.
    destruct (write_quad_stream image a r Hok) as (Ho & Hoe & _ & _ & _ & Ht).
    unfold quad_at. fold QUAD_SIZE. rewrite QUAD_SIZE_36 in *.
    rewrite <- (elements_take _ _ (Z.to_nat (Renderer.sbOffset (batch r))) (Renderer.stream r))
      by lia.
    rewrite <- (elements_take _ _ (Z.to_nat (Renderer.sbOffset (batch r)))
                  (Renderer.stream (write_quad image a r))) by lia.
    by rewrite Ht.
Qed.

(** C7, as amended. [flush] with no pending quad returns the renderer
    unchanged (no call on the context). With pending quads it uploads
    the [length * 36] floats at the front of the stream, makes one draw
    call of [length * 6] indices and sets [length] and [sbOffset] to 0,
    changing nothing else; the uploaded prefix has exactly that length
    in every reachable state. [flush] never changes the capacity, the
    stream, the cache or the next unit. [setProjection] with pending
    quads makes the same upload and the same draw before its own
    calls, and leaves no quad pending. [reset] leaves no quad pending
    either, whatever was pending: it sets [length] and [sbOffset] to 0
    and makes its own calls only, no upload and no draw among them.
    An operation on a renderer with pending quads returns, and the
    pending length is 0 after it exactly when it is [reset], [flush]
    or [setProjection]; the latter two made the draw call. *)
Theorem flush_submits_the_pending_batch :
  (forall r, Renderer.length r <= 0 -> Renderer.flush r = r)
  /\ (forall r,
        0 < Renderer.length r ->
        Renderer.flush r
        = Renderer.set_length 0
            (Renderer.set_sbOffset 0
               (Renderer.call
                  [bufferSubData ARRAY_BUFFER 0
                     (take (Z.to_nat (Renderer.length r * (ELEMENT_SIZE * ELEMENTS_PER_QUAD)))
                        (Renderer.stream r));
                   drawElements_TRIANGLES (Renderer.length r * INDICES_PER_QUAD) 0] r)))
  /\ (forall r,
        Renderer.reachable r ->
        List.length (take (Z.to_nat (Renderer.length r * (ELEMENT_SIZE * ELEMENTS_PER_QUAD)))
                       (Renderer.stream r))
        = Z.to_nat (Renderer.length r * (ELEMENT_SIZE * ELEMENTS_PER_QUAD)))
  /\ (forall r,
        Renderer.sbSize (Renderer.flush r) = Renderer.sbSize r
        /\ Renderer.stream (Renderer.flush r) = Renderer.stream r
        /\ Renderer.cache (Renderer.flush r) = Renderer.cache r
        /\ Renderer.nextUnit (Renderer.flush r) = Renderer.nextUnit r)
  /\ (forall w h r,
        0 < Renderer.length r ->
        Renderer.length (Renderer.setProjection w h r) = 0
        /\ exists cs,
             Renderer.gl (Renderer.setProjection w h r)
             = Renderer.gl r
               ++ [bufferSubData ARRAY_BUFFER 0
                     (take (Z.to_nat (Renderer.length r * (ELEMENT_SIZE * ELEMENTS_PER_QUAD)))
                        (Renderer.stream r));
                   drawElements_TRIANGLES (Renderer.length r * INDICES_PER_QUAD) 0]
               ++ cs
             /\ Forall (fun c => is_submission c = false) cs)
  /\ (forall r,
        Renderer.length (Renderer.reset r) = 0
        /\ Renderer.sbOffset (Renderer.reset r) = 0
        /\ Renderer.stream (Renderer.reset r) = Renderer.stream r
        /\ Renderer.gl (Renderer.reset r) = Renderer.gl r ++ reset_calls r
        /\ Forall (fun c => is_submission c = false) (reset_calls r)
        /\ ~ flushed r (Renderer.reset r))
  /\ (forall o r,
        Renderer.reachable r -> Renderer.length r <> 0 ->
        exists r', Renderer.exec o r = Some r'
          /\ (Renderer.length r' = 0
              <-> o = Renderer.op_reset \/ o = Renderer.op_flush
                  \/ exists w h, o = Renderer.op_setProjection w h)
          /\ (o = Renderer.op_flush \/ (exists w h, o = Renderer.op_setProjection w h) ->
              flushed r r')).
Proof.
  assert (Hflush : forall r, 0 < Renderer.length r ->
            flush_calls r
            = [bufferSubData ARRAY_BUFFER 0
                 (take (Z.to_nat (Renderer.length r * (ELEMENT_SIZE * ELEMENTS_PER_QUAD)))
                    (Renderer.stream r));
               drawElements_TRIANGLES (Renderer.length r * INDICES_PER_QUAD) 0]).
  { intros r _. unfold flush_calls. rewrite subarray_prefix. by rewrite Z.mul_assoc. }
  split; [|split; [|split; [|split; [|split; [|split]]]]].
  - apply flush_empty.
  - intros r Hpos. rewrite flush_pending by done. unfold flush_calls.
    rewrite subarray_prefix. by rewrite Z.mul_assoc.
  - intros r Hr. destruct (reachable_inv r Hr) as [[Ho Hl Hc Hp Hs] _ _ _].
    rewrite length_take. fold QUAD_SIZE. rewrite QUAD_SIZE_36 in *. lia.
  - intros r. destruct (flush_frame r) as (? & ? & ? & ? & _). tauto.
  - intros w h r Hpos.
    destruct (setProjection_frame w h r) as (Hl & _ & _ & _ & _ & _ & Hg).
    split; [rewrite Hl, flush_pending by done; reflexivity|].
    eexists. split.
    + rewrite Hg. cbn [emitted].
      replace (0 <? Renderer.length r) with true by (symmetry; by apply Z.ltb_lt).
      rewrite Hflush by done. reflexivity.
    + repeat constructor.
  - intros r. rewrite reset_eq.
    cbn [Renderer.length Renderer.sbOffset Renderer.stream Renderer.gl Renderer.call
         Renderer.set_length Renderer.set_sbOffset].
    repeat split; [apply reset_calls_others|].
    intros (cs & Hgl & Hcs). apply app_inv_head in Hgl. subst cs.
    by rewrite reset_calls_draw in Hcs.
  - intros o r Hr Hne.
    destruct (reachable_inv r Hr) as [Hok _ _ _].
    destruct (exec_total o r Hok) as (r' & Hex). exists r'. split; [exact Hex|].
    pose proof (exec_emitted o r r' Hok Hex) as Hg.
    assert (Hpos : 0 < Renderer.length r) by (destruct Hok; lia).
    assert (Hfl : (0 <? Renderer.length r) = true) by by apply Z.ltb_lt.
    assert (Hdrawn : existsb is_draw (flush_calls r) = true) by reflexivity.
    destruct o; simpl in Hex.
    + inversion Hex; subst r'. simpl. split; [split; [lia|] | ].
      * intros [Hc | [Hc | (? & ? & Hc)]]; discriminate Hc.
      * intros [Hc | (? & ? & Hc)]; discriminate Hc.
    + inversion Hex; subst r'.
      destruct (setProjection_frame w h r) as (Hl & _).
      split; [split; [intros _; right; right; eauto|] | ].
      * intros _. rewrite Hl, flush_pending by done. reflexivity.
      * intros _. eexists. split; [exact Hg|]. simpl. by rewrite Hfl.
    + inversion Hex; subst r'.
      destruct (uploadImage_buffer image r) as (Hl & _).
      split; [split; [lia|] | ].
      * intros [Hc | [Hc | (? & ? & Hc)]]; discriminate Hc.
      * intros [Hc | (? & ? & Hc)]; discriminate Hc.
    + inversion Hex; subst r'.
      split; [split; [by left | intros _; by rewrite reset_eq] | ].
      intros [Hc | (? & ? & Hc)]; discriminate Hc.
    + inversion Hex; subst r'. simpl. split; [split; [lia|] | ].
      * intros [Hc | [Hc | (? & ? & Hc)]]; discriminate Hc.
      * intros [Hc | (? & ? & Hc)]; discriminate Hc.
    + inversion Hex; subst r'.
      split; [split; [intros _; right; by left|] | ].
      * intros _. rewrite flush_pending by done. reflexivity.
      * intros _. eexists. split; [exact Hg|]. simpl. by rewrite Hfl.
    + rewrite drawImage_cases in Hex by done. inversion Hex; subst r'.
      split; [split | ].
      * destruct (transparent r); [lia|].
        destruct (write_quad_fields image a r) as (Wl & _).
        destruct (batch_ok r Hok) as [[_ Hl1 _ _ _] _]. lia.
      * intros [Hc | [Hc | (? & ? & Hc)]]; discriminate Hc.
      * intros [Hc | (? & ? & Hc)]; discriminate Hc.
    + inversion Hex; subst r'. simpl. split; [split; [lia|] | ].
      * intros [Hc | [Hc | (? & ? & Hc)]]; discriminate Hc.
      * intros [Hc | (? & ? & Hc)]; discriminate Hc.
Qed.
End CacheClaims.

(** ** The attributes of a written quad *)

Section ColorClaims.
Context {F : Type} `{JSNumber F}.
Implicit Types r : Renderer.t F.

(** An attribute of a vertex of the quad that a visible call writes. *)
Lemma drawImage_elements image a r (j i n : Z) :
  buffer_ok r -> transparent r = false ->
  0 <= j < ELEMENTS_PER_QUAD -> 0 <= i -> 0 <= n -> i + n <= ELEMENT_SIZE ->
  let r' := write_quad image a r in
  elements (((Renderer.length r' - 1) * ELEMENTS_PER_QUAD + j) * ELEMENT_SIZE + i) n
    (Renderer.stream r')
  = elements (j * ELEMENT_SIZE + i) n
      (quad (Renderer.vectors (place a r)) (Renderer.color r) image a
            (snd (Renderer.uploadImage image r))).
Proof.
  intros Hok Hvis Hj Hi Hn Hin r'.
  destruct (write_quad_stream image a r Hok) as (Ho & Hoe & Hfit & Hs & Hfit2 & _).
  destruct (write_quad_fields image a r) as (Wl & _).
  fold r' in Hs, Wl, Hfit. rewrite Hs, Wl.
  rewrite QUAD_SIZE_36 in *. unfold_consts.
  replace ((Renderer.length (batch r) + 1 - 1) * 4 + j) with (Renderer.length (batch r) * 4 + j) by lia.
  replace ((Renderer.length (batch r) * 4 + j) * (2 + 4 + 2 + 1) + i)
    with (Renderer.sbOffset (batch r) + (j * (2 + 4 + 2 + 1) + i)) by lia.
  rewrite elements_splice; rewrite ?length_quad; try lia.
  by rewrite (quad_place a _ r).
Qed.

Lemma quad_vertices (j : Z) :
  0 <= j < ELEMENTS_PER_QUAD -> j = 0 \/ j = 1 \/ j = 2 \/ j = 3.
Proof. unfold ELEMENTS_PER_QUAD. lia. Qed.

Lemma drawImage_color image a r :
  Renderer.reachable r -> transparent r = false ->
  exists r', Renderer.drawImage image a r = Some r'
    /\ forall j, 0 <= j < ELEMENTS_PER_QUAD ->
         attribute_aColor (Renderer.stream r')
           ((Renderer.length r' - 1) * ELEMENTS_PER_QUAD + j)
         = stored (Renderer.color r).
Proof.
  intros Hr Hvis. destruct (reachable_inv r Hr) as [Hok _ _ _].
  exists (write_quad image a r). split; [by apply drawImage_eq|].
  intros j Hj. unfold attribute_aColor.
  rewrite drawImage_elements; try done; try (unfold_consts; lia).
  destruct (quad_vertices j Hj) as [-> | [-> | [-> | ->]]]; reflexivity.
Qed.

(** C1, as amended. For every [drawImage] call that writes a quad, the
    color attribute of each of the 4 vertices of the quad is the draw
    color itself, each channel narrowed to single precision and not
    multiplied by alpha. The vertex shader then computes
    [vColor = (r*a, g*a, b*a, a)] from the attribute. *)
Theorem draw_color_is_stored_unchanged :
  (forall image a r,
      Renderer.reachable r -> transparent r = false ->
      exists r', Renderer.drawImage image a r = Some r'
        /\ forall j, 0 <= j < ELEMENTS_PER_QUAD ->
             attribute_aColor (Renderer.stream r')
               ((Renderer.length r' - 1) * ELEMENTS_PER_QUAD + j)
             = stored (Renderer.color r))
  /\ (forall aColor : Color F, Renderer.vColor aColor = premultiplied aColor).
Proof.
  split; [apply drawImage_color | reflexivity].
Qed.

(** The corners of a call without rotation are those of the rectangle. *)
Lemma place_rectangle a r :
  fseq (rotateAngle a) (of_Z 0) = true ->
  Renderer.vectors (place a r) = rectangle a (vectors4 (Renderer.vectors r)).
Proof. intros Hz. unfold place. by rewrite Hz. Qed.

Lemma place_rotation a r :
  fseq (rotateAngle a) (of_Z 0) = false ->
  Renderer.vectors (place a r)
  = mkVectors (vec2.transformMat3 (corner a 0) (rotation a))
              (vec2.transformMat3 (corner a 1) (rotation a))
              (vec2.transformMat3 (corner a 2) (rotation a))
              (vec2.transformMat3 (corner a 3) (rotation a))
              (fmul (fst (pivot a)) (of_Z (-1)), fmul (snd (pivot a)) (of_Z (-1))).
Proof. intros Hz. unfold place. by rewrite Hz. Qed.

Lemma quad_expected a r c image u :
  fseq (rotateAngle a) (of_Z 0) = true ->
  quad (Renderer.vectors (place a r)) c image a u = expected_quad c u image a.
Proof. intros Hz. by rewrite place_rectangle. Qed.
End ColorClaims.

(** ** The matrix of a call under exact arithmetic *)

Section Exact.
Context {F : Type} `{ExactArithmetic F}.

Add Ring exact_numbers : exact_ring.

End Exact.

(** ** Corners, and sequences of calls *)

Section GeometryClaims.
Context {F : Type} `{JSNumber F}.
Implicit Types r : Renderer.t F.



(** *** A sequence of calls *)

Lemma resolve_step image images r :
  resolve (Renderer.cache r) (Renderer.nextUnit r) (image :: images)
  = snd (Renderer.uploadImage image r)
    :: resolve (Renderer.cache (fst (Renderer.uploadImage image r)))
         (Renderer.nextUnit (fst (Renderer.uploadImage image r))) images.
Proof.
  simpl. rewrite uploadImage_eq. destruct (_ !! _); reflexivity.
Qed.

Lemma length_expected_quad c u image (a : DrawArgs F) :
  List.length (expected_quad c u image a) = 36%nat.
Proof. reflexivity. Qed.

Lemma length_resolve cache next images :
  List.length (resolve cache next images) = List.length images.
Proof.
  revert cache next. induction images as [|image images IH]; intros cache next; [done|].
  simpl. destruct (_ !! _); simpl; by rewrite IH.
Qed.

Lemma length_expected_stream c cache next (calls : list (Image * DrawArgs F)) :
  Z.of_nat (List.length (expected_stream c cache next calls))
  = Z.of_nat (List.length calls) * QUAD_SIZE.
Proof.
  unfold expected_stream. rewrite QUAD_SIZE_36.
  generalize (resolve cache next (map fst calls)) (length_resolve cache next (map fst calls)).
  rewrite length_map.
  induction calls as [|call calls IH]; intros [|u us] Hlen;
    cbn [zip_with concat List.length] in *; try lia.
  rewrite length_app, length_expected_quad.
  specialize (IH us). lia.
Qed.

Lemma run_draws (calls : list (Image * DrawArgs F)) r :
  buffer_ok r -> transparent r = false ->
  Forall (fun call => fseq (rotateAngle (snd call)) (of_Z 0) = true) calls ->
  Renderer.length r + Z.of_nat (List.length calls) <= MAX_LENGTH ->
  exists r1, Renderer.run (draws calls) r = Some r1
    /\ buffer_ok r1
    /\ Renderer.length r1 = Renderer.length r + Z.of_nat (List.length calls)
    /\ Renderer.color r1 = Renderer.color r
    /\ take (Z.to_nat (Renderer.length r1 * QUAD_SIZE)) (Renderer.stream r1)
       = take (Z.to_nat (Renderer.length r * QUAD_SIZE)) (Renderer.stream r)
         ++ expected_stream (Renderer.color r) (Renderer.cache r) (Renderer.nextUnit r) calls.
Proof.
  revert r. induction calls as [|[image a] calls IH]; intros r Hok Hvis Hrot Hcap.
  - exists r. simpl. rewrite Z.add_0_r. unfold expected_stream. simpl.
    rewrite app_nil_r. split; [done|]. split; [exact Hok|]. repeat split.
  - inversion Hrot as [|? ? Hz Hrot']; subst. simpl in Hz.
    cbn [List.length] in Hcap.
    assert (Hlt : Renderer.length r < MAX_LENGTH) by lia.
    assert (Hb : batch r = r).
    { unfold batch. destruct (MAX_LENGTH <=? Renderer.length r) eqn:E; [|done].
      apply Z.leb_le in E. lia. }
    pose proof (write_quad_ok image a r Hok) as Hok'.
    destruct (write_quad_fields image a r) as (Wl & Wo & _ & _ & Wc & _ & Wca & Wn & _).
    destruct (write_quad_stream image a r Hok) as (Ho & Hoe & Hfit & Hs & Hfit2 & Ht).
    rewrite Hb in *.
    set (r' := write_quad image a r) in *.
    assert (Hvis' : transparent r' = false) by (unfold transparent in *; by rewrite Wc).
    destruct (IH r' Hok' Hvis' Hrot') as (r1 & Hrun & Hok1 & Hl1 & Hc1 & Hst1); [lia|].
    exists r1. simpl. rewrite drawImage_eq by done. simpl. fold r'.
    split; [done|]. split; [done|]. split; [lia|]. split; [congruence|].
    rewrite Hst1. unfold expected_stream. cbn [map fst snd].
    rewrite resolve_step. cbn [zip_with concat fst snd].
    rewrite Wc, Wca, Wn, app_assoc. f_equal.
    rewrite Wl. rewrite QUAD_SIZE_36 in *.
    replace (Z.to_nat ((Renderer.length r + 1) * 36))
      with (Z.to_nat (Renderer.sbOffset r) + 36)%nat by lia.
    rewrite Hs.
    rewrite <- (length_quad (Renderer.vectors (place a (room r))) (Renderer.color r) image a
                  (snd (Renderer.uploadImage image r))) at 1.
    rewrite take_splice by (rewrite ?length_quad; lia).
    rewrite quad_expected by done. f_equal.
    rewrite <- Hoe.
    destruct (room_ok r Hok Hlt) as ([_ _ _ _ Hs2] & _ & _).
    destruct Hok as [Ho0 Hl0 Hc0 Hp0 Hs0]. rewrite QUAD_SIZE_36 in *.
    unfold room. destruct (_ <=? _); simpl; [|done].
    rewrite take_app_le; [done|]. unfold room in Hfit2.
    lia.
Qed.
End GeometryClaims.

(** C8. The index table has [MAX_LENGTH * INDICES_PER_QUAD] = 16000 * 6
    entries; entry [i] is [{0,1,2,2,1,3}[i mod 6] + (i / 6) * 4], fits
    in 16 bits because [MAX_LENGTH * 4 = 64000 <= 65536], and is one of
    the 4 vertices of quad [i / 6]. The constructor uploads the table
    once, and in every reachable state that upload is the only call
    made on the element array buffer. *)
Theorem index_table_is_static :
  Z.of_nat (List.length Renderer.createIB) = MAX_LENGTH * INDICES_PER_QUAD
  /\ MAX_LENGTH * INDICES_PER_QUAD = 16000 * 6
  /\ MAX_LENGTH * ELEMENTS_PER_QUAD = 64000
  /\ MAX_LENGTH * ELEMENTS_PER_QUAD <= 65536
  /\ (forall i,
        0 <= i < MAX_LENGTH * INDICES_PER_QUAD ->
        exists p e,
          [0; 1; 2; 2; 1; 3] !! Z.to_nat (i mod 6) = Some p
          /\ Renderer.createIB !! Z.to_nat i = Some e
          /\ e = p + i / 6 * 4
          /\ 0 <= e < 2 ^ 16
          /\ (i / 6) * ELEMENTS_PER_QUAD <= e < (i / 6 + 1) * ELEMENTS_PER_QUAD)
  /\ (forall (F : Type) (N : JSNumber F) (canvas : Canvas),
        filter (fun c => writes_indices c = true) (Renderer.gl (Renderer.new (F:=F) canvas))
        = [bufferData_indices ELEMENT_ARRAY_BUFFER Renderer.createIB STATIC_DRAW])
  /\ (forall (F : Type) (N : JSNumber F) (r : Renderer.t F),
        Renderer.reachable r ->
        filter (fun c => writes_indices c = true) (Renderer.gl r)
        = [bufferData_indices ELEMENT_ARRAY_BUFFER Renderer.createIB STATIC_DRAW]).
Proof.
  split; [apply length_createIB|]. do 3 (split; [reflexivity || (unfold_consts; lia)|]).
  split; [|split].
  - intros i Hi.
    assert (0 <= i mod 6 < 6) by (apply Z.mod_pos_bound; lia).
    assert (0 <= i / 6 < 16000).
    { unfold_consts. split; [apply Z.div_pos; lia | apply Z.div_lt_upper_bound; lia]. }
    pose proof (pattern_range (i mod 6)) as Hp.
    exists (pattern (i mod 6)), (pattern (i mod 6) + i / 6 * 4).
    split; [|split; [apply (lookup_createIB i Hi) | unfold_consts; change (2 ^ 16) with 65536; lia]].
    assert (i mod 6 = 0 \/ i mod 6 = 1 \/ i mod 6 = 2 \/ i mod 6 = 3 \/ i mod 6 = 4 \/ i mod 6 = 5)
      as Hc by lia.
    destruct Hc as [-> | [-> | [-> | [-> | [-> | ->]]]]]; reflexivity.
  - intros F N canvas. apply new_trace_ok.
  - intros F N r Hr. by destruct (reachable_inv r Hr).
Qed.

(** ** The expected stream, quad by quad *)

Section Order.
Context {F : Type} `{JSNumber F}.

Lemma quad_at_head (q rest : list F) :
  List.length q = 36%nat -> quad_at (q ++ rest) 0 = q.
Proof.
  intros Hq. unfold quad_at, elements.
  change (Z.to_nat (0 * (ELEMENT_SIZE * ELEMENTS_PER_QUAD))) with 0%nat.
  change (Z.to_nat (ELEMENT_SIZE * ELEMENTS_PER_QUAD)) with 36%nat.
  rewrite drop_0, <- Hq. apply take_app_length.
Qed.

Lemma quad_at_tail (q rest : list F) (k : Z) :
  List.length q = 36%nat -> 0 <= k -> quad_at (q ++ rest) (k + 1) = quad_at rest k.
Proof.
  intros Hq Hk. unfold quad_at, elements. f_equal.
  replace (Z.to_nat ((k + 1) * (ELEMENT_SIZE * ELEMENTS_PER_QUAD)))
    with (List.length q + Z.to_nat (k * (ELEMENT_SIZE * ELEMENTS_PER_QUAD)))%nat
    by (rewrite Hq; unfold_consts; lia).
  by rewrite drop_app_add'.
Qed.

(** The quads of the expected stream are those of the calls, in call
    order, each with the unit its image resolves to. *)
Lemma expected_stream_quad c cache next (calls : list (Image * DrawArgs F)) (k : nat) call u :
  calls !! k = Some call ->
  resolve cache next (map fst calls) !! k = Some u ->
  quad_at (expected_stream c cache next calls) (Z.of_nat k)
  = expected_quad c u (fst call) (snd call).
Proof.
  unfold expected_stream.
  generalize (resolve cache next (map fst calls)). intros units.
  revert k units. induction calls as [|call0 calls IH]; intros k units Hcall Hunit; [done|].
  destruct units as [|u0 units]; [done|].
  cbn [zip_with concat].
  destruct k as [|k].
  - injection Hcall as <-. injection Hunit as <-.
    apply quad_at_head. reflexivity.
  - replace (Z.of_nat (S k)) with (Z.of_nat k + 1) by lia.
    rewrite quad_at_tail by (reflexivity || lia).
    by apply IH.
Qed.
End Order.

(** ** The flush after a sequence of calls *)

Section Submission.
Context {F : Type} `{JSNumber F}.

Lemma flush_after_draws (calls : list (Image * DrawArgs F)) (r : Renderer.t F) :
  Renderer.reachable r -> Renderer.length r = 0 -> transparent r = false ->
  Forall (fun call => fseq (rotateAngle (snd call)) (of_Z 0) = true) calls ->
  Z.of_nat (List.length calls) < MAX_LENGTH ->
  exists r1, Renderer.run (draws calls) r = Some r1
    /\ Renderer.length r1 = Z.of_nat (List.length calls)
    /\ Renderer.gl (Renderer.flush r1)
       = Renderer.gl r1
         ++ (if Z.of_nat (List.length calls) =? 0 then []
             else [bufferSubData ARRAY_BUFFER 0
                     (expected_stream (Renderer.color r) (Renderer.cache r)
                        (Renderer.nextUnit r) calls);
                   drawElements_TRIANGLES
                     (Z.of_nat (List.length calls) * INDICES_PER_QUAD) 0])
    /\ Z.of_nat (List.length (expected_stream (Renderer.color r) (Renderer.cache r)
                                (Renderer.nextUnit r) calls))
       = Z.of_nat (List.length calls) * (ELEMENT_SIZE * ELEMENTS_PER_QUAD).
Proof.
  intros Hr Hzero Hvis Hrot Hcap. destruct (reachable_inv r Hr) as [Hok _ _ _].
  destruct (run_draws calls r Hok Hvis Hrot) as (r1 & Hrun & Hok1 & Hl1 & Hc1 & Hst1); [lia|].
  rewrite Hzero in Hl1, Hst1. rewrite Z.add_0_l in Hl1. simpl in Hst1.
  exists r1. split; [done|]. split; [done|].
  split; [|apply length_expected_stream].
  rewrite flush_gl. f_equal. rewrite Hl1.
  destruct (Z.of_nat (List.length calls) =? 0) eqn:E.
  - apply Z.eqb_eq in E. by rewrite E.
  - apply Z.eqb_neq in E.
    destruct (0 <? Z.of_nat (List.length calls)) eqn:E'; [|apply Z.ltb_ge in E'; lia].
    unfold flush_calls. rewrite subarray_prefix, Hl1, <- Hst1, Hl1.
    by rewrite <- Z.mul_assoc.
Qed.
End Submission.

(** C2. For every sequence of N [drawImage] calls without rotation,
    N below [MAX_LENGTH], made on a reachable renderer with no pending
    quad and a draw color whose alpha is not below the threshold: the
    calls return, N quads are pending, and the flush that follows
    uploads the expected stream and draws [N * 6] indices (nothing when
    N is 0). The expected stream has N quads of 36 floats, and its
    quad number k is the one of call k by the direct arithmetic of the
    inputs: corners [(x, y)], [(x+w, y)], [(x, y+h)], [(x+w, y+h)] and
    the region divided by the size of the image, as single precision
    holds them. For a 100x100 image and the region (25, 25, 50, 50) the
    texture coordinates of the corners are exactly (0.25, 0.25),
    (0.75, 0.25), (0.25, 0.75) and (0.75, 0.75). *)
Theorem draws_are_submitted_in_call_order :
  (forall (F : Type) (N : JSNumber F) (calls : list (Image * DrawArgs F)) (r : Renderer.t F),
      Renderer.reachable r -> Renderer.length r = 0 -> transparent r = false ->
      Forall (fun call => fseq (rotateAngle (snd call)) (of_Z 0) = true) calls ->
      Z.of_nat (List.length calls) < MAX_LENGTH ->
      exists r1, Renderer.run (draws calls) r = Some r1
        /\ Renderer.length r1 = Z.of_nat (List.length calls)
        /\ Renderer.gl (Renderer.flush r1)
           = Renderer.gl r1
             ++ (if Z.of_nat (List.length calls) =? 0 then []
                 else [bufferSubData ARRAY_BUFFER 0
                         (expected_stream (Renderer.color r) (Renderer.cache r)
                            (Renderer.nextUnit r) calls);
                       drawElements_TRIANGLES
                         (Z.of_nat (List.length calls) * INDICES_PER_QUAD) 0])
        /\ Z.of_nat (List.length (expected_stream (Renderer.color r) (Renderer.cache r)
                                    (Renderer.nextUnit r) calls))
           = Z.of_nat (List.length calls) * (ELEMENT_SIZE * ELEMENTS_PER_QUAD))
  /\ (forall (F : Type) (N : JSNumber F) c cache next
             (calls : list (Image * DrawArgs F)) (k : nat) call u,
        calls !! k = Some call ->
        resolve cache next (map fst calls) !! k = Some u ->
        quad_at (expected_stream c cache next calls) (Z.of_nat k)
        = expected_quad c u (fst call) (snd call))
  /\ (let q := expected_quad (mkColor 1 1 1 1)%float 0 Example.image Example.region_call in
      attribute_aRegion q 0 = [0.25; 0.25]%float
      /\ attribute_aRegion q 1 = [0.75; 0.25]%float
      /\ attribute_aRegion q 2 = [0.25; 0.75]%float
      /\ attribute_aRegion q 3 = [0.75; 0.75]%float).
Proof.
  split; [intros F N; apply flush_after_draws|].
  split; [intros F N; apply expected_stream_quad|].
  vm_compute. repeat split.
Qed.

(** C1, the claim as stated fails: with the draw color (1, 0, 0, 0.5)
    the call stores (1, 0, 0, 0.5) in the vertices of its quad, not the
    premultiplied (0.5, 0, 0, 0.5). *)
Lemma stores_premultiplied_counterexample :
  ~ stores_premultiplied Example.image Example.region_call
      (Renderer.setColor Example.half_red Example.fresh)
  /\ stored Example.half_red = [1; 0; 0; 0.5]%float
  /\ stored (premultiplied Example.half_red) = [0.5; 0; 0; 0.5]%float.
Proof.
  split; [|split; vm_compute; reflexivity].
  intros Hclaim.
  assert (Hr : Renderer.reachable (Renderer.setColor Example.half_red Example.fresh)).
  { apply (Renderer.reachable_exec (Renderer.op_setColor Example.half_red) Example.fresh);
      [apply fresh_reachable | reflexivity]. }
  assert (Hvis : transparent (Renderer.setColor Example.half_red Example.fresh) = false).
  { rewrite setColor_transparent. vm_compute. reflexivity. }
  destruct (drawImage_color Example.image Example.region_call _ Hr Hvis) as (r' & Hdraw & Hst).
  assert (Hj : 0 <= 0 < ELEMENTS_PER_QUAD) by (unfold ELEMENTS_PER_QUAD; lia).
  specialize (Hclaim r' Hdraw Hvis 0 Hj). rewrite (Hst 0 Hj) in Hclaim.
  change (Renderer.color (Renderer.setColor Example.half_red Example.fresh))
    with Example.half_red in Hclaim.
  apply (f_equal (fun l => match l with
                           | v :: _ => PrimFloat.eqb v 1%float
                           | [] => false
                           end)) in Hclaim.
  vm_compute in Hclaim. discriminate Hclaim.
Qed.

(** C7, the claim as stated fails: [reset] after one [drawImage] takes
    the pending length from 1 to 0 and makes no draw call. *)
Lemma zeroed_only_by_flush_counterexample :
  (exists r : Renderer.t float,
      Renderer.drawImage Example.image Example.region_call Example.fresh = Some r
      /\ Renderer.length r = 1
      /\ Renderer.exec Renderer.op_reset r = Some (Renderer.reset r)
      /\ Renderer.length (Renderer.reset r) = 0
      /\ ~ flushed r (Renderer.reset r))
  /\ ~ zeroed_only_by_flush (F:=float).
Proof.
  destruct (drawImage_first Example.image Example.region_call Example.canvas fresh_visible)
    as (r & Hdraw & Hone).
  assert (Hr : Renderer.reachable r).
  { apply (Renderer.reachable_exec
             (Renderer.op_drawImage Example.image Example.region_call) Example.fresh);
      [apply fresh_reachable | exact Hdraw]. }
  assert (Hzero : Renderer.length (Renderer.reset r) = 0) by by rewrite reset_eq.
  assert (Hno : ~ flushed r (Renderer.reset r)).
  { intros (cs & Hgl & Hcs).
    rewrite reset_eq in Hgl. simpl in Hgl. apply app_inv_head in Hgl. subst cs.
    by rewrite reset_calls_draw in Hcs. }
  split.
  - exists r. repeat split; assumption.
  - intros Hclaim. apply Hno.
    apply (Hclaim Renderer.op_reset r (Renderer.reset r) Hr eq_refl); [lia | exact Hzero].
Qed.






Lemma fresh_cache : Renderer.cache Example.fresh = ∅ /\ Renderer.nextUnit Example.fresh = 0.
Proof.
  unfold Example.fresh.
  destruct (new_fields (F:=float) Example.canvas) as (_ & _ & _ & _ & Hn & Hc & _).
  by split.
Qed.

Lemma fresh_length : Renderer.length Example.fresh = 0.
Proof.
  unfold Example.fresh. by destruct (new_fields (F:=float) Example.canvas) as (-> & _).
Qed.

(** A reachable renderer with a full batch. *)
Lemma full_batch :
  exists r : Renderer.t float,
    Renderer.reachable r /\ Renderer.length r = MAX_LENGTH /\ transparent r = false.
Proof.
  destruct (run_draws (replicate (Z.to_nat MAX_LENGTH) (Example.image, Example.region_call))
              Example.fresh) as (r & Hrun & _ & Hl & Hc & _).
  - apply new_buffer_ok.
  - apply fresh_visible.
  - apply Forall_replicate. vm_compute. reflexivity.
  - rewrite fresh_length, length_replicate. unfold MAX_LENGTH. lia.
  - exists r. split; [exact (run_reachable _ Example.fresh r fresh_reachable Hrun)|].
    split.
    + rewrite Hl, fresh_length, length_replicate. unfold MAX_LENGTH. lia.
    + unfold transparent in *. rewrite Hc. apply fresh_visible.
Qed.

(** A reachable renderer whose stream buffer is full: 256 quads pending
    in the capacity of 256. *)
Lemma full_buffer :
  exists r : Renderer.t float,
    Renderer.reachable r /\ Renderer.length r = 256 /\ Renderer.sbSize r = 256
    /\ transparent r = false.
Proof.
  destruct (run_draws (replicate 256 (Example.image, Example.region_call)) Example.fresh)
    as (r & Hrun & _ & Hl & Hc & _).
  - apply new_buffer_ok.
  - apply fresh_visible.
  - apply Forall_replicate. vm_compute. reflexivity.
  - rewrite fresh_length, length_replicate. unfold MAX_LENGTH. lia.
  - assert (Hsz : Renderer.sbSize Example.fresh = 256)
      by (unfold Example.fresh; by destruct (new_fields (F:=float) Example.canvas) as (_ & -> & _)).
    exists r. split; [exact (run_reachable _ Example.fresh r fresh_reachable Hrun)|].
    split; [rewrite Hl, fresh_length, length_replicate; lia|].
    split.
    + rewrite <- Hsz. apply (run_draws_capacity (replicate 256 (Example.image, Example.region_call))
               Example.fresh r); [apply new_buffer_ok | | exact Hrun].
      rewrite fresh_length, length_replicate, Hsz. lia.
    + unfold transparent in *. rewrite Hc. apply fresh_visible.
Qed.

(** A renderer with one pending quad. *)
Lemma one_pending :
  exists r : Renderer.t float,
    Renderer.reachable r /\ Renderer.length r = 1.
Proof.
  destruct (drawImage_first Example.image Example.region_call Example.canvas fresh_visible)
    as (r & Hdraw & Hone).
  exists r. split; [|done].
  apply (Renderer.reachable_exec
           (Renderer.op_drawImage Example.image Example.region_call) Example.fresh);
    [apply fresh_reachable | exact Hdraw].
Qed.

(** C1, as amended, on a new renderer: its hypotheses hold there. *)
Lemma draw_color_is_stored_unchanged_witness :
  exists r', Renderer.drawImage Example.image Example.region_call Example.fresh = Some r'
    /\ forall j, 0 <= j < ELEMENTS_PER_QUAD ->
         attribute_aColor (Renderer.stream r')
           ((Renderer.length r' - 1) * ELEMENTS_PER_QUAD + j)
         = stored (Renderer.color Example.fresh).
Proof.
  apply (proj1 (@draw_color_is_stored_unchanged float Binary64.binary64)).
  - apply Renderer.reachable_new.
  - unfold Example.fresh. rewrite new_transparent. vm_compute. reflexivity.
Defined.

(** C2 on a new renderer and the call of the 100x100 image. *)
Lemma draws_are_submitted_in_call_order_witness :
  exists r1,
    Renderer.run (draws [(Example.image, Example.region_call)]) Example.fresh = Some r1
    /\ Renderer.length r1 = 1
    /\ Renderer.gl (Renderer.flush r1)
       = Renderer.gl r1
         ++ [bufferSubData ARRAY_BUFFER 0
               (expected_stream (Renderer.color Example.fresh) (Renderer.cache Example.fresh)
                  (Renderer.nextUnit Example.fresh) [(Example.image, Example.region_call)]);
             drawElements_TRIANGLES 6 0]
    /\ Z.of_nat (List.length
                   (expected_stream (Renderer.color Example.fresh)
                      (Renderer.cache Example.fresh) (Renderer.nextUnit Example.fresh)
                      [(Example.image, Example.region_call)]))
       = 36.
Proof.
  apply (proj1 draws_are_submitted_in_call_order float Binary64.binary64
           [(Example.image, Example.region_call)] Example.fresh).
  - apply Renderer.reachable_new.
  - apply fresh_length.
  - unfold Example.fresh. rewrite new_transparent. vm_compute. reflexivity.
  - repeat constructor.
  - vm_compute. reflexivity.
Defined.

(** C3 on a new renderer with the draw color (1, 1, 1, 0). *)
Lemma transparent_draw_is_noop_witness :
  exists r',
    Renderer.drawImage Example.image Example.region_call
      (Renderer.setColor Example.clear_white Example.fresh) = Some r'
    /\ r' = Renderer.setColor Example.clear_white Example.fresh
    /\ Renderer.stream r' = Renderer.stream (Renderer.setColor Example.clear_white Example.fresh)
    /\ Renderer.gl r' = Renderer.gl (Renderer.setColor Example.clear_white Example.fresh)
    /\ Renderer.length r' = Renderer.length (Renderer.setColor Example.clear_white Example.fresh)
    /\ Renderer.sbOffset r'
       = Renderer.sbOffset (Renderer.setColor Example.clear_white Example.fresh)
    /\ Renderer.cache r' = Renderer.cache (Renderer.setColor Example.clear_white Example.fresh)
    /\ Renderer.nextUnit r'
       = Renderer.nextUnit (Renderer.setColor Example.clear_white Example.fresh).
Proof.
  apply (@transparent_draw_is_noop float Binary64.binary64).
  rewrite setColor_transparent. vm_compute. reflexivity.
Defined.

(** C4 on a reachable renderer with a full batch, and on a new one. *)
Lemma full_batch_is_flushed_first_witness :
  (exists r r' : Renderer.t float,
      Renderer.reachable r /\ Renderer.length r = MAX_LENGTH
      /\ Renderer.drawImage Example.image Example.region_call r = Some r'
      /\ Renderer.length r' = 1 /\ Renderer.sbOffset r' = QUAD_SIZE)
  /\ 0 <= Renderer.length Example.fresh <= MAX_LENGTH.
Proof.
  destruct (@full_batch_is_flushed_first float Binary64.binary64) as (Hfull & Hcap & _).
  split.
  - destruct full_batch as (r & Hr & Hl & Hvis).
    destruct (Hfull Example.image Example.region_call r Hr Hl Hvis)
      as (r' & Hdraw & _ & Hone & Hoff & _).
    exists r, r'. repeat split; assumption.
  - apply Hcap. apply Renderer.reachable_new.
Defined.

(** C5 on a new renderer and two images. *)
Lemma uploadImage_assigns_stable_units_witness :
  (exists r',
      Renderer.uploadImage Example.image Example.fresh = (r', Renderer.nextUnit Example.fresh)
      /\ Renderer.cache r'
         = <[handle Example.image := Renderer.nextUnit Example.fresh]>
             (Renderer.cache Example.fresh)
      /\ Renderer.nextUnit r' = Renderer.nextUnit Example.fresh + 1)
  /\ Renderer.nextUnit Example.fresh = Z.of_nat (size (Renderer.cache Example.fresh))
  /\ snd (uploadImages [Example.image; Example.move] Example.fresh) = Renderer.range 2.
Proof.
  destruct (@uploadImage_assigns_stable_units float Binary64.binary64)
    as (_ & Hmiss & Hreach & _ & Hseq).
  split; [|split].
  - destruct (Hmiss Example.image Example.fresh) as (r' & Hup & _ & _ & Hc & Hn).
    + destruct fresh_cache as [-> _]. apply lookup_empty.
    + exists r'. repeat split; assumption.
  - apply Hreach, Renderer.reachable_new.
  - apply (Hseq Example.canvas [Example.image; Example.move]).
    cbn [map handle Example.image Example.move].
    apply NoDup_cons. split; [|apply NoDup_singleton].
    rewrite list_elem_of_singleton. discriminate.
Defined.

(** C6 on a renderer with 256 pending quads: the next call doubles the
    capacity and keeps the 256 quads. *)
Lemma capacity_doubles_and_keeps_the_quads_witness :
  exists r r' : Renderer.t float,
    Renderer.reachable r /\ Renderer.length r = 256 /\ Renderer.sbSize r = 256
    /\ Renderer.drawImage Example.image Example.region_call r = Some r'
    /\ Renderer.sbSize r' = 512 /\ Renderer.length r' = 257
    /\ forall k, 0 <= k < 256 ->
         quad_at (Renderer.stream r') k = quad_at (Renderer.stream r) k.
Proof.
  destruct full_buffer as (r & Hr & Hl & Hsz & Hvis).
  destruct (@capacity_doubles_and_keeps_the_quads float Binary64.binary64)
    as (_ & _ & _ & _ & Hgrow).
  destruct (Hgrow Example.image Example.region_call r Hr) as (r' & Hdraw & Hsz' & Hl' & Hq).
  - cbn [overflows]. rewrite Hvis. unfold batch. rewrite Hl, Hsz.
    change (MAX_LENGTH <=? 256) with false. cbv iota. rewrite Hl. reflexivity.
  - exists r, r'. rewrite Hsz in Hsz'. rewrite Hl in Hl', Hq.
    repeat split; try assumption.
Defined.

(** C7, as amended, on a renderer with one pending quad. *)
Lemma flush_submits_the_pending_batch_witness :
  exists r : Renderer.t float,
    Renderer.reachable r /\ Renderer.length r = 1
    /\ Renderer.flush r
       = Renderer.set_length 0
           (Renderer.set_sbOffset 0
              (Renderer.call
                 [bufferSubData ARRAY_BUFFER 0 (take 36 (Renderer.stream r));
                  drawElements_TRIANGLES 6 0] r))
    /\ List.length (take 36 (Renderer.stream r)) = 36%nat
    /\ Renderer.length (Renderer.reset r) = 0
    /\ Renderer.gl (Renderer.reset r) = Renderer.gl r ++ reset_calls r
    /\ Forall (fun c => is_submission c = false) (reset_calls r)
    /\ Renderer.length (Renderer.setProjection 800%float 600%float r) = 0.
Proof.
  destruct one_pending as (r & Hr & Hone).
  destruct (@flush_submits_the_pending_batch float Binary64.binary64)
    as (_ & Hpending & Hprefix & _ & Hproj & Hreset & _).
  assert (Hpos : 0 < Renderer.length r) by (rewrite Hone; lia).
  specialize (Hpending r Hpos). specialize (Hprefix r Hr).
  destruct (Hreset r) as (Hz & _ & _ & Hgl & Hno & _).
  destruct (Hproj 800%float 600%float r Hpos) as (Hzp & _).
  rewrite Hone in Hpending, Hprefix.
  exists r. repeat split; assumption.
Defined.

(** C8 at entry 7 and on a new renderer. *)
Lemma index_table_is_static_witness :
  (exists p e,
      [0; 1; 2; 2; 1; 3] !! Z.to_nat (7 mod 6) = Some p
      /\ Renderer.createIB !! Z.to_nat 7 = Some e
      /\ e = p + 7 / 6 * 4
      /\ 0 <= e < 2 ^ 16
      /\ (7 / 6) * ELEMENTS_PER_QUAD <= e < (7 / 6 + 1) * ELEMENTS_PER_QUAD)
  /\ filter (fun c => writes_indices c = true) (Renderer.gl Example.fresh)
     = [bufferData_indices ELEMENT_ARRAY_BUFFER Renderer.createIB STATIC_DRAW].
Proof.
  destruct index_table_is_static as (_ & _ & _ & _ & Hentry & _ & Hstatic).
  split.
  - apply Hentry. unfold MAX_LENGTH, INDICES_PER_QUAD. lia.
  - apply (Hstatic float Binary64.binary64 Example.fresh), Renderer.reachable_new.
Defined.


(** C10 on a new renderer. *)
Lemma offset_is_length_times_quad_size_witness :
  Renderer.sbOffset Example.fresh
  = Renderer.length Example.fresh * (ELEMENT_SIZE * ELEMENTS_PER_QUAD)
  /\ (exists r',
        Renderer.drawImage Example.image Example.region_call Example.fresh = Some r'
        /\ Renderer.sbOffset r' = Renderer.length r' * (ELEMENT_SIZE * ELEMENTS_PER_QUAD)).
Proof.
  destruct (@offset_is_length_times_quad_size float Binary64.binary64)
    as (_ & _ & Hreach & _ & _ & Hdraw & _).
  split.
  - apply Hreach, Renderer.reachable_new.
  - apply Hdraw, Renderer.reachable_new.
Defined.

(** * Further properties *)

(** ** No operation raises; the capacity stays bounded *)

Section Safety.
Context {F : Type} `{JSNumber F}.
Implicit Types r : Renderer.t F.

Lemma run_total (os : list (Renderer.Op F)) r :
  Renderer.reachable r ->
  exists r', Renderer.run os r = Some r' /\ Renderer.reachable r'.
Proof.
  revert r. induction os as [|o os IH]; intros r Hr; simpl.
  - by exists r.
  - destruct (reachable_inv r Hr) as [Hok _ _ _].
    destruct (exec_total o r Hok) as [r1 Hex]. rewrite Hex. simpl.
    apply IH. by apply (Renderer.reachable_exec o r).
Qed.

(** X1. Whatever operations a program runs on a new renderer, in
    whatever order, every one of them returns: no [Float32Array.set]
    and no [new Float32Array] of the renderer raises a [RangeError]. *)
Theorem no_operation_raises canvas (os : list (Renderer.Op F)) :
  exists r, Renderer.run os (Renderer.new canvas) = Some r /\ Renderer.reachable r.
Proof. apply run_total, Renderer.reachable_new. Qed.

(** X2. In every reachable state the capacity [sbSize] lies between
    256 and 16384 quads, the pending quads fit in it, and the stream
    array has exactly [sbSize * 36] floats, at most 589824. No
    operation lowers the capacity: neither [flush] nor [reset] gives
    the grown array back. *)
Theorem capacity_is_bounded :
  (forall r,
      Renderer.reachable r ->
      256 <= Renderer.sbSize r <= 16384
      /\ Renderer.length r <= Renderer.sbSize r
      /\ Z.of_nat (List.length (Renderer.stream r))
         = Renderer.sbSize r * (ELEMENT_SIZE * ELEMENTS_PER_QUAD)
      /\ Z.of_nat (List.length (Renderer.stream r)) <= 589824)
  /\ (forall o r r',
        Renderer.reachable r -> Renderer.exec o r = Some r' ->
        Renderer.sbSize r <= Renderer.sbSize r').
Proof.
  assert (Hpow : forall r, buffer_ok r -> 256 <= Renderer.sbSize r <= 16384).
  { intros r [_ _ _ (k & Hk & ->) _].
    change 256 with (2 ^ 8). change 16384 with (2 ^ 14).
    split; apply Z.pow_le_mono_r; lia. }
  split.
  - intros r Hr. destruct (reachable_inv r Hr) as [Hok _ _ _].
    pose proof (Hpow r Hok) as Hb. destruct Hok as [_ _ Hc _ Hs].
    fold QUAD_SIZE. rewrite QUAD_SIZE_36 in *. repeat split; lia.
  - intros o r r' Hr Hex. destruct (reachable_inv r Hr) as [Hok _ _ _].
    rewrite (exec_sbSize o r r' Hok Hex). pose proof (Hpow r Hok).
    destruct (overflows o r); lia.
Qed.
End Safety.

(** ** Uploads and draws *)

Section Batches.
Context {F : Type} `{JSNumber F}.
Implicit Types r : Renderer.t F.

Lemma batched_others (cs cs' : list (GLCall F)) :
  batched cs -> Forall (fun c => is_submission c = false) cs' -> batched (cs ++ cs').
Proof.
  intros Hb Hcs'. revert cs Hb. induction Hcs' as [|c cs' Hc _ IH]; intros cs Hb.
  - by rewrite app_nil_r.
  - rewrite (cons_middle c), app_assoc. apply IH. by apply batched_call.
Qed.

Lemma batched_flush r (b : bool) (cs : list (GLCall F)) :
  buffer_ok r -> (b = true -> 0 < Renderer.length r) -> batched cs ->
  batched (cs ++ (if b then flush_calls r else [])).
Proof.
  intros [Ho Hl Hc Hp Hs] Hb Hcs. destruct b; [|by rewrite app_nil_r].
  unfold flush_calls. rewrite subarray_prefix.
  apply batched_batch; [done | |].
  - specialize (Hb eq_refl). lia.
  - rewrite length_take. specialize (Hb eq_refl).
    rewrite QUAD_SIZE_36 in *. unfold_consts. lia.
Qed.

Lemma upload_others image r :
  Forall (fun c => is_submission c = false)
    (match Renderer.cache r !! handle image with
     | Some _ => []
     | None => upload_calls (F:=F) image (Renderer.nextUnit r)
     end).
Proof. destruct (_ !! _); repeat constructor. Qed.

Lemma emitted_batched (o : Renderer.Op F) r (cs : list (GLCall F)) :
  buffer_ok r -> batched cs -> batched (cs ++ emitted o r).
Proof.
  intros Hok Hcs. destruct o; simpl.
  - apply batched_others; [done | repeat constructor].
  - rewrite app_assoc. apply batched_others; [|repeat constructor].
    apply batched_flush; [done | apply Z.ltb_lt | done].
  - apply batched_others; [done | apply upload_others].
  - apply batched_others; [done | apply reset_calls_others].
  - apply batched_others; [done | repeat constructor].
  - apply batched_flush; [done | apply Z.ltb_lt | done].
  - destruct (transparent r); [by rewrite app_nil_r|].
    rewrite app_assoc. apply batched_others; [|apply upload_others].
    apply batched_flush; [done | | done].
    intros E. apply Z.leb_le in E. unfold MAX_LENGTH in E. lia.
  - by rewrite app_nil_r.
Qed.

Lemma new_others canvas :
  Forall (fun c => is_submission c = false) (Renderer.gl (Renderer.new (F:=F) canvas)).
Proof.
  rewrite new_gl. generalize (@Renderer.createIB). intros ib.
  pose proof (reset_calls_others (Renderer.new canvas)) as Hr.
  unfold reset_calls in Hr.
  destruct (new_fields canvas) as (_ & _ & _ & _ & _ & _ & _ & Hm). rewrite Hm in Hr.
  apply Forall_app. split; [repeat constructor|].
  apply Forall_app. split; [done | repeat constructor].
Qed.

Lemma reachable_batched r : Renderer.reachable r -> batched (Renderer.gl r).
Proof.
  induction 1 as [canvas | o r r' Hr IH Hex].
  - rewrite <- (app_nil_l (Renderer.gl (Renderer.new canvas))).
    apply batched_others; [apply batched_nil | apply new_others].
  - destruct (reachable_inv r Hr) as [Hok _ _ _].
    rewrite (exec_emitted o r r' Hok Hex). by apply emitted_batched.
Qed.

(** X3. In the trace of every reachable state vertex data moves by
    whole batches only: each [bufferSubData] goes to offset 0 of the
    array buffer with the records of [n] quads, [1 <= n <= MAX_LENGTH],
    and the call directly after it is the [drawElements] of exactly
    the [n * 6] indices of those quads; no [drawElements] stands
    without that upload before it. *)
Theorem uploads_and_draws_come_in_pairs r :
  Renderer.reachable r -> batched (Renderer.gl r).
Proof. apply reachable_batched. Qed.

Lemma batched_uploads (cs : list (GLCall F)) :
  batched cs ->
  forall target offset data,
    In (bufferSubData target offset data) cs ->
    target = ARRAY_BUFFER /\ offset = 0
    /\ 0 < Z.of_nat (List.length data)
    /\ Z.of_nat (List.length data) * BYTES_PER_ELEMENT
       <= MAX_LENGTH * ELEMENT_OFFSET * ELEMENTS_PER_QUAD.
Proof.
  induction 1 as [|cs c Hb IH Hc|cs data n Hb IH Hn Hlen]; intros target offset d Hin.
  - destruct Hin.
  - apply in_app_or in Hin as [Hin | [Heq | []]]; [by apply IH|].
    subst c. discriminate Hc.
  - apply in_app_or in Hin as [Hin | [Heq | [Heq | []]]]; [by apply IH | | done].
    injection Heq as E1 E2 E3. subst target offset d.
    rewrite QUAD_SIZE_36 in *. unfold_consts. repeat split; try done; lia.
Qed.

Lemma emitted_allocation (o : Renderer.Op F) r :
  filter (fun c => is_allocation c = true) (emitted o r) = [].
Proof.
  assert (Hfl : forall b : bool,
             filter (fun c => is_allocation c = true)
               (if b then flush_calls r else []) = []) by (by intros [|]).
  assert (Hup : forall image,
             filter (fun c => is_allocation c = true)
               (match Renderer.cache r !! handle image with
                | Some _ => []
                | None => upload_calls (F:=F) image (Renderer.nextUnit r)
                end) = []) by (intros image; by destruct (_ !! _)).
  destruct o; simpl; rewrite ?filter_app, ?Hfl, ?Hup; try reflexivity.
  - unfold reset_calls. generalize (Renderer.range (Renderer.maxTextures r)). intros l.
    rewrite filter_cons_False by (simpl; congruence).
    induction l; simpl; [done|]. by rewrite !filter_cons_False by (simpl; congruence).
  - by destruct (transparent r); rewrite ?filter_app, ?Hfl, ?Hup.
Qed.

Lemma new_allocation canvas :
  filter (fun c => is_allocation c = true) (Renderer.gl (Renderer.new (F:=F) canvas))
  = [bufferData_size ARRAY_BUFFER (MAX_LENGTH * ELEMENT_OFFSET * ELEMENTS_PER_QUAD) STREAM_DRAW].
Proof.
  rewrite new_gl. generalize (@Renderer.createIB). intros ib.
  pose proof (emitted_allocation Renderer.op_reset (Renderer.new (F:=F) canvas)) as Hr.
  simpl in Hr. unfold reset_calls in Hr.
  destruct (new_fields (F:=F) canvas) as (_ & _ & _ & _ & _ & _ & _ & Hm). rewrite Hm in Hr.
  rewrite !filter_app, Hr. reflexivity.
Qed.

(** X4. The constructor allocates the vertex buffer of the context
    once, with [MAX_LENGTH * ELEMENT_OFFSET * ELEMENTS_PER_QUAD] =
    2304000 bytes, and no operation allocates again. Every upload made
    in a reachable trace goes to that buffer at offset 0 and is not
    empty and not longer than the buffer (4 bytes a float). *)
Theorem uploads_fit_the_vertex_buffer r :
  Renderer.reachable r ->
  filter (fun c => is_allocation c = true) (Renderer.gl r)
  = [bufferData_size ARRAY_BUFFER 2304000 STREAM_DRAW]
  /\ forall target offset data,
       In (bufferSubData target offset data) (Renderer.gl r) ->
       target = ARRAY_BUFFER /\ offset = 0
       /\ 0 < Z.of_nat (List.length data) * BYTES_PER_ELEMENT <= 2304000.
Proof.
  intros Hr. split.
  - induction Hr as [canvas | o r r' Hr IH Hex]; [apply new_allocation|].
    destruct (reachable_inv r Hr) as [Hok _ _ _].
    by rewrite (exec_emitted o r r' Hok Hex), filter_app, IH, emitted_allocation.
  - intros target offset data Hin.
    destruct (batched_uploads _ (reachable_batched r Hr) _ _ _ Hin) as (? & ? & ? & ?).
    unfold_consts. repeat split; try done; lia.
Qed.

(** X5. [flush] is idempotent, and a [flush] directly after [reset] or
    after [setProjection] does nothing: those operations leave no quad
    pending. *)
Theorem flush_is_idempotent r (w h : F) :
  Renderer.flush (Renderer.flush r) = Renderer.flush r
  /\ Renderer.flush (Renderer.reset r) = Renderer.reset r
  /\ Renderer.flush (Renderer.setProjection w h r) = Renderer.setProjection w h r.
Proof.
  assert (Hfl : forall r, Renderer.length (Renderer.flush r) <= 0).
  { intros r0. rewrite flush_eq. destruct (0 <? _) eqn:E; simpl; [lia | by apply Z.ltb_ge]. }
  split; [|split].
  - apply flush_empty, Hfl.
  - apply flush_empty. rewrite reset_eq. simpl. lia.
  - apply flush_empty.
    destruct (setProjection_frame w h r) as (-> & _). apply Hfl.
Qed.

Lemma emitted_submission (o : Renderer.Op F) r :
  filter (fun c => is_submission c = true) (emitted o r)
  = if submits o r then flush_calls r else [].
Proof.
  assert (Hup : forall image,
             filter (fun c => is_submission c = true)
               (match Renderer.cache r !! handle image with
                | Some _ => []
                | None => upload_calls (F:=F) image (Renderer.nextUnit r)
                end) = []) by (intros image; by destruct (_ !! _)).
  destruct o; simpl; try reflexivity.
  - rewrite filter_app. simpl. rewrite app_nil_r. by destruct (0 <? _).
  - apply Hup.
  - unfold reset_calls. generalize (Renderer.range (Renderer.maxTextures r)). intros l.
    rewrite filter_cons_False by (simpl; congruence).
    induction l; simpl; [done|]. by rewrite !filter_cons_False by (simpl; congruence).
  - by destruct (0 <? _).
  - destruct (transparent r); [done|]. simpl.
    rewrite filter_app, Hup, app_nil_r. by destruct (_ <=? _).
Qed.

(** X6. An operation uploads and draws exactly when it is [flush] or
    [setProjection] with quads pending, or a [drawImage] that writes a
    quad while [MAX_LENGTH] quads are pending; it then uploads the
    [length * 36] floats at the front of the stream and draws
    [length * 6] indices, once. [setClearColor], [clear],
    [uploadImage], [reset] and every other [drawImage] make no upload
    and no draw. *)
Theorem draw_calls_are_made_by_submitting_operations (o : Renderer.Op F) r r' :
  Renderer.reachable r -> Renderer.exec o r = Some r' ->
  exists cs,
    Renderer.gl r' = Renderer.gl r ++ cs
    /\ filter (fun c => is_submission c = true) cs
       = (if submits o r
          then [bufferSubData ARRAY_BUFFER 0
                  (take (Z.to_nat (Renderer.length r * QUAD_SIZE)) (Renderer.stream r));
                drawElements_TRIANGLES (Renderer.length r * INDICES_PER_QUAD) 0]
          else []).
Proof.
  intros Hr Hex. destruct (reachable_inv r Hr) as [Hok _ _ _].
  exists (emitted o r). split; [by apply exec_emitted|].
  rewrite emitted_submission. destruct (submits o r); [|done].
  unfold flush_calls. rewrite subarray_prefix. unfold QUAD_SIZE.
  by rewrite Z.mul_assoc.
Qed.

(** X7. An operation that neither submits the batch nor is [reset]
    keeps every pending quad: the pending length does not fall, and
    the floats of the pending quads at the front of the stream are
    the same after it, also when the stream array is replaced by a
    larger one. *)
Theorem pending_quads_are_kept (o : Renderer.Op F) r r' :
  Renderer.reachable r -> Renderer.exec o r = Some r' ->
  submits o r = false -> is_reset o = false ->
  Renderer.length r <= Renderer.length r'
  /\ take (Z.to_nat (Renderer.length r * QUAD_SIZE)) (Renderer.stream r')
     = take (Z.to_nat (Renderer.length r * QUAD_SIZE)) (Renderer.stream r).
Proof.
  intros Hr Hex Hns Hnr. destruct (reachable_inv r Hr) as [Hok _ _ _].
  destruct o; simpl in Hex, Hns; try discriminate Hnr.
  - by inversion Hex.
  - inversion Hex. destruct (setProjection_frame w h r) as (-> & _ & _ & -> & _).
    rewrite flush_empty by (by apply Z.ltb_ge). done.
  - inversion Hex. by destruct (uploadImage_buffer image r) as (-> & _ & _ & -> & _).
  - by inversion Hex.
  - inversion Hex. rewrite flush_empty by (by apply Z.ltb_ge). done.
  - rewrite drawImage_cases in Hex by done. inversion Hex.
    destruct (transparent r); [done|]. simpl in Hns.
    assert (Hb : batch r = r) by (unfold batch; by rewrite Hns).
    destruct (write_quad_fields image a r) as (-> & _).
    destruct (write_quad_stream image a r Hok) as (_ & Ho & _ & _ & _ & Ht).
    rewrite Hb in *. rewrite <- Ho. split; [lia | done].
  - by inversion Hex.
Qed.
End Batches.

(** ** Every written quad is drawn once *)

Section Conservation.
Context {F : Type} `{JSNumber F}.
Implicit Types r : Renderer.t F.

Lemma indices_drawn_app (cs cs' : list (GLCall F)) :
  indices_drawn (cs ++ cs') = indices_drawn cs + indices_drawn cs'.
Proof.
  unfold indices_drawn. induction cs as [|c cs IH]; simpl; [done|].
  rewrite IH. destruct c; lia.
Qed.

Lemma indices_drawn_others (cs : list (GLCall F)) :
  Forall (fun c => is_submission c = false) cs -> indices_drawn cs = 0.
Proof.
  induction 1 as [|c cs Hc _ IH]; [done|]. unfold indices_drawn in *. simpl.
  rewrite IH. by destruct c.
Qed.

Lemma indices_drawn_emitted (o : Renderer.Op F) r :
  indices_drawn (emitted o r)
  = if submits o r then Renderer.length r * INDICES_PER_QUAD else 0.
Proof.
  assert (Hup : forall image,
             indices_drawn (match Renderer.cache r !! handle image with
                            | Some _ => []
                            | None => upload_calls (F:=F) image (Renderer.nextUnit r)
                            end) = 0) by (intros image; by destruct (_ !! _)).
  destruct o; cbn [emitted submits]; try reflexivity.
  - rewrite indices_drawn_app. destruct (0 <? _); simpl; unfold indices_drawn; simpl; lia.
  - apply Hup.
  - apply indices_drawn_others, reset_calls_others.
  - destruct (0 <? _); unfold indices_drawn; simpl; lia.
  - destruct (transparent r); [done|]. simpl.
    rewrite indices_drawn_app, Hup.
    destruct (_ <=? _); unfold indices_drawn; simpl; lia.
Qed.

Lemma exec_length (o : Renderer.Op F) r r' :
  buffer_ok r -> Renderer.exec o r = Some r' ->
  Renderer.length r'
  = (if is_reset o || submits o r then 0 else Renderer.length r)
    + (if writes o r then 1 else 0).
Proof.
  intros Hok Hex. pose proof Hok as [_ Hl _ _ _].
  assert (Hfl : Renderer.length (Renderer.flush r)
                = if 0 <? Renderer.length r then 0 else Renderer.length r).
  { rewrite flush_eq. by destruct (0 <? _). }
  destruct o; simpl in Hex; simpl.
  - inversion Hex. simpl. lia.
  - inversion Hex. destruct (setProjection_frame w h r) as (-> & _). rewrite Hfl.
    destruct (0 <? _); lia.
  - inversion Hex. destruct (uploadImage_buffer image r) as (-> & _). lia.
  - inversion Hex. rewrite reset_eq. simpl. lia.
  - inversion Hex. simpl. lia.
  - inversion Hex. rewrite Hfl. destruct (0 <? _); lia.
  - rewrite drawImage_cases in Hex by done. inversion Hex.
    destruct (transparent r); simpl; [lia|].
    destruct (write_quad_fields image a r) as (-> & _).
    unfold batch. destruct (MAX_LENGTH <=? Renderer.length r) eqn:E; [|lia].
    rewrite Hfl. apply Z.leb_le in E.
    destruct (0 <? _) eqn:E'; [lia | apply Z.ltb_ge in E'; unfold MAX_LENGTH in E; lia].
  - inversion Hex. simpl. lia.
Qed.

Lemma exec_conserves (o : Renderer.Op F) r r' :
  buffer_ok r -> Renderer.exec o r = Some r' ->
  indices_drawn (Renderer.gl r') + Renderer.length r' * INDICES_PER_QUAD
  = indices_drawn (Renderer.gl r)
    + (if is_reset o then 0 else Renderer.length r * INDICES_PER_QUAD)
    + (if writes o r then INDICES_PER_QUAD else 0).
Proof.
  intros Hok Hex.
  rewrite (exec_emitted o r r' Hok Hex), indices_drawn_app, indices_drawn_emitted.
  rewrite (exec_length o r r' Hok Hex).
  assert (Hrs : is_reset o = true -> submits o r = false) by (by destruct o).
  destruct (is_reset o); [rewrite Hrs by done|]; simpl;
    destruct (submits o r), (writes o r); unfold INDICES_PER_QUAD; lia.
Qed.

Lemma run_conserves (os : list (Renderer.Op F)) r r' :
  inv r -> existsb is_reset os = false -> Renderer.run os r = Some r' ->
  indices_drawn (Renderer.gl r') + Renderer.length r' * INDICES_PER_QUAD
  = indices_drawn (Renderer.gl r) + Renderer.length r * INDICES_PER_QUAD
    + written os r * INDICES_PER_QUAD.
Proof.
  revert r. induction os as [|o os IH]; intros r Hinv Hnr Hrun; simpl in Hrun.
  - injection Hrun as <-. simpl. lia.
  - simpl in Hnr. apply orb_false_iff in Hnr as [Hno Hnos].
    cbn [written].
    destruct (Renderer.exec o r) as [r1|] eqn:E; [|done]. simpl in Hrun.
    rewrite (IH r1) by (try done; by apply (exec_inv o r)).
    destruct Hinv as [Hok _ _ _].
    rewrite (exec_conserves o r r1 Hok E), Hno.
    destruct (writes o r); lia.
Qed.

(** X8. Quads are conserved. Over every operation the indices drawn so
    far plus 6 for each pending quad grow by 6 when the operation
    writes a quad and stay the same otherwise, except that [reset]
    drops the pending quads undrawn. Hence after any run without
    [reset] on a new renderer, the indices drawn plus 6 times the
    pending length are 6 times the number of quads written, and the
    [flush] after the run brings the indices drawn to exactly that
    number: every quad written is drawn, once. *)
Theorem every_written_quad_is_drawn_once :
  (forall o r r',
      Renderer.reachable r -> Renderer.exec o r = Some r' ->
      indices_drawn (Renderer.gl r') + Renderer.length r' * INDICES_PER_QUAD
      = indices_drawn (Renderer.gl r)
        + (if is_reset o then 0 else Renderer.length r * INDICES_PER_QUAD)
        + (if writes o r then INDICES_PER_QUAD else 0))
  /\ (forall canvas os r,
        Renderer.run os (Renderer.new canvas) = Some r ->
        existsb is_reset os = false ->
        indices_drawn (Renderer.gl r) + Renderer.length r * INDICES_PER_QUAD
        = written os (Renderer.new canvas) * INDICES_PER_QUAD
        /\ indices_drawn (Renderer.gl (Renderer.flush r))
           = written os (Renderer.new canvas) * INDICES_PER_QUAD).
Proof.
  split.
  - intros o r r' Hr Hex. destruct (reachable_inv r Hr) as [Hok _ _ _].
    by apply exec_conserves.
  - intros canvas os r Hrun Hnr.
    pose proof (run_conserves os _ r (new_inv canvas) Hnr Hrun) as Hc.
    rewrite (indices_drawn_others _ (new_others canvas)) in Hc.
    destruct (new_fields (F:=F) canvas) as (Hl & _). rewrite Hl in Hc.
    split; [lia|].
    pose proof (run_inv os _ r (new_inv canvas) Hrun) as [[_ Hlen _ _ _] _ _ _].
    rewrite flush_gl, indices_drawn_app.
    assert (Hfl : indices_drawn (flush_calls r) = Renderer.length r * INDICES_PER_QUAD)
      by (unfold indices_drawn, flush_calls; simpl; lia).
    unfold INDICES_PER_QUAD in *.
    destruct (0 <? Renderer.length r) eqn:E; [lia|].
    apply Z.ltb_ge in E. change (indices_drawn (@nil (GLCall F))) with 0. lia.
Qed.
End Conservation.

(** ** The growth of the stream at the edge of 32-bit integers *)

Section Growth.
Context {F : Type} `{JSNumber F}.
Implicit Types r : Renderer.t F.

Lemma shl_one (n : Z) :
  0 <= n < 2 ^ 31 ->
  shl n 1 = if n <? 2 ^ 30 then 2 * n else 2 * n - 2 ^ 32.
Proof.
  intros Hn. unfold shl. rewrite (ToInt32_small n) by lia.
  change (1 mod 32) with 1. rewrite Z.shiftl_mul_pow2 by lia.
  change (2 ^ 1) with 2. change (2 ^ 31) with 2147483648 in *.
  change (2 ^ 30) with 1073741824. change (2 ^ 32) with 4294967296.
  unfold ToInt32. change (2 ^ 31) with 2147483648. change (2 ^ 32) with 4294967296.
  destruct (n <? 1073741824) eqn:E.
  - apply Z.ltb_lt in E. rewrite Z.mod_small; lia.
  - apply Z.ltb_ge in E.
    rewrite <- (Z.mod_unique (n * 2 + 2147483648) 4294967296 1 (n * 2 - 2147483648)); lia.
Qed.

(** X9. [sbSize <<= 1] is a 32-bit operation. Below 2^30 it doubles
    the capacity. From 2^30 on it wraps to the negative number
    [2 * sbSize - 2^32], and [resizeSB] then raises [RangeError] for
    the negative length of the new array. The capacity of a reachable
    renderer is at most 2^14, so that the shift doubles it. *)
Theorem resizeSB_wraps_at_two_to_the_30 :
  (forall n, 0 <= n < 2 ^ 30 -> shl n 1 = 2 * n)
  /\ (forall n, 2 ^ 30 <= n < 2 ^ 31 -> shl n 1 = 2 * n - 2 ^ 32 /\ shl n 1 < 0)
  /\ (forall r, 2 ^ 30 <= Renderer.sbSize r < 2 ^ 31 -> Renderer.resizeSB r = None)
  /\ (forall r,
        Renderer.reachable r ->
        Renderer.sbSize r <= 2 ^ 14 /\ shl (Renderer.sbSize r) 1 = 2 * Renderer.sbSize r).
Proof.
  assert (Hlow : forall n, 0 <= n < 2 ^ 30 -> shl n 1 = 2 * n).
  { intros n Hn. rewrite shl_one by (change (2 ^ 30) with 1073741824 in Hn;
                                     change (2 ^ 31) with 2147483648; lia).
    destruct (n <? 2 ^ 30) eqn:E; [done | apply Z.ltb_ge in E; lia]. }
  assert (Hhigh : forall n, 2 ^ 30 <= n < 2 ^ 31 -> shl n 1 = 2 * n - 2 ^ 32 /\ shl n 1 < 0).
  { intros n Hn. rewrite shl_one by (change (2 ^ 30) with 1073741824 in Hn; lia).
    destruct (n <? 2 ^ 30) eqn:E; [apply Z.ltb_lt in E; lia|].
    split; [done|]. change (2 ^ 31) with 2147483648 in Hn.
    change (2 ^ 32) with 4294967296. lia. }
  split; [exact Hlow | split; [exact Hhigh | split]].
  - intros r Hs. destruct (Hhigh _ Hs) as [_ Hneg].
    unfold Renderer.resizeSB. cbv zeta.
    cbn [Renderer.sbSize Renderer.set_sbSize Renderer.stream].
    unfold Float32Array.of_length.
    destruct (_ <? 0) eqn:E; [done|]. apply Z.ltb_ge in E. unfold_consts. lia.
  - intros r Hr. destruct (reachable_inv r Hr) as [[_ _ _ (k & Hk & Hp) _] _ _ _].
    assert (Hle : Renderer.sbSize r <= 2 ^ 14)
      by (rewrite Hp; apply Z.pow_le_mono_r; lia).
    split; [exact Hle|]. apply Hlow.
    assert (0 < 2 ^ k) by (apply Z.pow_pos_nonneg; lia).
    change (2 ^ 14) with 16384 in Hle. change (2 ^ 30) with 1073741824. lia.
Qed.
End Growth.

(** ** The quad of any call, rotated or not *)

Section WrittenQuads.
Context {F : Type} `{JSNumber F}.
Implicit Types r : Renderer.t F.

Lemma drawImage_region image a r :
  Renderer.reachable r -> transparent r = false ->
  exists r', Renderer.drawImage image a r = Some r'
    /\ forall j, 0 <= j < ELEMENTS_PER_QUAD ->
         let v := (Renderer.length r' - 1) * ELEMENTS_PER_QUAD + j in
         attribute_aRegion (Renderer.stream r') v
         = [fround (fst (uv image a j)); fround (snd (uv image a j))]
         /\ attribute_aTexture (Renderer.stream r') v
            = [fround (of_Z (snd (Renderer.uploadImage image r)))].
Proof.
  intros Hr Hvis. destruct (reachable_inv r Hr) as [Hok _ _ _].
  exists (write_quad image a r). split; [by apply drawImage_eq|].
  intros j Hj v. subst v. unfold attribute_aRegion, attribute_aTexture.
  rewrite !drawImage_elements; try done; try (unfold_consts; lia).
  destruct (quad_vertices j Hj) as [-> | [-> | [-> | ->]]]; split; reflexivity.
Qed.

(** X10. For every [drawImage] call that writes a quad, with or
    without rotation: vertex [j] of the quad holds the texture
    coordinates of corner [j] of the region, in the winding order
    left-top, right-top, left-bottom, right-bottom, each the pixel
    coordinate divided by the natural size of the image; and all four
    vertices hold the unit that [uploadImage] returns for the image.
    The values are narrowed to single precision. *)
Theorem region_and_unit_of_a_quad image a r :
  Renderer.reachable r -> transparent r = false ->
  exists r', Renderer.drawImage image a r = Some r'
    /\ forall j, 0 <= j < ELEMENTS_PER_QUAD ->
         let v := (Renderer.length r' - 1) * ELEMENTS_PER_QUAD + j in
         attribute_aRegion (Renderer.stream r') v
         = [fround (fst (uv image a j)); fround (snd (uv image a j))]
         /\ attribute_aTexture (Renderer.stream r') v
            = [fround (of_Z (snd (Renderer.uploadImage image r)))].
Proof. apply drawImage_region. Qed.

(** X11. The index table and the stream fit together: the six indices
    that the table holds for the quad just written fetch, in this
    order, the vertices 0, 1, 2, 2, 1, 3 of that quad, so that the
    quad is drawn as the two triangles (corner 0, corner 1, corner 2)
    and (corner 2, corner 1, corner 3) of its rectangle, turned when
    the call rotates. *)
Theorem quad_is_drawn_as_two_triangles image a r :
  Renderer.reachable r -> transparent r = false ->
  exists r', Renderer.drawImage image a r = Some r'
    /\ forall j, 0 <= j < INDICES_PER_QUAD ->
         exists v,
           Renderer.createIB !! Z.to_nat ((Renderer.length r' - 1) * INDICES_PER_QUAD + j)
           = Some v
           /\ v = (Renderer.length r' - 1) * ELEMENTS_PER_QUAD + pattern j
           /\ attribute_aVertex (Renderer.stream r') v
              = [fround (fst (position a (pattern j)));
                 fround (snd (position a (pattern j)))].
Proof.
  intros Hr Hvis. destruct (reachable_inv r Hr) as [Hok _ _ _].
  exists (write_quad image a r). split; [by apply drawImage_eq|].
  assert (Hlen : 1 <= Renderer.length (write_quad image a r) <= MAX_LENGTH).
  { destruct (write_quad_ok image a r Hok) as [_ Hl _ _ _].
    destruct (write_quad_fields image a r) as (Wl & _).
    destruct (batch_ok r Hok) as [[_ Hl1 _ _ _] _]. lia. }
  intros j Hj.
  exists ((Renderer.length (write_quad image a r) - 1) * ELEMENTS_PER_QUAD + pattern j).
  pose proof (pattern_range j) as Hp.
  split; [|split; [done|]].
  - rewrite lookup_createIB by (unfold_consts; lia). f_equal.
    unfold INDICES_PER_QUAD in *.
    replace ((Renderer.length (write_quad image a r) - 1) * 6 + j)
      with (j + (Renderer.length (write_quad image a r) - 1) * 6) by lia.
    rewrite Z.mod_add, Z.div_add by lia.
    rewrite Z.mod_small, Z.div_small by lia. lia.
  - unfold attribute_aVertex, position.
    rewrite drawImage_elements; try done; try (unfold_consts; lia).
    assert (Hv : 0 <= pattern j < ELEMENTS_PER_QUAD) by (unfold ELEMENTS_PER_QUAD; lia).
    destruct (fseq (rotateAngle a) (of_Z 0)) eqn:Hz.
    + rewrite place_rectangle by done.
      destruct (quad_vertices _ Hv) as [-> | [-> | [-> | ->]]]; reflexivity.
    + rewrite place_rotation by done.
      destruct (quad_vertices _ Hv) as [-> | [-> | [-> | ->]]]; reflexivity.
Qed.

Lemma quad_written a r c image u :
  quad (Renderer.vectors (place a r)) c image a u = written_quad c u image a.
Proof.
  unfold written_quad, position, uv, quad.
  destruct (fseq (rotateAngle a) (of_Z 0)) eqn:Hz.
  - rewrite place_rectangle by done. by destruct (region image a) as [[[r0 r1] r2] r3].
  - rewrite place_rotation by done. by destruct (region image a) as [[[r0 r1] r2] r3].
Qed.

Lemma length_written_stream c cache next (calls : list (Image * DrawArgs F)) :
  Z.of_nat (List.length (written_stream c cache next calls))
  = Z.of_nat (List.length calls) * QUAD_SIZE.
Proof.
  unfold written_stream. rewrite QUAD_SIZE_36.
  generalize (resolve cache next (map fst calls)) (length_resolve cache next (map fst calls)).
  rewrite length_map.
  induction calls as [|call calls IH]; intros [|u us] Hlen;
    cbn [zip_with concat List.length] in *; try lia.
  rewrite length_app.
  change (List.length (written_quad c u (fst call) (snd call))) with 36%nat.
  specialize (IH us). lia.
Qed.

Lemma run_written (calls : list (Image * DrawArgs F)) r :
  buffer_ok r -> transparent r = false ->
  Renderer.length r + Z.of_nat (List.length calls) <= MAX_LENGTH ->
  exists r1, Renderer.run (draws calls) r = Some r1
    /\ buffer_ok r1
    /\ Renderer.length r1 = Renderer.length r + Z.of_nat (List.length calls)
    /\ take (Z.to_nat (Renderer.length r1 * QUAD_SIZE)) (Renderer.stream r1)
       = take (Z.to_nat (Renderer.length r * QUAD_SIZE)) (Renderer.stream r)
         ++ written_stream (Renderer.color r) (Renderer.cache r) (Renderer.nextUnit r) calls.
Proof.
  revert r. induction calls as [|[image a] calls IH]; intros r Hok Hvis Hcap.
  - exists r. simpl. rewrite Z.add_0_r. unfold written_stream. simpl.
    rewrite app_nil_r. split; [done|]. split; [exact Hok|]. by split.
  - cbn [List.length] in Hcap.
    assert (Hlt : Renderer.length r < MAX_LENGTH) by lia.
    assert (Hb : batch r = r).
    { unfold batch. destruct (MAX_LENGTH <=? Renderer.length r) eqn:E; [|done].
      apply Z.leb_le in E. lia. }
    pose proof (write_quad_ok image a r Hok) as Hok'.
    destruct (write_quad_fields image a r) as (Wl & Wo & _ & _ & Wc & _ & Wca & Wn & _).
    destruct (write_quad_stream image a r Hok) as (Ho & Hoe & Hfit & Hs & Hfit2 & Ht).
    rewrite Hb in *.
    set (r' := write_quad image a r) in *.
    assert (Hvis' : transparent r' = false) by (unfold transparent in *; by rewrite Wc).
    destruct (IH r' Hok' Hvis') as (r1 & Hrun & Hok1 & Hl1 & Hst1); [lia|].
    exists r1. simpl. rewrite drawImage_eq by done. simpl. fold r'.
    split; [done|]. split; [done|]. split; [lia|].
    rewrite Hst1. unfold written_stream. cbn [map fst snd].
    rewrite resolve_step. cbn [zip_with concat fst snd].
    rewrite Wc, Wca, Wn, app_assoc. f_equal.
    rewrite Wl. rewrite QUAD_SIZE_36 in *.
    replace (Z.to_nat ((Renderer.length r + 1) * 36))
      with (Z.to_nat (Renderer.sbOffset r) + 36)%nat by lia.
    rewrite Hs.
    rewrite <- (length_quad (Renderer.vectors (place a (room r))) (Renderer.color r) image a
                  (snd (Renderer.uploadImage image r))) at 1.
    rewrite take_splice by (rewrite ?length_quad; lia).
    rewrite quad_written. f_equal.
    rewrite <- Hoe.
    destruct (room_ok r Hok Hlt) as ([_ _ _ _ Hs2] & _ & _).
    destruct Hok as [Ho0 Hl0 Hc0 Hp0 Hs0]. rewrite QUAD_SIZE_36 in *.
    unfold room. destruct (_ <=? _); simpl; [|done].
    rewrite take_app_le; [done|]. unfold room in Hfit2.
    lia.
Qed.

(** X12. For every sequence of [drawImage] calls, rotated or not, made
    with a visible draw color on a reachable renderer whose batch has
    room for them below the cap: the calls return, the pending length
    grows by their number, and the front of the stream is the quads
    that were pending before, unchanged, followed by one quad record
    for each call in call order, each with the unit of its image. The
    [flush] that follows uploads exactly these floats and draws 6
    indices for each pending quad. *)
Theorem batch_holds_the_quads_of_the_calls (calls : list (Image * DrawArgs F)) r :
  Renderer.reachable r -> transparent r = false ->
  Renderer.length r + Z.of_nat (List.length calls) <= MAX_LENGTH ->
  exists r1, Renderer.run (draws calls) r = Some r1
    /\ Renderer.length r1 = Renderer.length r + Z.of_nat (List.length calls)
    /\ take (Z.to_nat (Renderer.length r1 * QUAD_SIZE)) (Renderer.stream r1)
       = take (Z.to_nat (Renderer.length r * QUAD_SIZE)) (Renderer.stream r)
         ++ written_stream (Renderer.color r) (Renderer.cache r) (Renderer.nextUnit r) calls
    /\ Z.of_nat (List.length (written_stream (Renderer.color r) (Renderer.cache r)
                                (Renderer.nextUnit r) calls))
       = Z.of_nat (List.length calls) * QUAD_SIZE
    /\ (0 < Renderer.length r1 ->
        Renderer.gl (Renderer.flush r1)
        = Renderer.gl r1
          ++ [bufferSubData ARRAY_BUFFER 0
                (take (Z.to_nat (Renderer.length r * QUAD_SIZE)) (Renderer.stream r)
                 ++ written_stream (Renderer.color r) (Renderer.cache r)
                      (Renderer.nextUnit r) calls);
              drawElements_TRIANGLES (Renderer.length r1 * INDICES_PER_QUAD) 0]).
Proof.
  intros Hr Hvis Hcap. destruct (reachable_inv r Hr) as [Hok _ _ _].
  destruct (run_written calls r Hok Hvis Hcap) as (r1 & Hrun & Hok1 & Hl1 & Hst1).
  exists r1. split; [done|]. split; [done|]. split; [done|].
  split; [apply length_written_stream|].
  intros Hpos. rewrite flush_gl.
  destruct (0 <? Renderer.length r1) eqn:E; [|apply Z.ltb_ge in E; lia].
  unfold flush_calls. rewrite subarray_prefix, <- Hst1. unfold QUAD_SIZE.
  by rewrite Z.mul_assoc.
Qed.
End WrittenQuads.

(** ** Textures: the cache, the units of the context, the selector *)

Lemma push_all {A B : Type} (f : A -> B) (l : list A) (acc : list B) :
  fold_left (fun acc i => acc ++ [f i]) l acc = acc ++ map f l.
Proof.
  revert acc. induction l as [|i l IH]; intros acc; simpl.
  - by rewrite app_nil_r.
  - by rewrite IH, <- app_assoc.
Qed.

Lemma textureSelector_eq (maxTextures : Z) :
  Shader.textureSelector maxTextures
  = Shader.branch_if 0 0
    :: map (fun i => Shader.branch_else_if i i)
         (Renderer.count_from 1 (Z.to_nat (maxTextures - 2)))
    ++ [Shader.branch_else (maxTextures - 1)].
Proof.
  unfold Shader.textureSelector. cbv zeta. rewrite push_all.
  by replace (maxTextures - 1 - 1) with (maxTextures - 2) by lia.
Qed.

Lemma select_loop (n : nat) (i : Z) (rest : list Shader.Branch) (texture : Z) :
  Shader.select (map (fun i => Shader.branch_else_if i i) (Renderer.count_from i n) ++ rest)
    texture
  = if (i <=? texture) && (texture <? i + Z.of_nat n) then Some texture
    else Shader.select rest texture.
Proof.
  revert i. induction n as [|n IH]; intros i.
  - cbn [Renderer.count_from map app]. change (Z.of_nat 0) with 0. rewrite Z.add_0_r.
    destruct (i <=? texture) eqn:E1, (texture <? i) eqn:E2; simpl; try done.
    apply Z.leb_le in E1. apply Z.ltb_lt in E2. lia.
  - cbn [Renderer.count_from map app Shader.select]. rewrite IH.
    destruct (texture =? i) eqn:E.
    + apply Z.eqb_eq in E. subst i.
      replace ((texture <=? texture) && (texture <? texture + Z.of_nat (S n))) with true; [done|].
      symmetry. apply andb_true_iff. split; [apply Z.leb_le | apply Z.ltb_lt]; lia.
    + apply Z.eqb_neq in E.
      replace ((i + 1 <=? texture) && (texture <? i + 1 + Z.of_nat n))
        with ((i <=? texture) && (texture <? i + Z.of_nat (S n))); [done|].
      apply eq_true_iff_eq. rewrite !andb_true_iff, !Z.leb_le, !Z.ltb_lt. lia.
Qed.

Lemma select_textureSelector (maxTextures texture : Z) :
  1 <= maxTextures -> 0 <= texture ->
  Shader.select (Shader.textureSelector maxTextures) texture
  = Some (Z.min texture (maxTextures - 1)).
Proof.
  intros Hm Ht. rewrite textureSelector_eq.
  cbn [Shader.select]. destruct (texture =? 0) eqn:E.
  - apply Z.eqb_eq in E. subst. f_equal. lia.
  - apply Z.eqb_neq in E. rewrite select_loop. simpl.
    destruct (1 <=? texture) eqn:E1; [|apply Z.leb_gt in E1; lia].
    destruct (texture <? _) eqn:E2; simpl; f_equal;
      [apply Z.ltb_lt in E2 | apply Z.ltb_ge in E2]; lia.
Qed.

(** X13. The texture selector that the constructor of [Shader] builds
    for [maxTextures >= 1] samplers has [max 2 maxTextures] branches.
    For a unit below [maxTextures] it reads the sampler of that unit;
    for every other value, the units from [maxTextures] on and the
    negative ones, it reads the last sampler, [maxTextures - 1]. *)
Theorem selector_reads_the_unit_of_the_quad (maxTextures texture : Z) :
  1 <= maxTextures ->
  Z.of_nat (List.length (Shader.textureSelector maxTextures)) = Z.max 2 maxTextures
  /\ (0 <= texture -> Shader.select (Shader.textureSelector maxTextures) texture
                      = Some (Z.min texture (maxTextures - 1)))
  /\ (texture < 0 -> Shader.select (Shader.textureSelector maxTextures) texture
                     = Some (maxTextures - 1)).
Proof.
  intros Hm. split; [|split].
  - rewrite textureSelector_eq.
    cbn [List.length]. rewrite length_app, length_map, length_count_from. simpl. lia.
  - intros Ht. by apply select_textureSelector.
  - intros Ht. rewrite textureSelector_eq.
    cbn [Shader.select]. destruct (texture =? 0) eqn:E.
    + apply Z.eqb_eq in E. lia.
    + rewrite select_loop. simpl.
      destruct (1 <=? texture) eqn:E1; [apply Z.leb_le in E1; lia | done].
Qed.

Section Textures.
Context {F : Type} `{JSNumber F}.
Implicit Types r : Renderer.t F.

Lemma texture_units_app (cs cs' : list (GLCall F)) :
  texture_units (cs ++ cs') = fold_left texture_call cs' (texture_units cs).
Proof. apply fold_left_app. Qed.

Lemma texture_others (cs : list (GLCall F)) (s : Units) :
  Forall (fun c => is_texture_call c = false) cs -> fold_left texture_call cs s = s.
Proof.
  intros Hcs. revert s. induction Hcs as [|c cs Hc _ IH]; intros s; [done|].
  simpl. rewrite IH. by destruct c.
Qed.

Lemma flush_calls_texture r (b : bool) :
  Forall (fun c => is_texture_call c = false) (if b then flush_calls r else []).
Proof. destruct b; repeat constructor. Qed.

(** The bindings after the loop of [reset] over the units from [i] on. *)
Lemma texture_reset_loop (n : nat) (i : Z) (s : Units) (k : Z) :
  bound (fold_left texture_call
           (flat_map (fun i => [activeTexture (F:=F) (TEXTURE0 + i); bindTexture emptyTexture])
              (Renderer.count_from i n)) s) !! k
  = if (TEXTURE0 + i <=? k) && (k <? TEXTURE0 + i + Z.of_nat n)
    then Some emptyTexture else bound s !! k.
Proof.
  revert i s. induction n as [|n IH]; intros i s.
  - simpl. destruct (_ <=? _) eqn:E1, (_ <? _) eqn:E2; simpl; try done.
    apply Z.leb_le in E1. apply Z.ltb_lt in E2. lia.
  - cbn [Renderer.count_from flat_map app fold_left texture_call active bound].
    rewrite IH. cbn [bound].
    destruct (decide (k = TEXTURE0 + i)) as [->|Hne].
    + rewrite lookup_insert_eq.
      replace ((TEXTURE0 + i <=? TEXTURE0 + i)
               && (TEXTURE0 + i <? TEXTURE0 + i + Z.of_nat (S n))) with true
        by (symmetry; apply andb_true_iff; split; [apply Z.leb_le | apply Z.ltb_lt]; lia).
      by destruct (_ && _).
    + rewrite lookup_insert_ne by done.
      replace ((TEXTURE0 + (i + 1) <=? k) && (k <? TEXTURE0 + (i + 1) + Z.of_nat n))
        with ((TEXTURE0 + i <=? k) && (k <? TEXTURE0 + i + Z.of_nat (S n))); [done|].
      apply eq_true_iff_eq. rewrite !andb_true_iff, !Z.leb_le, !Z.ltb_lt. lia.
Qed.

Lemma texture_reset_calls r (s : Units) (u : Z) :
  bound (fold_left texture_call (reset_calls r) s) !! (TEXTURE0 + u)
  = if (0 <=? u) && (u <? Renderer.maxTextures r)
    then Some emptyTexture else bound s !! (TEXTURE0 + u).
Proof.
  unfold reset_calls, Renderer.range.
  cbn [fold_left texture_call]. rewrite texture_reset_loop.
  replace ((TEXTURE0 + 0 <=? TEXTURE0 + u)
           && (TEXTURE0 + u <? TEXTURE0 + 0 + Z.of_nat (Z.to_nat (Renderer.maxTextures r))))
    with ((0 <=? u) && (u <? Renderer.maxTextures r)); [done|].
  apply eq_true_iff_eq. rewrite !andb_true_iff, !Z.leb_le, !Z.ltb_lt. lia.
Qed.

(** The units after an operation other than [reset]. *)
Lemma texture_emitted (o : Renderer.Op F) r (s : Units) :
  is_reset o = false ->
  fold_left texture_call (emitted o r) s
  = match resolved o r with
    | Some image =>
        match Renderer.cache r !! handle image with
        | Some _ => s
        | None =>
            mkUnits (TEXTURE0 + Renderer.nextUnit r)
              (<[TEXTURE0 + Renderer.nextUnit r := textureOf (handle image)]> (bound s))
        end
    | None => s
    end.
Proof.
  intros Hnr. destruct o; simpl; try done.
  - rewrite fold_left_app, (texture_others (if _ : bool then _ else _))
      by apply flush_calls_texture.
    reflexivity.
  - by destruct (_ !! _).
  - apply texture_others, flush_calls_texture.
  - destruct (transparent r); [done|].
    rewrite fold_left_app, (texture_others (if _ : bool then _ else _))
      by apply flush_calls_texture.
    by destruct (_ !! _).
Qed.

(** The cache and the next unit after an operation. *)
Lemma exec_resolved (o : Renderer.Op F) r r' :
  buffer_ok r -> Renderer.exec o r = Some r' ->
  Renderer.maxTextures r' = Renderer.maxTextures r
  /\ match resolved o r with
     | Some image =>
         Renderer.cache r' = Renderer.cache (fst (Renderer.uploadImage image r))
         /\ Renderer.nextUnit r' = Renderer.nextUnit (fst (Renderer.uploadImage image r))
     | None =>
         Renderer.cache r' = Renderer.cache r /\ Renderer.nextUnit r' = Renderer.nextUnit r
     end.
Proof.
  intros Hok Hex. destruct o; simpl in Hex; simpl.
  - by inversion Hex.
  - inversion Hex. destruct (setProjection_frame w h r) as (_ & _ & _ & _ & -> & -> & _).
    split; [|done]. unfold Renderer.setProjection. cbv zeta. simpl.
    by destruct (flush_frame r) as (_ & _ & _ & _ & _ & ->).
  - inversion Hex. split; [|done]. rewrite uploadImage_eq. by destruct (_ !! _).
  - inversion Hex. by rewrite reset_eq.
  - by inversion Hex.
  - inversion Hex. by destruct (flush_frame r) as (_ & _ & -> & -> & _ & ->).
  - rewrite drawImage_cases in Hex by done. inversion Hex.
    destruct (transparent r); [done|].
    by destruct (write_quad_fields image a r) as (_ & _ & _ & _ & _ & -> & -> & -> & _).
  - by inversion Hex.
Qed.

Lemma exec_bound_ok (o : Renderer.Op F) r r' :
  inv r -> is_reset o = false -> Renderer.exec o r = Some r' ->
  bound_ok r -> bound_ok r'.
Proof.
  intros [Hok [Hn Hu Hd] _ _] Hnr Hex [Hc He].
  destruct (exec_resolved o r r' Hok Hex) as (Hm & Hres).
  unfold bound_ok.
  rewrite (exec_emitted o r r' Hok Hex), texture_units_app, texture_emitted, Hm by done.
  destruct (resolved o r) as [image|]; [|destruct Hres as [-> ->]; by split].
  destruct Hres as [-> ->]. rewrite uploadImage_eq.
  destruct (Renderer.cache r !! handle image) eqn:E; simpl; [by split|].
  split.
  - intros h u. rewrite lookup_insert. case_decide as Hh.
    + intros [= <-]. subst h. by rewrite lookup_insert_eq.
    + intros Hhu. rewrite lookup_insert_ne; [by apply Hc|].
      apply Hu in Hhu. lia.
  - intros u Hrange. rewrite lookup_insert_ne by lia. apply He. lia.
Qed.

Lemma new_bound_ok canvas : bound_ok (Renderer.new (F:=F) canvas).
Proof.
  destruct (new_fields (F:=F) canvas) as (_ & _ & _ & _ & Hn & Hc & _ & Hm).
  split; [intros h u; by rewrite Hc, lookup_empty|].
  intros u Hu. rewrite Hn, Hm in Hu. rewrite new_gl.
  generalize (@Renderer.createIB). intros ib.
  rewrite texture_units_app, fold_left_app.
  rewrite (texture_others [_; _; _; _; _; _]) by repeat constructor.
  pose proof (texture_reset_calls (Renderer.new (F:=F) canvas)) as Hreset.
  unfold reset_calls in Hreset. rewrite Hm in Hreset. rewrite Hreset.
  destruct (0 <=? u) eqn:E1; [|apply Z.leb_gt in E1; lia].
  destruct (u <? _) eqn:E2; [done | apply Z.ltb_ge in E2; lia].
Qed.

Lemma run_bound_ok (os : list (Renderer.Op F)) r r' :
  inv r -> existsb is_reset os = false -> Renderer.run os r = Some r' ->
  bound_ok r -> bound_ok r'.
Proof.
  revert r. induction os as [|o os IH]; intros r Hinv Hnr Hrun Hb; simpl in Hrun.
  - by injection Hrun as <-.
  - simpl in Hnr. apply orb_false_iff in Hnr as [Hno Hnos].
    destruct (Renderer.exec o r) as [r1|] eqn:E; [|done]. simpl in Hrun.
    apply (IH r1); try done; [by apply (exec_inv o r) | by apply (exec_bound_ok o r)].
Qed.

(** X15. [reset] binds the placeholder texture to every unit below
    [maxTextures] and leaves the cache as it is. An image resolved
    before the [reset] therefore keeps its unit, that unit now holds
    the placeholder, and a [drawImage] of the image after the [reset]
    finds it in the cache and binds nothing: its quad carries the old
    unit and is drawn with the placeholder. *)
Theorem reset_unbinds_the_cached_textures r h u :
  Renderer.reachable r -> Renderer.cache r !! h = Some u -> u < Renderer.maxTextures r ->
  Renderer.cache (Renderer.reset r) !! h = Some u
  /\ bound (texture_units (Renderer.gl (Renderer.reset r))) !! (TEXTURE0 + u)
     = Some emptyTexture
  /\ forall image a,
       handle image = h ->
       exists r', Renderer.drawImage image a (Renderer.reset r) = Some r'
         /\ texture_units (Renderer.gl r') = texture_units (Renderer.gl (Renderer.reset r))
         /\ (transparent r = false ->
             forall j, 0 <= j < ELEMENTS_PER_QUAD ->
               attribute_aTexture (Renderer.stream r') j = [fround (of_Z u)]).
Proof.
  intros Hr Hh Hu.
  destruct (reachable_inv r Hr) as [Hok [_ Hunits _] _ _].
  assert (Hreset : Renderer.reachable (Renderer.reset r))
    by (by apply (Renderer.reachable_exec Renderer.op_reset r)).
  destruct (reachable_inv _ Hreset) as [Hok' _ _ _].
  assert (Hh' : Renderer.cache (Renderer.reset r) !! h = Some u) by (by rewrite reset_eq).
  split; [done|]. split.
  - rewrite reset_eq. cbn [Renderer.gl Renderer.call Renderer.set_length Renderer.set_sbOffset].
    rewrite texture_units_app, texture_reset_calls.
    apply Hunits in Hh.
    destruct (0 <=? u) eqn:E1; [|apply Z.leb_gt in E1; lia].
    destruct (u <? _) eqn:E2; [done | apply Z.ltb_ge in E2; lia].
  - intros image a <-.
    assert (Hl : Renderer.length (Renderer.reset r) = 0) by (by rewrite reset_eq).
    assert (Htr : transparent (Renderer.reset r) = transparent r) by (by rewrite reset_eq).
    destruct (transparent r) eqn:Hvis.
    + exists (Renderer.reset r). rewrite drawImage_cases, Htr by done. by repeat split.
    + destruct (drawImage_region image a (Renderer.reset r) Hreset Htr)
        as (r' & Hdraw & Hattr).
      exists r'. split; [done|].
      pose proof (exec_emitted (Renderer.op_drawImage image a) _ r' Hok' Hdraw) as Hgl.
      simpl in Hgl. rewrite Htr, Hh', Hl in Hgl.
      change (MAX_LENGTH <=? 0) with false in Hgl. simpl in Hgl.
      rewrite app_nil_r in Hgl. split; [by rewrite Hgl|].
      intros _ j Hj. destruct (Hattr j Hj) as [_ Ht].
      rewrite uploadImage_eq, Hh' in Ht. simpl in Ht.
      rewrite drawImage_cases, Htr in Hdraw by done. injection Hdraw as <-.
      destruct (write_quad_fields image a (Renderer.reset r)) as (Wl & _).
      unfold batch in Wl. rewrite Hl in Wl. change (MAX_LENGTH <=? 0) with false in Wl.
      cbv iota in Wl. rewrite Hl in Wl. rewrite Wl in Ht.
      replace ((0 + 1 - 1) * ELEMENTS_PER_QUAD + j) with j in Ht by lia. exact Ht.
Qed.

Lemma sampler_units_app (cs cs' : list (GLCall F)) :
  sampler_units (cs ++ cs')
  = fold_left (fun s c => match c with uniform1iv_sampler units => Some units | _ => s end)
      cs' (sampler_units cs).
Proof. apply fold_left_app. Qed.

Lemma sampler_others (cs : list (GLCall F)) (s : option (list Z)) :
  Forall (fun c => is_sampler_call c = false) cs ->
  fold_left (fun s c => match c with uniform1iv_sampler units => Some units | _ => s end) cs s
  = s.
Proof.
  intros Hcs. revert s. induction Hcs as [|c cs Hc _ IH]; intros s; [done|].
  simpl. rewrite IH. by destruct c.
Qed.

Lemma sampler_reset_calls r (s : option (list Z)) :
  fold_left (fun s c => match c with uniform1iv_sampler units => Some units | _ => s end)
    (reset_calls r) s
  = Some (Renderer.range (Renderer.maxTextures r)).
Proof.
  unfold reset_calls. cbn [fold_left]. apply sampler_others.
  generalize (Renderer.range (Renderer.maxTextures r)). intros l.
  induction l; simpl; repeat constructor; done.
Qed.

Lemma emitted_sampler (o : Renderer.Op F) r :
  is_reset o = false -> Forall (fun c => is_sampler_call c = false) (emitted o r).
Proof.
  intros Hnr.
  assert (Hfl : forall b : bool,
             Forall (fun c => is_sampler_call c = false) (if b then flush_calls r else []))
    by (intros [|]; repeat constructor).
  assert (Hup : forall image,
             Forall (fun c => is_sampler_call c = false)
               (match Renderer.cache r !! handle image with
                | Some _ => []
                | None => upload_calls (F:=F) image (Renderer.nextUnit r)
                end)) by (intros image; destruct (_ !! _); repeat constructor).
  destruct o; simpl.
  - repeat constructor.
  - apply Forall_app. split; [apply Hfl | repeat constructor].
  - apply Hup.
  - discriminate Hnr.
  - repeat constructor.
  - apply Hfl.
  - destruct (transparent r); [constructor|]. apply Forall_app. split; [apply Hfl | apply Hup].
  - constructor.
Qed.

Lemma reachable_sampler r :
  Renderer.reachable r ->
  sampler_units (Renderer.gl r) = Some (Renderer.range (Renderer.maxTextures r)).
Proof.
  induction 1 as [canvas | o r r' Hr IH Hex].
  - destruct (new_fields (F:=F) canvas) as (_ & _ & _ & _ & _ & _ & _ & Hm).
    rewrite new_gl, Hm. generalize (@Renderer.createIB). intros ib.
    rewrite sampler_units_app, fold_left_app.
    rewrite (sampler_others [_; _; _; _; _; _]) by repeat constructor.
    pose proof (sampler_reset_calls (Renderer.new (F:=F) canvas)) as Hreset.
    unfold reset_calls in Hreset. rewrite Hm in Hreset. apply Hreset.
  - destruct (reachable_inv r Hr) as [Hok _ _ _].
    destruct (exec_resolved o r r' Hok Hex) as (Hm & _).
    rewrite (exec_emitted o r r' Hok Hex), sampler_units_app, Hm, IH.
    destruct (is_reset o) eqn:E.
    + destruct o; try discriminate E. apply sampler_reset_calls.
    + by apply sampler_others, emitted_sampler.
Qed.

Lemma uploadImage_units_assigned image r :
  units_ok r -> units_assigned r -> units_assigned (fst (Renderer.uploadImage image r)).
Proof.
  intros [Hn Hu Hd] Ha. rewrite uploadImage_eq.
  destruct (Renderer.cache r !! handle image) eqn:E; simpl; [done|].
  intros u Hrange. simpl in *.
  destruct (decide (u = Renderer.nextUnit r)) as [->|Hne].
  - exists (handle image). by rewrite lookup_insert_eq.
  - destruct (Ha u) as (h & Hh); [lia|]. exists h.
    rewrite lookup_insert_ne; [done|]. intros <-. congruence.
Qed.

Lemma reachable_units_assigned r : Renderer.reachable r -> units_assigned r.
Proof.
  induction 1 as [canvas | o r r' Hr IH Hex].
  - destruct (new_fields (F:=F) canvas) as (_ & _ & _ & _ & Hn & _).
    intros u. rewrite Hn. lia.
  - destruct (reachable_inv r Hr) as [Hok Hun _ _].
    destruct (exec_resolved o r r' Hok Hex) as (_ & Hres).
    unfold units_assigned.
    destruct (resolved o r) as [image|]; destruct Hres as [-> ->]; [|done].
    by apply uploadImage_units_assigned.
Qed.

Lemma context_valid (combined : Z) (cs : list (GLCall F)) (s : Units) :
  Forall (selects_below combined) cs ->
  fold_left (context_call combined) cs s = fold_left texture_call cs s.
Proof.
  intros Hcs. revert s. induction Hcs as [|c cs Hc _ IH]; intros s; [done|].
  cbn [fold_left]. rewrite IH. f_equal.
  destruct c; try reflexivity. simpl in Hc. simpl.
  destruct (TEXTURE0 <=? unit) eqn:E1; [|apply Z.leb_gt in E1; lia].
  destruct (unit <? TEXTURE0 + combined) eqn:E2; [done | apply Z.ltb_ge in E2; lia].
Qed.

Lemma selects_below_mono (n m : Z) (cs : list (GLCall F)) :
  n <= m -> Forall (selects_below n) cs -> Forall (selects_below m) cs.
Proof.
  intros Hnm Hcs. eapply Forall_impl; [exact Hcs|].
  intros c. destruct c; simpl; try done. lia.
Qed.

Lemma count_from_selects (n : nat) (i m : Z) :
  0 <= i -> i + Z.of_nat n <= m ->
  Forall (selects_below m)
    (flat_map (fun i => [activeTexture (F:=F) (TEXTURE0 + i); bindTexture emptyTexture])
       (Renderer.count_from i n)).
Proof.
  revert i. induction n as [|n IH]; intros i Hi Hm; [constructor|].
  cbn [Renderer.count_from flat_map app].
  constructor; [simpl; lia|]. constructor; [done|]. apply IH; lia.
Qed.

Lemma reset_calls_select r (m : Z) :
  Renderer.maxTextures r <= m -> Forall (selects_below m) (reset_calls r).
Proof.
  intros Hm. unfold reset_calls, Renderer.range. constructor; [done|].
  destruct (Z.le_gt_cases (Renderer.maxTextures r) 0) as [Hle | Hgt].
  - replace (Z.to_nat (Renderer.maxTextures r)) with 0%nat by lia. constructor.
  - apply count_from_selects; lia.
Qed.

Lemma emitted_selects (o : Renderer.Op F) r (m : Z) :
  0 <= Renderer.nextUnit r -> Renderer.maxTextures r <= m ->
  (forall image, resolved o r = Some image ->
     Renderer.cache r !! handle image = None -> Renderer.nextUnit r < m) ->
  Forall (selects_below m) (emitted o r).
Proof.
  intros Hn Hm Hmiss.
  assert (Hfl : forall b : bool,
             Forall (selects_below m) (if b then flush_calls r else []))
    by (intros [|]; repeat constructor).
  assert (Hup : forall image,
             (Renderer.cache r !! handle image = None -> Renderer.nextUnit r < m) ->
             Forall (selects_below m)
               (match Renderer.cache r !! handle image with
                | Some _ => []
                | None => upload_calls (F:=F) image (Renderer.nextUnit r)
                end)).
  { intros image Hlt. destruct (_ !! _); [constructor|].
    specialize (Hlt eq_refl). repeat constructor; simpl; lia. }
  destruct o; simpl in *.
  - repeat constructor.
  - apply Forall_app. split; [apply Hfl | repeat constructor].
  - apply Hup. by apply Hmiss.
  - by apply reset_calls_select.
  - repeat constructor.
  - apply Hfl.
  - destruct (transparent r); [constructor|].
    apply Forall_app. split; [apply Hfl | apply Hup; by apply Hmiss].
  - constructor.
Qed.

Lemma reachable_selects r :
  Renderer.reachable r ->
  Forall (selects_below (Z.max (Renderer.maxTextures r) (Renderer.nextUnit r))) (Renderer.gl r).
Proof.
  induction 1 as [canvas | o r r' Hr IH Hex].
  - destruct (new_fields (F:=F) canvas) as (_ & _ & _ & _ & Hn & _ & _ & Hm).
    pose proof (reset_calls_select (Renderer.new (F:=F) canvas)
                  (Z.max (Renderer.maxTextures (Renderer.new (F:=F) canvas))
                         (Renderer.nextUnit (Renderer.new (F:=F) canvas)))
                  (Z.le_max_l _ _)) as Hreset.
    unfold reset_calls in Hreset. rewrite Hm in Hreset at 2 3.
    rewrite new_gl. generalize (@Renderer.createIB). intros ib.
    apply Forall_app. split; [repeat constructor|].
    apply Forall_app. split; [exact Hreset | repeat constructor].
  - destruct (reachable_inv r Hr) as [Hok [Hnext Hunits _] _ _].
    destruct (exec_resolved o r r' Hok Hex) as (Hm & Hres).
    assert (Hn0 : 0 <= Renderer.nextUnit r) by lia.
    rewrite (exec_emitted o r r' Hok Hex). apply Forall_app. split.
    + apply (selects_below_mono (Z.max (Renderer.maxTextures r) (Renderer.nextUnit r)));
        [|exact IH].
      rewrite Hm. destruct (resolved o r) as [image|]; destruct Hres as [_ ->]; [|lia].
      rewrite uploadImage_eq. destruct (_ !! _); simpl; lia.
    + apply emitted_selects; [done | lia |].
      intros image Himage Hnone. rewrite Himage in Hres. destruct Hres as [_ ->].
      rewrite uploadImage_eq, Hnone. simpl. lia.
Qed.

(** On a context that has the units of the program and a unit for
    every resolved image, no [activeTexture] of the trace is refused. *)
Lemma context_units_reachable (combined : Z) r :
  Renderer.reachable r ->
  Renderer.maxTextures r <= combined -> Renderer.nextUnit r <= combined ->
  context_units combined (Renderer.gl r) = texture_units (Renderer.gl r).
Proof.
  intros Hr Hm Hn. apply context_valid.
  apply (selects_below_mono (Z.max (Renderer.maxTextures r) (Renderer.nextUnit r)));
    [lia | by apply reachable_selects].
Qed.

(** The unit selected last is the unit of the image resolved last. *)
Lemma exec_active (o : Renderer.Op F) r r' :
  inv r -> is_reset o = false -> Renderer.exec o r = Some r' ->
  (1 <= Renderer.nextUnit r ->
   active (texture_units (Renderer.gl r)) = TEXTURE0 + (Renderer.nextUnit r - 1)) ->
  1 <= Renderer.nextUnit r' ->
  active (texture_units (Renderer.gl r')) = TEXTURE0 + (Renderer.nextUnit r' - 1).
Proof.
  intros [Hok _ _ _] Hnr Hex Ha.
  destruct (exec_resolved o r r' Hok Hex) as (_ & Hres).
  rewrite (exec_emitted o r r' Hok Hex), texture_units_app, texture_emitted by done.
  destruct (resolved o r) as [image|]; destruct Hres as [_ ->]; [|exact Ha].
  rewrite uploadImage_eq.
  destruct (Renderer.cache r !! handle image); simpl; [exact Ha|].
  intros _. f_equal. lia.
Qed.

Lemma run_active (os : list (Renderer.Op F)) r r' :
  inv r -> existsb is_reset os = false -> Renderer.run os r = Some r' ->
  (1 <= Renderer.nextUnit r ->
   active (texture_units (Renderer.gl r)) = TEXTURE0 + (Renderer.nextUnit r - 1)) ->
  1 <= Renderer.nextUnit r' ->
  active (texture_units (Renderer.gl r')) = TEXTURE0 + (Renderer.nextUnit r' - 1).
Proof.
  revert r. induction os as [|o os IH]; intros r Hinv Hnr Hrun Ha; simpl in Hrun.
  - by injection Hrun as <-.
  - simpl in Hnr. apply orb_false_iff in Hnr as [Hno Hnos].
    destruct (Renderer.exec o r) as [r1|] eqn:E; [|done]. simpl in Hrun.
    apply (IH r1); try done; [by apply (exec_inv o r) | by apply (exec_active o r)].
Qed.

(** Images that the cache does not hold, resolved one after the other. *)
Lemma run_uploads (images : list Image) r :
  NoDup (map handle images) ->
  (forall image, In image images -> Renderer.cache r !! handle image = None) ->
  exists r', Renderer.run (map Renderer.op_uploadImage images) r = Some r'
    /\ Renderer.nextUnit r' = Renderer.nextUnit r + Z.of_nat (List.length images)
    /\ Renderer.maxTextures r' = Renderer.maxTextures r
    /\ forall h, ~ In h (map handle images) -> Renderer.cache r' !! h = Renderer.cache r !! h.
Proof.
  revert r. induction images as [|image images IH]; intros r Hnd Hfresh.
  - exists r. simpl. repeat split. lia.
  - inversion Hnd as [|? ? Hnotin Hnd']; subst.
    cbn [map Renderer.run Renderer.exec mbind option_bind].
    destruct (uploadImage_buffer image r) as (_ & _ & _ & _ & _ & _ & _ & Hm).
    pose proof (uploadImage_eq image r) as Heq.
    rewrite (Hfresh image) in Heq by (by left).
    destruct (IH (fst (Renderer.uploadImage image r)) Hnd') as (r' & Hrun & Hn & Hm' & Hc).
    { intros image' Hin. rewrite Heq. cbn [fst Renderer.cache Renderer.set_cache].
      rewrite lookup_insert_ne; [apply Hfresh; by right|].
      intros Heq'. apply Hnotin. rewrite list_elem_of_In, in_map_iff. exists image'. by split. }
    exists r'. split; [exact Hrun|].
    rewrite Hn, Hm', Hm. rewrite Heq at 1.
    cbn [fst Renderer.nextUnit Renderer.set_cache Renderer.call Renderer.set_nextUnit
         List.length].
    split; [lia|]. split; [done|].
    intros h Hh. rewrite Hc by (intros Hin; apply Hh; by right).
    rewrite Heq. cbn [fst Renderer.cache Renderer.set_cache].
    rewrite lookup_insert_ne; [done|]. intros Heq'. apply Hh. by left.
Qed.

(** X14. On a context with [combined] texture units, at least the
    [maxTextures] of the program, and as long as a program does not
    call [reset]: while the images resolved are no more than the
    units of the context, the unit that the cache holds for an image
    has the texture of that image bound, and the units below
    [maxTextures] that no image has got yet have the placeholder
    texture of the constructor bound. The first image beyond the units
    of the context is given the unit [combined], which the context
    refuses, and its texture is bound on the unit selected before,
    [combined - 1]: the image that holds that unit lost its texture. *)
Theorem cached_textures_stay_bound canvas (combined : Z) (os : list (Renderer.Op F)) r :
  Renderer.run os (Renderer.new canvas) = Some r ->
  existsb is_reset os = false ->
  Renderer.maxTextures r <= combined ->
  (Renderer.nextUnit r <= combined ->
   (forall h u, Renderer.cache r !! h = Some u ->
      bound (context_units combined (Renderer.gl r)) !! (TEXTURE0 + u) = Some (textureOf h))
   /\ (forall u, Renderer.nextUnit r <= u < Renderer.maxTextures r ->
         bound (context_units combined (Renderer.gl r)) !! (TEXTURE0 + u)
         = Some emptyTexture))
  /\ (forall image,
        Renderer.nextUnit r = combined -> 1 <= combined ->
        Renderer.cache r !! handle image = None ->
        let r' := fst (Renderer.uploadImage image r) in
        Renderer.cache r' !! handle image = Some combined
        /\ exists h, h <> handle image
             /\ Renderer.cache r' !! h = Some (combined - 1)
             /\ bound (context_units combined (Renderer.gl r')) !! (TEXTURE0 + (combined - 1))
                = Some (textureOf (handle image))).
Proof.
  intros Hrun Hnr Hm.
  assert (Hr : Renderer.reachable r)
    by exact (run_reachable os _ r (Renderer.reachable_new canvas) Hrun).
  split.
  - intros Hn. rewrite context_units_reachable by done.
    apply (run_bound_ok os (Renderer.new canvas) r); try done;
      [apply new_inv | apply new_bound_ok].
  - intros image Hfull Hone Hnone r'. subst r'.
    destruct (reachable_units_assigned r Hr (combined - 1)) as (h & Hh); [lia|].
    assert (Hne : h <> handle image) by (intros ->; congruence).
    assert (Hact : active (texture_units (Renderer.gl r)) = TEXTURE0 + (combined - 1)).
    { rewrite <- Hfull. apply (run_active os (Renderer.new canvas) r); try done.
      - apply new_inv.
      - destruct (new_fields (F:=F) canvas) as (_ & _ & _ & _ & -> & _). lia.
      - lia. }
    rewrite uploadImage_gl, uploadImage_eq, Hnone.
    cbn [fst Renderer.cache Renderer.set_cache].
    split; [by rewrite lookup_insert_eq, Hfull|].
    exists h. split; [exact Hne|]. split; [by rewrite lookup_insert_ne|].
    unfold context_units. rewrite fold_left_app. fold (context_units combined (Renderer.gl r)).
    rewrite context_units_reachable by (try done; lia).
    rewrite Hfull. unfold upload_calls.
    cbn [fold_left context_call texture_call].
    replace ((TEXTURE0 <=? TEXTURE0 + combined) && (TEXTURE0 + combined <? TEXTURE0 + combined))
      with false by (symmetry; apply andb_false_iff; right; apply Z.ltb_irrefl).
    cbn [bound active]. rewrite Hact. apply lookup_insert_eq.
Qed.

(** X16. What a quad shows, on a context with [combined] texture
    units that has a unit for every resolved image, as long as a
    program does not call [reset]: the fragment shader reads, for the
    quad of an image whose unit is below [maxTextures], the texture of
    that image. An image whose unit is [maxTextures] or more (no
    operation refuses it) is read through the last sampler, so that
    its quads show the texture of another image, the one that holds
    unit [maxTextures - 1]. *)
Theorem quads_are_textured_by_their_unit canvas (combined : Z)
    (os : list (Renderer.Op F)) r h u :
  Renderer.run os (Renderer.new canvas) = Some r ->
  existsb is_reset os = false ->
  1 <= Renderer.maxTextures r <= combined ->
  Renderer.nextUnit r <= combined ->
  Renderer.cache r !! h = Some u ->
  (u < Renderer.maxTextures r ->
   texture_sampled combined (Renderer.gl r) (Renderer.maxTextures r) u = Some (textureOf h))
  /\ (Renderer.maxTextures r <= u ->
      exists h', h' <> h
        /\ Renderer.cache r !! h' = Some (Renderer.maxTextures r - 1)
        /\ texture_sampled combined (Renderer.gl r) (Renderer.maxTextures r) u
           = Some (textureOf h')).
Proof.
  intros Hrun Hnr Hm Hn Hh.
  assert (Hr : Renderer.reachable r)
    by exact (run_reachable os _ r (Renderer.reachable_new canvas) Hrun).
  destruct (reachable_inv r Hr) as [_ [_ Hunits _] _ _].
  destruct (run_bound_ok os _ r (new_inv canvas) Hnr Hrun (new_bound_ok canvas)) as [Hb _].
  pose proof (Hunits h u Hh) as Hu.
  assert (Hs : forall i, 0 <= i < Renderer.maxTextures r ->
             Z.min u (Renderer.maxTextures r - 1) = i ->
             texture_sampled combined (Renderer.gl r) (Renderer.maxTextures r) u
             = bound (texture_units (Renderer.gl r)) !! (TEXTURE0 + i)).
  { intros i Hi Hmin. unfold texture_sampled.
    rewrite select_textureSelector by lia. cbn [mbind option_bind].
    rewrite (reachable_sampler r Hr). cbn [mbind option_bind].
    rewrite Hmin, lookup_range by done. cbn [mbind option_bind].
    rewrite context_units_reachable by (try done; lia). reflexivity. }
  split.
  - intros Hlt. rewrite (Hs u) by lia. by apply Hb.
  - intros Hge.
    destruct (reachable_units_assigned r Hr (Renderer.maxTextures r - 1)) as (h' & Hh'); [lia|].
    exists h'. split; [intros ->; rewrite Hh in Hh'; injection Hh' as ?; lia|].
    split; [done|]. rewrite (Hs (Renderer.maxTextures r - 1)) by lia. by apply Hb.
Qed.
End Textures.

(** ** The projection *)

Section Projection.
Context {F : Type} `{JSNumber F}.
Implicit Types r : Renderer.t F.

Lemma last_matrix_app (cs cs' : list (GLCall F)) :
  last_matrix (cs ++ cs')
  = fold_left (fun m c => match c with uniformMatrix3fv_matrix m' => Some m' | _ => m end)
      cs' (last_matrix cs).
Proof. apply fold_left_app. Qed.

Lemma matrix_others (cs : list (GLCall F)) (m : option (Mat3 F)) :
  Forall (fun c => is_matrix_call c = false) cs ->
  fold_left (fun m c => match c with uniformMatrix3fv_matrix m' => Some m' | _ => m end) cs m
  = m.
Proof.
  intros Hcs. revert m. induction Hcs as [|c cs Hc _ IH]; intros m; [done|].
  simpl. rewrite IH. by destruct c.
Qed.

Lemma emitted_matrix (o : Renderer.Op F) r :
  is_projection o = false -> Forall (fun c => is_matrix_call c = false) (emitted o r).
Proof.
  intros Hnp.
  assert (Hfl : forall b : bool,
             Forall (fun c => is_matrix_call c = false) (if b then flush_calls r else []))
    by (intros [|]; repeat constructor).
  assert (Hup : forall image,
             Forall (fun c => is_matrix_call c = false)
               (match Renderer.cache r !! handle image with
                | Some _ => []
                | None => upload_calls (F:=F) image (Renderer.nextUnit r)
                end)) by (intros image; destruct (_ !! _); repeat constructor).
  destruct o; simpl.
  - repeat constructor.
  - discriminate Hnp.
  - apply Hup.
  - unfold reset_calls. generalize (Renderer.range (Renderer.maxTextures r)). intros l.
    constructor; [done|]. induction l; simpl; repeat constructor; done.
  - repeat constructor.
  - apply Hfl.
  - destruct (transparent r); [constructor|]. apply Forall_app. split; [apply Hfl | apply Hup].
  - constructor.
Qed.

Lemma new_uMatrix canvas :
  Renderer.uMatrix (Renderer.new (F:=F) canvas)
  = projection (of_Z (width canvas)) (of_Z (height canvas)).
Proof. reflexivity. Qed.

Lemma exec_uMatrix (o : Renderer.Op F) r r' :
  buffer_ok r -> Renderer.exec o r = Some r' ->
  Renderer.uMatrix r'
  = match o with
    | Renderer.op_setProjection w h => projection w h
    | _ => Renderer.uMatrix r
    end.
Proof.
  intros Hok Hex. destruct o; simpl in Hex.
  - by inversion Hex.
  - by inversion Hex.
  - inversion Hex. rewrite uploadImage_eq. by destruct (_ !! _).
  - inversion Hex. by rewrite reset_eq.
  - by inversion Hex.
  - inversion Hex. rewrite flush_eq. by destruct (0 <? _).
  - rewrite drawImage_cases in Hex by done. inversion Hex.
    destruct (transparent r); [done|].
    unfold write_quad, emit. rewrite uploadImage_eq.
    assert (Hp : forall x, Renderer.uMatrix (place a x) = Renderer.uMatrix x)
      by (intros x0; unfold place; by destruct (negb _)).
    assert (Hro : forall x, Renderer.uMatrix (room x) = Renderer.uMatrix x)
      by (intros x0; unfold room; by destruct (_ <=? _)).
    assert (Hb : Renderer.uMatrix (batch r) = Renderer.uMatrix r).
    { unfold batch. destruct (_ <=? _); [|done]. rewrite flush_eq. by destruct (0 <? _). }
    destruct (_ !! _); simpl; by rewrite Hp, Hro, Hb.
  - by inversion Hex.
Qed.

Lemma reachable_matrix r :
  Renderer.reachable r -> last_matrix (Renderer.gl r) = Some (Renderer.uMatrix r).
Proof.
  induction 1 as [canvas | o r r' Hr IH Hex].
  - rewrite new_gl, new_uMatrix. generalize (@Renderer.createIB). intros ib.
    rewrite last_matrix_app, fold_left_app.
    reflexivity.
  - destruct (reachable_inv r Hr) as [Hok _ _ _].
    rewrite (exec_emitted o r r' Hok Hex), last_matrix_app, (exec_uMatrix o r r' Hok Hex), IH.
    destruct (is_projection o) eqn:E.
    + destruct o; try discriminate E. simpl. rewrite fold_left_app. reflexivity.
    + rewrite matrix_others by (by apply emitted_matrix). by destruct o.
Qed.

(** X17. The field [uMatrix] is in every reachable state the matrix
    that the program received last, and only [setProjection] changes
    it. [setProjection] first submits the pending batch, so that the
    quads written before it are drawn while the old matrix is still
    the one of the program, then sets the viewport and sends the new
    matrix; no quad is pending after it. *)
Theorem projection_changes_between_batches :
  (forall r, Renderer.reachable r -> last_matrix (Renderer.gl r) = Some (Renderer.uMatrix r))
  /\ (forall o r r',
        Renderer.reachable r -> Renderer.exec o r = Some r' ->
        Renderer.uMatrix r' <> Renderer.uMatrix r -> is_projection o = true)
  /\ (forall w h r,
        Renderer.reachable r ->
        Renderer.length (Renderer.setProjection w h r) = 0
        /\ Renderer.gl (Renderer.setProjection w h r)
           = Renderer.gl r
             ++ (if 0 <? Renderer.length r then flush_calls r else [])
             ++ [viewport (of_Z 0) (of_Z 0) w h; uniformMatrix3fv_matrix (projection w h)]
        /\ last_matrix (Renderer.gl r ++ (if 0 <? Renderer.length r then flush_calls r else []))
           = Some (Renderer.uMatrix r)).
Proof.
  split; [apply reachable_matrix|]. split.
  - intros o r r' Hr Hex Hne. destruct (reachable_inv r Hr) as [Hok _ _ _].
    rewrite (exec_uMatrix o r r' Hok Hex) in Hne. by destruct o.
  - intros w h r Hr. destruct (reachable_inv r Hr) as [[_ Hl _ _ _] _ _ _].
    destruct (setProjection_frame w h r) as (Sl & _ & _ & _ & _ & _ & Sg).
    split; [|split].
    + rewrite Sl, flush_eq. destruct (0 <? _) eqn:E; [done | apply Z.ltb_ge in E; simpl; lia].
    + exact Sg.
    + rewrite last_matrix_app, (reachable_matrix r Hr).
      apply matrix_others. destruct (0 <? _); repeat constructor.
Qed.
End Projection.

(** X18. On the reals, the matrix of [setProjection(w, h)] with
    [w] and [h] not 0 makes the vertex shader send the pixel
    [(px, py)] to the clip-space point [(2 px / w - 1, 1 - 2 py / h)]:
    the pixel (0, 0) to the upper left corner (-1, 1) and the pixel
    [(w, h)] to the lower right corner (1, -1), the y axis pointing
    down. *)
Theorem projection_maps_pixels_to_clip_space (w h px py : R) (r : Renderer.t R) :
  w <> 0%R -> h <> 0%R ->
  Shader.gl_Position (Renderer.uMatrix (Renderer.setProjection w h r)) (px, py)
  = ((2 * px / w - 1)%R, (1 - 2 * py / h)%R, 0%R, 1%R)
  /\ Shader.gl_Position (Renderer.uMatrix (Renderer.setProjection w h r)) (0%R, 0%R)
     = ((-1)%R, 1%R, 0%R, 1%R)
  /\ Shader.gl_Position (Renderer.uMatrix (Renderer.setProjection w h r)) (w, h)
     = (1%R, (-1)%R, 0%R, 1%R).
Proof.
  intros Hw Hh. unfold Shader.gl_Position. simpl.
  repeat split; repeat f_equal; field; assumption.
Qed.

(** X19. On the reals, the matrix that a [drawImage] call builds for
    its rotation leaves the pivot [(x + rotateOriginX,
    y + rotateOriginY)] where it is and keeps the distance of every
    point from the pivot: the quad is turned about the pivot and
    neither moved nor scaled. *)
Theorem rotation_is_rigid_about_the_pivot (a : DrawArgs R) (p : R * R) :
  let q := vec2.transformMat3 p (rotation a) in
  vec2.transformMat3 (pivot a) (rotation a) = pivot a
  /\ ((fst q - fst (pivot a)) * (fst q - fst (pivot a))
      + (snd q - snd (pivot a)) * (snd q - snd (pivot a))
      = (fst p - fst (pivot a)) * (fst p - fst (pivot a))
        + (snd p - snd (pivot a)) * (snd p - snd (pivot a)))%R.
Proof.
  intros q. subst q. destruct p as [px py].
  unfold vec2.transformMat3, rotation, mat3.translate, mat3.rotate, mat3.identity, pivot.
  cbn [m0 m1 m2 m3 m4 m5 m6 m7 m8 fst snd fadd fsub fmul of_Z Math_sin Math_cos Ideal.reals].
  set (s := Rtrigo_def.sin (rotateAngle a)). set (c := Rtrigo_def.cos (rotateAngle a)).
  assert (Hsc : (s * s + c * c = 1)%R).
  { pose proof (sin2_cos2 (rotateAngle a)) as Hsc. unfold Rsqr in Hsc. exact Hsc. }
  split.
  - f_equal; ring.
  - set (dx := (px - (x a + rotateOriginX a))%R). set (dy := (py - (y a + rotateOriginY a))%R).
    transitivity ((s * s + c * c) * (dx * dx + dy * dy))%R; [subst dx dy; ring|].
    rewrite Hsc. ring.
Qed.

(** ** The construction of the shader program *)

(** X20. The constructor of [Shader] returns exactly when the context
    reports the vertex shader and the fragment shader as compiled and
    the program as linked. It compiles the vertex shader first: when
    that fails it throws after five calls, before the fragment shader
    is created. When the fragment shader fails it throws before a
    program is created, and when linking fails it throws the linking
    error. The four vertex attribute arrays are enabled, in the order
    [aVertex], [aColor], [aRegion], [aTexture], when the construction
    succeeds, and none of them is when it throws. *)
Theorem shader_program_is_built_or_an_error_is_thrown
    (gl : Shader.Context) (maxTextures : Z) (precision : Precision) :
  let fragment :=
    Shader.fragment_source precision maxTextures (Shader.textureSelector maxTextures) in
  let outcome := Shader.new gl maxTextures precision in
  (snd outcome = inr tt
   <-> Shader.COMPILE_STATUS gl Shader.vertex_source = true
       /\ Shader.COMPILE_STATUS gl fragment = true
       /\ Shader.LINK_STATUS gl = true)
  /\ (Shader.COMPILE_STATUS gl Shader.vertex_source = false ->
      outcome
      = ([Shader.gl_createShader Shader.VERTEX_SHADER;
          Shader.gl_shaderSource Shader.vertex_source;
          Shader.gl_compileShader; Shader.gl_getShaderParameter_COMPILE_STATUS;
          Shader.gl_getShaderInfoLog],
         inl (Shader.failed_on_shader_compilation Shader.VERTEX_SHADER)))
  /\ (Shader.COMPILE_STATUS gl Shader.vertex_source = true ->
      Shader.COMPILE_STATUS gl fragment = false ->
      snd outcome = inl (Shader.failed_on_shader_compilation Shader.FRAGMENT_SHADER)
      /\ filter (fun c => Shader.creates c = true) (fst outcome)
         = [Shader.gl_createShader Shader.VERTEX_SHADER;
            Shader.gl_createShader Shader.FRAGMENT_SHADER])
  /\ (Shader.COMPILE_STATUS gl Shader.vertex_source = true ->
      Shader.COMPILE_STATUS gl fragment = true ->
      Shader.LINK_STATUS gl = false ->
      snd outcome = inl Shader.failed_on_program_linking)
  /\ filter (fun c => Shader.is_enable c = true) (fst outcome)
     = match snd outcome with
       | inl _ => []
       | inr _ =>
           [Shader.gl_enableVertexAttribArray aVertex;
            Shader.gl_enableVertexAttribArray aColor;
            Shader.gl_enableVertexAttribArray aRegion;
            Shader.gl_enableVertexAttribArray aTexture]
       end.
Proof.
  intros fragment outcome. subst outcome. unfold Shader.new.
  unfold Shader.createShader, Shader.createProgram. cbv zeta. fold fragment.
  destruct (Shader.COMPILE_STATUS gl Shader.vertex_source) eqn:Ev;
    destruct (Shader.COMPILE_STATUS gl fragment) eqn:Ef;
    destruct (Shader.LINK_STATUS gl) eqn:El; simpl;
    repeat split; try done; try tauto; intros (? & ? & ?); done.
Qed.

(** ** The two listings *)

Section Listings.
Context {F : Type} `{JSNumber F}.
Implicit Types r : Renderer.t F.

Lemma room_batch_vectors r :
  Renderer.vectors (room (batch r)) = Renderer.vectors r.
Proof.
  unfold room, batch.
  destruct (MAX_LENGTH <=? _); [rewrite flush_eq; destruct (0 <? _)|];
    destruct (_ <=? _); reflexivity.
Qed.

Lemma listing2_drawImage_eq image (x y w h rx ry rw rh : F) r :
  buffer_ok r -> fseq (of_Z 0) (of_Z 0) = true ->
  Listing2.drawImage image x y w h rx ry rw rh r
  = Some (Renderer.set_vectors (Renderer.vectors r)
            (write_quad image (Renderer.defaults x y w h rx ry rw rh) r)).
Proof.
  intros Hok Hz. unfold Listing2.drawImage.
  change (if MAX_LENGTH <=? Renderer.length r then Renderer.flush r else r) with (batch r).
  destruct (batch_ok r Hok) as [Hok1 Hmax].
  rewrite (room_resize _ Hok1). cbn [mbind option_bind].
  destruct (room_ok _ Hok1 Hmax) as (Hok2 & Hfree & _).
  rewrite <- (room_batch_vectors r).
  unfold write_quad. set (r2 := room (batch r)) in *.
  set (a := Renderer.defaults x y w h rx ry rw rh).
  assert (Hplace : place a r2
                   = Renderer.set_vectors (rectangle a (vectors4 (Renderer.vectors r2))) r2).
  { unfold place. subst a. cbn [rotateAngle Renderer.defaults]. by rewrite Hz. }
  rewrite Hplace. unfold emit. rewrite !uploadImage_eq.
  destruct Hok2 as [Ho2 Hl2 Hc2 Hp2 Hst2].
  destruct (Renderer.cache r2 !! handle image) as [u|] eqn:E;
    cbn [Renderer.cache Renderer.set_vectors]; rewrite E.
  - pose proof (quad_stores
                  (fun s =>
                     let r := Renderer.set_stream s r2 in
                     let r := Renderer.set_sbOffset
                                (Renderer.sbOffset r + ELEMENT_SIZE * ELEMENTS_PER_QUAD) r in
                     Some (Renderer.set_length (Renderer.length r + 1) r))
                  (Renderer.stream r2) (Renderer.sbOffset r2)
                  (x, y) (fadd x w, y) (x, fadd y h) (fadd x w, fadd y h)
                  (red (Renderer.color r2)) (green (Renderer.color r2))
                  (blue (Renderer.color r2)) (alpha (Renderer.color r2))
                  (fdiv rx (of_Z (naturalWidth image)))
                  (fdiv ry (of_Z (naturalHeight image)))
                  (fdiv (fadd rx rw) (of_Z (naturalWidth image)))
                  (fdiv (fadd ry rh) (of_Z (naturalHeight image)))
                  u) as Hq.
    etransitivity; [apply Hq; rewrite QUAD_SIZE_36 in *; lia |].
    destruct r2. reflexivity.
  - pose proof (quad_stores
                  (fun s =>
                     let r := Renderer.set_stream s
                                (Renderer.set_cache
                                   (<[handle image := Renderer.nextUnit r2]> (Renderer.cache r2))
                                   (Renderer.call (upload_calls image (Renderer.nextUnit r2))
                                      (Renderer.set_nextUnit (Renderer.nextUnit r2 + 1) r2))) in
                     let r := Renderer.set_sbOffset
                                (Renderer.sbOffset r + ELEMENT_SIZE * ELEMENTS_PER_QUAD) r in
                     Some (Renderer.set_length (Renderer.length r + 1) r))
                  (Renderer.stream r2) (Renderer.sbOffset r2)
                  (x, y) (fadd x w, y) (x, fadd y h) (fadd x w, fadd y h)
                  (red (Renderer.color r2)) (green (Renderer.color r2))
                  (blue (Renderer.color r2)) (alpha (Renderer.color r2))
                  (fdiv rx (of_Z (naturalWidth image)))
                  (fdiv ry (of_Z (naturalHeight image)))
                  (fdiv (fadd rx rw) (of_Z (naturalWidth image)))
                  (fdiv (fadd ry rh) (of_Z (naturalHeight image)))
                  (Renderer.nextUnit r2)) as Hq.
    etransitivity; [apply Hq; rewrite QUAD_SIZE_36 in *; lia |].
    destruct r2. reflexivity.
Qed.

(** X21. The [drawImage] of the second listing and the [drawImage] of
    the first, called without the rotation parameters on the same
    reachable renderer, in a number system in which [0 === 0]: both
    return. When the draw color is visible they leave the same
    renderer but for the scratch field [vectors], which only the first
    writes: the same stream, counters, cache and calls on the context.
    When the alpha of the draw color is below 1/256 the first returns
    the renderer unchanged, and the second, which has no such test,
    writes the quad all the same. *)
Theorem second_listing_draws_the_same_quad image (x y w h rx ry rw rh : F) r :
  Renderer.reachable r -> fseq (of_Z 0) (of_Z 0) = true ->
  let a := Renderer.defaults x y w h rx ry rw rh in
  exists r1 r2,
    Renderer.drawImage image a r = Some r1
    /\ Listing2.drawImage image x y w h rx ry rw rh r = Some r2
    /\ (transparent r = false -> r2 = Renderer.set_vectors (Renderer.vectors r) r1)
    /\ (transparent r = true ->
        r1 = r /\ Renderer.length r2 = Renderer.length (batch r) + 1
        /\ r2 = Renderer.set_vectors (Renderer.vectors r) (write_quad image a r)).
Proof.
  intros Hr Hz a. destruct (reachable_inv r Hr) as [Hok _ _ _].
  eexists _, _. split; [by apply drawImage_cases|].
  split; [by apply listing2_drawImage_eq|].
  split; intros ->; [done|].
  split; [done|]. split; [|done].
  change (Renderer.length (write_quad image a r) = Renderer.length (batch r) + 1).
  by destruct (write_quad_fields image a r) as (-> & _).
Qed.
End Listings.

(** ** Edges of binary64 arithmetic *)

Lemma division_by_zero (v : float) :
  finite_float (fround (fdiv v (of_Z 0))) = false.
Proof.
  assert (Hz : Prim2SF (of_Z 0) = S754_zero false) by (vm_compute; reflexivity).
  assert (Hq : finite_float (v / of_Z 0)%float = false).
  { unfold finite_float. rewrite FloatAxioms.div_spec, Hz. unfold FloatAxioms.SF64div, SFdiv.
    by destruct (Prim2SF v) as [[|]|[|]| |[|] m e]. }
  change (fdiv v (of_Z 0)) with (v / of_Z 0)%float.
  assert (Hr : fround (v / of_Z 0)%float = (v / of_Z 0)%float).
  { change (fround (v / of_Z 0)%float) with (Binary64.fround (v / of_Z 0)%float).
    unfold Binary64.fround. unfold finite_float in Hq.
    by destruct (Prim2SF (v / of_Z 0)%float). }
  by rewrite Hr.
Qed.

(** X22. No division of the renderer is guarded. On binary64,
    [setProjection] with a width or a height of 0 puts an infinity in
    the matrix; and [drawImage] of an image whose [naturalWidth] is 0,
    as it is before the image has loaded, writes the quad with a
    horizontal texture coordinate that is an infinity or a NaN in each
    of its four vertices. *)
Theorem divisions_are_not_guarded :
  (forall (w h : float) (r : Renderer.t float),
      finite_float (m0 (Renderer.uMatrix (Renderer.setProjection 0%float h r))) = false
      /\ finite_float (m4 (Renderer.uMatrix (Renderer.setProjection w 0%float r))) = false)
  /\ (forall image (a : DrawArgs float) (r : Renderer.t float),
        Renderer.reachable r -> transparent r = false ->
        naturalWidth image = 0 ->
        exists r', Renderer.drawImage image a r = Some r'
          /\ forall j, 0 <= j < ELEMENTS_PER_QUAD ->
               exists u v,
                 attribute_aRegion (Renderer.stream r')
                   ((Renderer.length r' - 1) * ELEMENTS_PER_QUAD + j) = [u; v]
                 /\ finite_float u = false).
Proof.
  split.
  - intros w h r. split; vm_compute; reflexivity.
  - intros image a r Hr Hvis Hw.
    destruct (drawImage_region image a r Hr Hvis) as (r' & Hdraw & Hattr).
    exists r'. split; [done|]. intros j Hj. destruct (Hattr j Hj) as [Hreg _].
    eexists _, _. split; [exact Hreg|].
    unfold uv, region. rewrite Hw.
    destruct (quad_vertices j Hj) as [-> | [-> | [-> | ->]]]; cbn [Z.eqb fst];
      apply division_by_zero.
Qed.

(** X23. The test of the draw color at the head of [drawImage] is the
    strict [alpha < 1/256] of binary64: a color whose alpha is exactly
    1/256 is drawn, a color whose alpha is a NaN is drawn as well, and
    a color whose alpha is 0 is not. *)
Theorem alpha_test_is_strict (r : Renderer.t float) :
  (alpha (Renderer.color r) = 0.00390625%float -> transparent r = false)
  /\ (PrimFloat.is_nan (alpha (Renderer.color r)) = true -> transparent r = false)
  /\ (alpha (Renderer.color r) = 0%float -> transparent r = true).
Proof.
  unfold transparent. split; [|split].
  - intros ->. vm_compute. reflexivity.
  - intros Hnan. change (flt ?a ?b) with (PrimFloat.ltb a b).
    rewrite FloatAxioms.ltb_spec. unfold PrimFloat.is_nan in Hnan.
    apply negb_true_iff in Hnan. rewrite FloatAxioms.eqb_spec in Hnan.
    destruct (Prim2SF (alpha (Renderer.color r))) as [s|s| |s m e]; try reflexivity.
    + by destruct s.
    + by destruct s.
    + exfalso. unfold SFeqb, SFcompare in Hnan.
      rewrite Z.compare_refl, Pos.compare_cont_refl in Hnan. by destruct s.
  - intros ->. vm_compute. reflexivity.
Qed.

(** ** The vertex layout, the limits, and what a draw reads *)

Section VertexLayout.
Context {F : Type} `{JSNumber F}.
Implicit Types r : Renderer.t F.

Lemma emitted_pointer (o : Renderer.Op F) r :
  filter (fun c => is_pointer c = true) (emitted o r) = [].
Proof.
  assert (Hfl : forall b : bool,
             filter (fun c => is_pointer c = true)
               (if b then flush_calls r else []) = []) by (by intros [|]).
  assert (Hup : forall image,
             filter (fun c => is_pointer c = true)
               (match Renderer.cache r !! handle image with
                | Some _ => []
                | None => upload_calls (F:=F) image (Renderer.nextUnit r)
                end) = []) by (intros image; by destruct (_ !! _)).
  destruct o; simpl; rewrite ?filter_app, ?Hfl, ?Hup; try reflexivity.
  - unfold reset_calls. generalize (Renderer.range (Renderer.maxTextures r)). intros l.
    rewrite filter_cons_False by (simpl; congruence).
    induction l; simpl; [done|]. by rewrite !filter_cons_False by (simpl; congruence).
  - by destruct (transparent r); rewrite ?filter_app, ?Hfl, ?Hup.
Qed.

Lemma new_pointer canvas :
  filter (fun c => is_pointer c = true) (Renderer.gl (Renderer.new (F:=F) canvas))
  = [vertexAttribPointer aVertex VERTEX_SIZE ELEMENT_OFFSET VERTEX_OFFSET;
     vertexAttribPointer aColor COLOR_SIZE ELEMENT_OFFSET COLOR_OFFSET;
     vertexAttribPointer aRegion REGION_SIZE ELEMENT_OFFSET REGION_OFFSET;
     vertexAttribPointer aTexture TEXTURE_SIZE ELEMENT_OFFSET TEXTURE_OFFSET].
Proof.
  rewrite new_gl. generalize (@Renderer.createIB). intros ib.
  pose proof (emitted_pointer Renderer.op_reset (Renderer.new (F:=F) canvas)) as Hr.
  simpl in Hr. unfold reset_calls in Hr.
  destruct (new_fields (F:=F) canvas) as (_ & _ & _ & _ & _ & _ & _ & Hm). rewrite Hm in Hr.
  rewrite !filter_app, Hr. reflexivity.
Qed.

Lemma fetch_elements (size e : Z) (s : list F) (v : Z) :
  fetch size ELEMENT_OFFSET (e * BYTES_PER_ELEMENT) s v
  = elements (v * ELEMENT_SIZE + e) size s.
Proof.
  unfold fetch. f_equal. unfold ELEMENT_OFFSET.
  replace (v * (ELEMENT_SIZE * BYTES_PER_ELEMENT) + e * BYTES_PER_ELEMENT)
    with ((v * ELEMENT_SIZE + e) * BYTES_PER_ELEMENT) by lia.
  apply Z.div_mul. unfold BYTES_PER_ELEMENT. lia.
Qed.

(** X24. The attribute pointers of a renderer are the four that the
    constructor sets, whatever was called since: no method sets one.
    Through them the context fetches, for a vertex of the stream, the
    position, the color, the region and the texture unit that the
    renderer wrote for it; and the four attributes follow each other
    in the vertex record and fill its 36 bytes, the stride. *)
Theorem attribute_pointers_tile_the_vertex_record :
  (forall r,
      Renderer.reachable r ->
      filter (fun c => is_pointer c = true) (Renderer.gl r)
      = [vertexAttribPointer aVertex 2 36 0;
         vertexAttribPointer aColor 4 36 8;
         vertexAttribPointer aRegion 2 36 24;
         vertexAttribPointer aTexture 1 36 32])
  /\ (forall (s : list F) v,
        fetch VERTEX_SIZE ELEMENT_OFFSET VERTEX_OFFSET s v = attribute_aVertex s v
        /\ fetch COLOR_SIZE ELEMENT_OFFSET COLOR_OFFSET s v = attribute_aColor s v
        /\ fetch REGION_SIZE ELEMENT_OFFSET REGION_OFFSET s v = attribute_aRegion s v
        /\ fetch TEXTURE_SIZE ELEMENT_OFFSET TEXTURE_OFFSET s v = attribute_aTexture s v)
  /\ (VERTEX_OFFSET = 0
      /\ VERTEX_OFFSET + VERTEX_SIZE * BYTES_PER_ELEMENT = COLOR_OFFSET
      /\ COLOR_OFFSET + COLOR_SIZE * BYTES_PER_ELEMENT = REGION_OFFSET
      /\ REGION_OFFSET + REGION_SIZE * BYTES_PER_ELEMENT = TEXTURE_OFFSET
      /\ TEXTURE_OFFSET + TEXTURE_SIZE * BYTES_PER_ELEMENT = ELEMENT_OFFSET).
Proof.
  split; [|split].
  - intros r Hr. induction Hr as [canvas | o r r' Hr IH Hex]; [apply new_pointer|].
    destruct (reachable_inv r Hr) as [Hok _ _ _].
    by rewrite (exec_emitted o r r' Hok Hex), filter_app, IH, emitted_pointer.
  - intros s v. unfold VERTEX_OFFSET, COLOR_OFFSET, REGION_OFFSET, TEXTURE_OFFSET.
    rewrite !fetch_elements. repeat split.
  - repeat split.
Qed.

Lemma exec_limits (o : Renderer.Op F) r r' :
  buffer_ok r -> Renderer.exec o r = Some r' ->
  Renderer.maxTextures r' = Renderer.maxTextures r
  /\ Renderer.precision r' = Renderer.precision r.
Proof.
  intros Hok Hex. destruct o; simpl in Hex.
  - by inversion Hex.
  - inversion Hex. unfold Renderer.setProjection. cbv zeta. simpl.
    rewrite flush_eq. by destruct (0 <? _).
  - inversion Hex. rewrite uploadImage_eq. by destruct (_ !! _).
  - inversion Hex. by rewrite reset_eq.
  - by inversion Hex.
  - inversion Hex. rewrite flush_eq. by destruct (0 <? _).
  - rewrite drawImage_cases in Hex by done. inversion Hex.
    destruct (transparent r); [done|].
    unfold write_quad, emit. rewrite uploadImage_eq.
    assert (Hp : forall x, Renderer.maxTextures (place a x) = Renderer.maxTextures x
                           /\ Renderer.precision (place a x) = Renderer.precision x)
      by (intros x0; unfold place; by destruct (negb _)).
    assert (Hro : forall x, Renderer.maxTextures (room x) = Renderer.maxTextures x
                            /\ Renderer.precision (room x) = Renderer.precision x)
      by (intros x0; unfold room; by destruct (_ <=? _)).
    assert (Hb : Renderer.maxTextures (batch r) = Renderer.maxTextures r
                 /\ Renderer.precision (batch r) = Renderer.precision r).
    { unfold batch. destruct (_ <=? _); [|done]. rewrite flush_eq. by destruct (0 <? _). }
    destruct (Hp (room (batch r))) as [Hp1 Hp2]. destruct (Hro (batch r)) as [Hr1 Hr2].
    destruct Hb as [Hb1 Hb2].
    destruct (_ !! _); simpl; rewrite Hp1, Hp2, Hr1, Hr2, Hb1, Hb2; done.
  - by inversion Hex.
Qed.

Lemma emitted_limits (o : Renderer.Op F) r :
  Forall (limits_ok (Renderer.maxTextures r) (Renderer.precision r)) (emitted o r).
Proof.
  assert (Hfl : forall b : bool,
             Forall (limits_ok (Renderer.maxTextures r) (Renderer.precision r))
               (if b then flush_calls r else []))
    by (intros [|]; repeat constructor).
  assert (Hup : forall image,
             Forall (limits_ok (Renderer.maxTextures r) (Renderer.precision r))
               (match Renderer.cache r !! handle image with
                | Some _ => []
                | None => upload_calls (F:=F) image (Renderer.nextUnit r)
                end)) by (intros image; destruct (_ !! _); repeat constructor).
  destruct o; simpl.
  - repeat constructor.
  - apply Forall_app. split; [apply Hfl | repeat constructor].
  - apply Hup.
  - unfold reset_calls. constructor; [reflexivity|].
    generalize (Renderer.range (Renderer.maxTextures r)). intros l.
    induction l; simpl; repeat constructor; done.
  - repeat constructor.
  - apply Hfl.
  - destruct (transparent r); [constructor|]. apply Forall_app. split; [apply Hfl | apply Hup].
  - constructor.
Qed.

Lemma new_limits canvas :
  Renderer.precision (Renderer.new (F:=F) canvas)
  = (if HIGH_FLOAT_precision canvas <? 16 then mediump else highp)
  /\ Forall (limits_ok (Z.min 24 (MAX_TEXTURE_IMAGE_UNITS canvas))
               (if HIGH_FLOAT_precision canvas <? 16 then mediump else highp))
       (Renderer.gl (Renderer.new (F:=F) canvas)).
Proof.
  split.
  { unfold Renderer.new, Renderer.setClearColor, Renderer.setProjection. cbv zeta.
    rewrite reset_eq.
    rewrite flush_empty by (cbn [Renderer.length Renderer.call Renderer.set_length]; lia).
    cbn [Renderer.gl Renderer.call Renderer.set_length Renderer.set_sbOffset
         Renderer.set_uMatrix Renderer.maxTextures Renderer.uMatrix Renderer.length
         Renderer.precision Renderer.sbSize Renderer.sbOffset Renderer.stream
         Renderer.nextUnit Renderer.cache Renderer.color Renderer.vectors Renderer.matrix].
    reflexivity. }
  rewrite new_gl. generalize (@Renderer.createIB). intros ib.
  apply Forall_app. split; [repeat constructor|].
  apply Forall_app. split; [|repeat constructor].
  constructor; [reflexivity|].
  generalize (Renderer.range (Z.min 24 (MAX_TEXTURE_IMAGE_UNITS canvas))). intros l.
  induction l; simpl; repeat constructor; done.
Qed.

Lemma run_limits (os : list (Renderer.Op F)) r r' :
  inv r -> Renderer.run os r = Some r' ->
  Forall (limits_ok (Renderer.maxTextures r) (Renderer.precision r)) (Renderer.gl r) ->
  Renderer.maxTextures r' = Renderer.maxTextures r
  /\ Renderer.precision r' = Renderer.precision r
  /\ Forall (limits_ok (Renderer.maxTextures r) (Renderer.precision r)) (Renderer.gl r').
Proof.
  revert r. induction os as [|o os IH]; intros r Hinv Hrun Hl; simpl in Hrun.
  - by injection Hrun as <-.
  - destruct (Renderer.exec o r) as [r1|] eqn:E; [|done]. simpl in Hrun.
    pose proof Hinv as [Hok _ _ _].
    destruct (exec_limits o r r1 Hok E) as [Hm Hp].
    destruct (IH r1) as (Hm' & Hp' & Hl'); [by apply (exec_inv o r) | done | |].
    + rewrite (exec_emitted o r r1 Hok E), Hm, Hp. apply Forall_app.
      split; [done | apply emitted_limits].
    + rewrite Hm' , Hp', <- Hm, <- Hp. by rewrite Hm, Hp in *.
Qed.

(** X25. The number of texture units and the precision are those that
    the constructor read from the context, at most 24 units whatever
    the context offers, and no sequence of calls changes them: the
    one shader program of the trace was built for them, and each
    assignment of the sampler array, by the constructor or by a later
    [reset], gives it the units [0 .. maxTextures - 1]. *)
Theorem texture_limits_are_fixed_at_construction canvas (os : list (Renderer.Op F)) r :
  Renderer.run os (Renderer.new canvas) = Some r ->
  Renderer.maxTextures r = Z.min 24 (MAX_TEXTURE_IMAGE_UNITS canvas)
  /\ Renderer.maxTextures r <= 24
  /\ Renderer.precision r = (if HIGH_FLOAT_precision canvas <? 16 then mediump else highp)
  /\ (forall n p, In (newShader n p) (Renderer.gl r) ->
        n = Renderer.maxTextures r /\ p = Renderer.precision r)
  /\ (forall units, In (uniform1iv_sampler units) (Renderer.gl r) ->
        units = Renderer.range (Renderer.maxTextures r)
        /\ Z.of_nat (List.length units) = Z.max 0 (Renderer.maxTextures r)).
Proof.
  intros Hrun.
  destruct (new_fields (F:=F) canvas) as (_ & _ & _ & _ & _ & _ & _ & Hm).
  destruct (new_limits canvas) as [Hp Hl].
  destruct (run_limits os _ r (new_inv canvas) Hrun) as (Hm' & Hp' & Hl').
  { by rewrite Hm, Hp. }
  rewrite Hm in Hm', Hl'. rewrite Hp in Hp', Hl'.
  split; [done|]. split; [lia|]. split; [done|].
  rewrite Forall_forall in Hl'. split.
  - intros n p Hin. apply list_elem_of_In, Hl' in Hin. simpl in Hin.
    rewrite Hm', Hp'. done.
  - intros units Hin. apply list_elem_of_In, Hl' in Hin. simpl in Hin.
    rewrite Hm'. split; [done|]. rewrite Hin, length_range. lia.
Qed.

(** X26. [uploadImage] a second time for the same image returns the
    unit of the first time and changes nothing: no texture is created
    and no unit is taken. *)
Theorem uploadImage_twice_is_uploadImage_once image r :
  Renderer.uploadImage image (fst (Renderer.uploadImage image r))
  = (fst (Renderer.uploadImage image r), snd (Renderer.uploadImage image r)).
Proof.
  rewrite (uploadImage_eq image r).
  destruct (Renderer.cache r !! handle image) as [u|] eqn:E; cbn [fst snd].
  - by rewrite uploadImage_eq, E.
  - rewrite uploadImage_eq. cbn [Renderer.cache Renderer.set_cache].
    by rewrite lookup_insert_eq.
Qed.

(** X27. A call that submits the pending quads uploads the written
    part of the stream and draws [length * 6] indices; each of these
    indices is in the index buffer of the constructor, and the vertex
    it names lies wholly inside the data uploaded just before: a draw
    reads nothing that is left in the buffer from an earlier batch. *)
Theorem draws_read_only_uploaded_vertices (o : Renderer.Op F) r r' :
  Renderer.reachable r -> Renderer.exec o r = Some r' -> submits o r = true ->
  exists cs data count,
    Renderer.gl r' = Renderer.gl r ++ cs
    /\ filter (fun c => is_submission c = true) cs
       = [bufferSubData ARRAY_BUFFER 0 data; drawElements_TRIANGLES count 0]
    /\ count = Renderer.length r * INDICES_PER_QUAD
    /\ forall i, 0 <= i < count ->
         exists v, Renderer.createIB !! Z.to_nat i = Some v
           /\ 0 <= v
           /\ (v + 1) * ELEMENT_SIZE <= Z.of_nat (List.length data).
Proof.
  intros Hr Hex Hs. destruct (reachable_inv r Hr) as [Hok _ _ _].
  exists (emitted o r), (take (Z.to_nat (Renderer.length r * QUAD_SIZE)) (Renderer.stream r)),
    (Renderer.length r * INDICES_PER_QUAD).
  split; [by apply exec_emitted|]. split.
  - rewrite emitted_submission, Hs. unfold flush_calls. rewrite subarray_prefix.
    unfold QUAD_SIZE. by rewrite Z.mul_assoc.
  - split; [reflexivity|].
    intros i Hi. destruct Hok as [Ho Hl Hc Hp Hst].
    rewrite QUAD_SIZE_36 in *. unfold_consts.
    assert (Hdiv : 0 <= i / 6 < Renderer.length r).
    { split; [apply Z.div_pos; lia | apply Z.div_lt_upper_bound; lia]. }
    exists (pattern (i mod 6) + i / 6 * 4).
    split; [apply (lookup_createIB i); unfold_consts; lia|].
    pose proof (pattern_range (i mod 6)) as Hpat.
    rewrite length_take. lia.
Qed.
End VertexLayout.

(** ** The further properties on concrete inputs *)

(** The renderer after the 100x100 image is resolved on a new one. *)
Lemma resolved_image :
  let r := fst (Renderer.uploadImage Example.image Example.fresh) in
  Renderer.run [Renderer.op_uploadImage Example.image] Example.fresh = Some r
  /\ Renderer.reachable r
  /\ Renderer.cache r !! handle Example.image = Some 0
  /\ Renderer.maxTextures r = 16.
Proof.
  intros r. subst r. split; [reflexivity|]. split.
  - apply (Renderer.reachable_exec (Renderer.op_uploadImage Example.image) Example.fresh);
      [apply fresh_reachable | reflexivity].
  - destruct fresh_cache as [Hc Hn].
    destruct (uploadImage_buffer Example.image Example.fresh) as (_ & _ & _ & _ & _ & _ & _ & Hm).
    rewrite Hm. rewrite uploadImage_eq, Hc, lookup_empty.
    cbn [fst Renderer.cache Renderer.set_cache].
    rewrite Hn, lookup_insert_eq. split; [done|].
    unfold Example.fresh.
    by destruct (new_fields (F:=float) Example.canvas) as (_ & _ & _ & _ & _ & _ & _ & ->).
Qed.

(** The next unit after the 100x100 image is resolved. *)
Lemma resolved_image_next :
  Renderer.nextUnit (fst (Renderer.uploadImage Example.image Example.fresh)) = 1.
Proof.
  destruct fresh_cache as [Hc Hn].
  rewrite uploadImage_eq, Hc, lookup_empty. cbn [fst Renderer.nextUnit Renderer.set_cache
    Renderer.call Renderer.set_nextUnit]. rewrite Hn. reflexivity.
Qed.

(** X2 on a new renderer. *)
Lemma capacity_is_bounded_witness :
  256 <= Renderer.sbSize Example.fresh <= 16384
  /\ Renderer.length Example.fresh <= Renderer.sbSize Example.fresh
  /\ Z.of_nat (List.length (Renderer.stream Example.fresh))
     = Renderer.sbSize Example.fresh * (ELEMENT_SIZE * ELEMENTS_PER_QUAD)
  /\ Z.of_nat (List.length (Renderer.stream Example.fresh)) <= 589824.
Proof.
  apply (proj1 (@capacity_is_bounded float Binary64.binary64)), fresh_reachable.
Defined.

(** X3 on the trace after one quad is written and flushed. *)
Lemma uploads_and_draws_come_in_pairs_witness :
  exists (r : Renderer.t float) data,
    Renderer.length r = 1
    /\ Renderer.gl (Renderer.flush r)
       = Renderer.gl r ++ [bufferSubData ARRAY_BUFFER 0 data; drawElements_TRIANGLES 6 0]
    /\ batched (Renderer.gl (Renderer.flush r)).
Proof.
  destruct one_pending as (r & Hr & Hone).
  exists r, (Float32Array.subarray 0 (1 * ELEMENT_SIZE * ELEMENTS_PER_QUAD) (Renderer.stream r)).
  split; [exact Hone|]. split.
  - rewrite flush_gl. unfold flush_calls. rewrite Hone. reflexivity.
  - apply uploads_and_draws_come_in_pairs.
    apply (Renderer.reachable_exec Renderer.op_flush r); [exact Hr | reflexivity].
Defined.

(** X4 on a new renderer. *)
Lemma uploads_fit_the_vertex_buffer_witness :
  filter (fun c => is_allocation c = true) (Renderer.gl Example.fresh)
  = [bufferData_size ARRAY_BUFFER 2304000 STREAM_DRAW].
Proof. exact (proj1 (uploads_fit_the_vertex_buffer Example.fresh fresh_reachable)). Defined.

(** X6 for the [flush] of a renderer with one pending quad. *)
Lemma draw_calls_are_made_by_submitting_operations_witness :
  exists (r : Renderer.t float) cs,
    Renderer.length r = 1
    /\ Renderer.gl (Renderer.flush r) = Renderer.gl r ++ cs
    /\ filter (fun c => is_submission c = true) cs
       = [bufferSubData ARRAY_BUFFER 0 (take 36 (Renderer.stream r));
          drawElements_TRIANGLES 6 0].
Proof.
  destruct one_pending as (r & Hr & Hone).
  destruct (draw_calls_are_made_by_submitting_operations Renderer.op_flush r (Renderer.flush r)
              Hr eq_refl) as (cs & Hgl & Hsub).
  exists r, cs. split; [exact Hone|]. split; [exact Hgl|].
  rewrite Hsub. cbn [submits]. rewrite Hone. reflexivity.
Defined.

(** X7 for the call that makes the stream buffer grow: the 256 pending
    quads are kept in the new array. *)
Lemma pending_quads_are_kept_witness :
  exists r r' : Renderer.t float,
    Renderer.length r = 256 /\ Renderer.sbSize r = 256
    /\ Renderer.drawImage Example.image Example.region_call r = Some r'
    /\ Renderer.sbSize r' = 512
    /\ 256 <= Renderer.length r'
    /\ take (Z.to_nat (256 * QUAD_SIZE)) (Renderer.stream r')
       = take (Z.to_nat (256 * QUAD_SIZE)) (Renderer.stream r).
Proof.
  destruct full_buffer as (r & Hr & Hl & Hsz & Hvis).
  destruct (reachable_inv r Hr) as [Hok _ _ _].
  destruct (exec_total (Renderer.op_drawImage Example.image Example.region_call) r Hok)
    as (r' & Hex).
  assert (Hbatch : batch r = r).
  { unfold batch. rewrite Hl. reflexivity. }
  destruct (pending_quads_are_kept _ r r' Hr Hex) as (Hlen & Hkeep).
  - cbn [submits]. rewrite Hvis, Hl. reflexivity.
  - reflexivity.
  - pose proof (exec_sbSize _ r r' Hok Hex) as Hgrow.
    cbn [overflows] in Hgrow. rewrite Hvis, Hbatch, Hsz, Hl in Hgrow.
    rewrite Hl in Hlen, Hkeep.
    exists r, r'. repeat split; assumption.
Defined.

(** X8 for one quad written on a new renderer and flushed. *)
Lemma every_written_quad_is_drawn_once_witness :
  exists r : Renderer.t float,
    Renderer.run [Renderer.op_drawImage Example.image Example.region_call] Example.fresh
    = Some r
    /\ Renderer.length r = 1
    /\ written [Renderer.op_drawImage Example.image Example.region_call] Example.fresh = 1
    /\ indices_drawn (Renderer.gl r) + 1 * INDICES_PER_QUAD = 1 * INDICES_PER_QUAD
    /\ indices_drawn (Renderer.gl (Renderer.flush r)) = 1 * INDICES_PER_QUAD.
Proof.
  destruct (drawImage_first Example.image Example.region_call Example.canvas fresh_visible)
    as (r & Hdraw & Hone).
  assert (Hrun : Renderer.run [Renderer.op_drawImage Example.image Example.region_call]
                   Example.fresh = Some r).
  { cbn [Renderer.run Renderer.exec]. unfold Example.fresh. rewrite Hdraw. reflexivity. }
  assert (Hw : written [Renderer.op_drawImage Example.image Example.region_call]
                 Example.fresh = 1).
  { cbn [written Renderer.exec]. unfold Example.fresh. rewrite Hdraw.
    cbn [writes]. fold Example.fresh. rewrite fresh_visible. reflexivity. }
  destruct (proj2 (@every_written_quad_is_drawn_once float Binary64.binary64)
              Example.canvas _ r Hrun eq_refl) as (Hsum & Hflush).
  fold Example.fresh in Hsum, Hflush. rewrite Hw in Hsum, Hflush. rewrite Hone in Hsum.
  exists r. repeat split; assumption.
Defined.

(** X9 on a renderer whose capacity is set to 2^30. *)
Lemma resizeSB_wraps_at_two_to_the_30_witness :
  shl (2 ^ 30) 1 = - 2 ^ 31
  /\ Renderer.resizeSB (Renderer.set_sbSize (2 ^ 30) Example.fresh) = None.
Proof.
  destruct (@resizeSB_wraps_at_two_to_the_30 float Binary64.binary64) as (_ & Hhigh & Hnone & _).
  split.
  - destruct (Hhigh (2 ^ 30)) as [-> _]; [|reflexivity].
    change (2 ^ 30) with 1073741824. change (2 ^ 31) with 2147483648. lia.
  - apply Hnone. cbn [Renderer.sbSize Renderer.set_sbSize].
    change (2 ^ 30) with 1073741824. change (2 ^ 31) with 2147483648. lia.
Defined.

(** X10 on a new renderer and the call of the 100x100 image. *)
Lemma region_and_unit_of_a_quad_witness :
  exists r', Renderer.drawImage Example.image Example.region_call Example.fresh = Some r'
    /\ forall j, 0 <= j < ELEMENTS_PER_QUAD ->
         let v := (Renderer.length r' - 1) * ELEMENTS_PER_QUAD + j in
         attribute_aRegion (Renderer.stream r') v
         = [fround (fst (uv Example.image Example.region_call j));
            fround (snd (uv Example.image Example.region_call j))]
         /\ attribute_aTexture (Renderer.stream r') v
            = [fround (of_Z (snd (Renderer.uploadImage Example.image Example.fresh)))].
Proof.
  apply region_and_unit_of_a_quad; [apply fresh_reachable | apply fresh_visible].
Defined.

(** X11 on a new renderer and the call of the 100x100 image. *)
Lemma quad_is_drawn_as_two_triangles_witness :
  exists r', Renderer.drawImage Example.image Example.region_call Example.fresh = Some r'
    /\ forall j, 0 <= j < INDICES_PER_QUAD ->
         exists v,
           Renderer.createIB !! Z.to_nat ((Renderer.length r' - 1) * INDICES_PER_QUAD + j)
           = Some v
           /\ v = (Renderer.length r' - 1) * ELEMENTS_PER_QUAD + pattern j
           /\ attribute_aVertex (Renderer.stream r') v
              = [fround (fst (position Example.region_call (pattern j)));
                 fround (snd (position Example.region_call (pattern j)))].
Proof.
  apply quad_is_drawn_as_two_triangles; [apply fresh_reachable | apply fresh_visible].
Defined.

(** X12 on a new renderer and one call. *)
Lemma batch_holds_the_quads_of_the_calls_witness :
  exists r1,
    Renderer.run (draws [(Example.image, Example.region_call)]) Example.fresh = Some r1
    /\ Renderer.length r1 = Renderer.length Example.fresh + 1.
Proof.
  destruct (batch_holds_the_quads_of_the_calls [(Example.image, Example.region_call)]
              Example.fresh fresh_reachable fresh_visible) as (r1 & Hrun & Hlen & _).
  - rewrite fresh_length. unfold MAX_LENGTH. simpl. lia.
  - exists r1. split; [exact Hrun | exact Hlen].
Defined.

(** X13 for 16 samplers, at the units 3 and 20. *)
Lemma selector_reads_the_unit_of_the_quad_witness :
  Z.of_nat (List.length (Shader.textureSelector 16)) = Z.max 2 16
  /\ Shader.select (Shader.textureSelector 16) 3 = Some (Z.min 3 (16 - 1))
  /\ Shader.select (Shader.textureSelector 16) 20 = Some (Z.min 20 (16 - 1)).
Proof.
  destruct (selector_reads_the_unit_of_the_quad 16 3) as (Hlen & Hsel & _); [lia|].
  destruct (selector_reads_the_unit_of_the_quad 16 20) as (_ & Hlast & _); [lia|].
  split; [exact Hlen|]. split; [apply Hsel | apply Hlast]; lia.
Defined.

(** Sixteen images resolved on a new renderer, whose context has 16
    units: every unit is taken. *)
Lemma sixteen_images :
  let images := map (fun h => mkImage h 1 1) (seq 1 16) in
  exists r : Renderer.t float,
    Renderer.run (map Renderer.op_uploadImage images) Example.fresh = Some r
    /\ Renderer.nextUnit r = 16 /\ Renderer.maxTextures r = 16
    /\ Renderer.cache r !! 17%nat = None.
Proof.
  intros images.
  destruct fresh_cache as [Hc Hn].
  destruct (run_uploads images Example.fresh) as (r & Hrun & Hnext & Hm & Hcache).
  - apply (bool_decide_unpack _). vm_compute. exact I.
  - intros image _. rewrite Hc. apply lookup_empty.
  - exists r. split; [exact Hrun|]. split; [rewrite Hnext, Hn; reflexivity|].
    split.
    + rewrite Hm. unfold Example.fresh.
      by destruct (new_fields (F:=float) Example.canvas) as (_ & _ & _ & _ & _ & _ & _ & ->).
    + rewrite Hcache; [rewrite Hc; apply lookup_empty|].
      intros Hin. apply list_elem_of_In in Hin.
      revert Hin. apply (bool_decide_unpack _). vm_compute. exact I.
Qed.

(** X14 on a context with 16 texture units: after the 100x100 image is
    resolved on a new renderer, and for the image resolved after
    sixteen others. *)
Lemma cached_textures_stay_bound_witness :
  bound (context_units 16
           (Renderer.gl (fst (Renderer.uploadImage Example.image Example.fresh))))
    !! (TEXTURE0 + 0)
  = Some (textureOf (handle Example.image))
  /\ exists (r : Renderer.t float) h,
       Renderer.nextUnit r = 16
       /\ Renderer.cache (fst (Renderer.uploadImage (mkImage 17 1 1) r)) !! 17%nat = Some 16
       /\ h <> 17%nat
       /\ Renderer.cache (fst (Renderer.uploadImage (mkImage 17 1 1) r)) !! h = Some 15
       /\ bound (context_units 16
                   (Renderer.gl (fst (Renderer.uploadImage (mkImage 17 1 1) r))))
            !! (TEXTURE0 + 15)
          = Some (textureOf 17).
Proof.
  split.
  - destruct resolved_image as (Hrun & _ & Hc & Hm).
    refine (proj1 (proj1 (cached_textures_stay_bound Example.canvas 16 _ _ Hrun eq_refl _) _)
              _ _ Hc).
    + rewrite Hm. lia.
    + rewrite resolved_image_next. lia.
  - destruct sixteen_images as (r & Hrun & Hnext & Hm & Hnone).
    destruct (proj2 (cached_textures_stay_bound Example.canvas 16 _ r Hrun eq_refl
                       ltac:(rewrite Hm; lia))
                (mkImage 17 1 1) Hnext ltac:(lia) Hnone) as (Hnew & h & Hne & Hh & Hbound).
    exists r, h. repeat split; assumption.
Defined.

(** X15 for the [reset] after the 100x100 image is resolved. *)
Lemma reset_unbinds_the_cached_textures_witness :
  Renderer.cache (Renderer.reset (fst (Renderer.uploadImage Example.image Example.fresh)))
    !! handle Example.image = Some 0
  /\ bound (texture_units
              (Renderer.gl (Renderer.reset
                              (fst (Renderer.uploadImage Example.image Example.fresh)))))
       !! (TEXTURE0 + 0)
     = Some emptyTexture.
Proof.
  destruct resolved_image as (_ & Hr & Hc & Hm).
  destruct (reset_unbinds_the_cached_textures _ _ _ Hr Hc) as (H1 & H2 & _);
    [rewrite Hm; lia | by split].
Defined.

(** X16 after the 100x100 image is resolved on a new renderer, on a
    context with 16 texture units. *)
Lemma quads_are_textured_by_their_unit_witness :
  texture_sampled 16
    (Renderer.gl (fst (Renderer.uploadImage Example.image Example.fresh)))
    (Renderer.maxTextures (fst (Renderer.uploadImage Example.image Example.fresh))) 0
  = Some (textureOf (handle Example.image)).
Proof.
  destruct resolved_image as (Hrun & _ & Hc & Hm).
  apply (proj1 (quads_are_textured_by_their_unit Example.canvas 16 _ _ _ _ Hrun eq_refl
                  ltac:(rewrite Hm; lia) ltac:(rewrite resolved_image_next; lia) Hc)).
  rewrite Hm. lia.
Defined.

(** X17 on a new renderer. *)
Lemma projection_changes_between_batches_witness :
  last_matrix (Renderer.gl Example.fresh) = Some (Renderer.uMatrix Example.fresh)
  /\ Renderer.length (Renderer.setProjection 800%float 600%float Example.fresh) = 0.
Proof.
  destruct (@projection_changes_between_batches float Binary64.binary64) as (Hlast & _ & Hset).
  split; [apply Hlast, fresh_reachable|].
  apply (Hset 800%float 600%float Example.fresh fresh_reachable).
Defined.

(** X18 for a 400x300 projection and the pixel (200, 150). *)
Lemma projection_maps_pixels_to_clip_space_witness :
  Shader.gl_Position (Renderer.uMatrix (Renderer.setProjection 400%R 300%R Example.ideal))
    (200%R, 150%R)
  = ((2 * 200 / 400 - 1)%R, (1 - 2 * 150 / 300)%R, 0%R, 1%R).
Proof.
  apply (projection_maps_pixels_to_clip_space 400 300 200 150 Example.ideal); lra.
Defined.

(** X20 on a context that compiles no shader. *)
Lemma shader_program_is_built_or_an_error_is_thrown_witness :
  Shader.new (Shader.mkContext (fun _ => false) true) 16 highp
  = ([Shader.gl_createShader Shader.VERTEX_SHADER;
      Shader.gl_shaderSource Shader.vertex_source;
      Shader.gl_compileShader; Shader.gl_getShaderParameter_COMPILE_STATUS;
      Shader.gl_getShaderInfoLog],
     inl (Shader.failed_on_shader_compilation Shader.VERTEX_SHADER)).
Proof.
  apply (proj1 (proj2 (shader_program_is_built_or_an_error_is_thrown
                         (Shader.mkContext (fun _ => false) true) 16 highp))).
  reflexivity.
Defined.

(** X21 on a new renderer and the call of the 100x100 image. *)
Lemma second_listing_draws_the_same_quad_witness :
  exists r1 r2,
    Renderer.drawImage Example.image Example.region_call Example.fresh = Some r1
    /\ Listing2.drawImage Example.image 0%float 0%float 100%float 100%float
         25%float 25%float 50%float 50%float Example.fresh = Some r2
    /\ r2 = Renderer.set_vectors (Renderer.vectors Example.fresh) r1.
Proof.
  destruct (@second_listing_draws_the_same_quad float Binary64.binary64 Example.image
              0%float 0%float 100%float 100%float 25%float 25%float 50%float 50%float
              Example.fresh fresh_reachable)
    as (r1 & r2 & H1 & H2 & Hvis & _); [vm_compute; reflexivity|].
  exists r1, r2. split; [exact H1|]. split; [exact H2|]. apply Hvis, fresh_visible.
Defined.

(** X22 on a new renderer and an image that has not loaded. *)
Lemma divisions_are_not_guarded_witness :
  exists r', Renderer.drawImage (mkImage 3 0 0) Example.region_call Example.fresh = Some r'
    /\ exists u v,
         attribute_aRegion (Renderer.stream r')
           ((Renderer.length r' - 1) * ELEMENTS_PER_QUAD + 0) = [u; v]
         /\ finite_float u = false.
Proof.
  destruct (proj2 divisions_are_not_guarded (mkImage 3 0 0) Example.region_call Example.fresh
              fresh_reachable fresh_visible eq_refl) as (r' & Hdraw & Hattr).
  exists r'. split; [exact Hdraw|]. apply Hattr. unfold ELEMENTS_PER_QUAD. lia.
Defined.

(** X23 on a new renderer with the draw color (1, 1, 1, 0). *)
Lemma alpha_test_is_strict_witness :
  transparent (Renderer.setColor Example.clear_white Example.fresh) = true.
Proof.
  apply (proj2 (proj2 (alpha_test_is_strict
                         (Renderer.setColor Example.clear_white Example.fresh)))).
  reflexivity.
Defined.

(** X24 on a new renderer. *)
Lemma attribute_pointers_tile_the_vertex_record_witness :
  filter (fun c => is_pointer c = true) (Renderer.gl Example.fresh)
  = [vertexAttribPointer aVertex 2 36 0;
     vertexAttribPointer aColor 4 36 8;
     vertexAttribPointer aRegion 2 36 24;
     vertexAttribPointer aTexture 1 36 32].
Proof.
  apply (proj1 (@attribute_pointers_tile_the_vertex_record float Binary64.binary64)),
    fresh_reachable.
Defined.

(** X25 on a new renderer after a flush. *)
Lemma texture_limits_are_fixed_at_construction_witness :
  Renderer.maxTextures (Renderer.flush Example.fresh)
  = Z.min 24 (MAX_TEXTURE_IMAGE_UNITS Example.canvas).
Proof.
  apply (proj1 (texture_limits_are_fixed_at_construction Example.canvas
                  [Renderer.op_flush] (Renderer.flush Example.fresh) eq_refl)).
Defined.

(** X27 for the flush of a renderer with one pending quad. *)
Lemma draws_read_only_uploaded_vertices_witness :
  exists (r : Renderer.t float) cs data count,
    Renderer.length r = 1
    /\ Renderer.gl (Renderer.flush r) = Renderer.gl r ++ cs
    /\ filter (fun c => is_submission c = true) cs
       = [bufferSubData ARRAY_BUFFER 0 data; drawElements_TRIANGLES count 0].
Proof.
  destruct one_pending as (r & Hr & Hone).
  destruct (draws_read_only_uploaded_vertices Renderer.op_flush r (Renderer.flush r) Hr eq_refl)
    as (cs & data & count & Hgl & Hsub & _).
  - simpl. by rewrite Hone.
  - exists r, cs, data, count. by repeat split.
Defined.
